(** * aws-invoice-automation: aggregation, reconciliation and validation

    A shallow embedding of the core of the invoice pipeline:
    - [InvoiceProcessor._aggregate_by_business_unit]  (scripts/invoice_processor.py)
    - [BudgetReconciler.reconcile]                    (scripts/reconciler.py)
    - [DataValidator.validate_cost_data], [_checksum],
      [validate_aggregation], [validate_reconciliation] (utils/validators.py)
    with [hashlib.md5], [json.dumps(sort_keys=True)] and
    [datetime.strptime(_, "%Y-%m-%d")] as the validator uses them, and
    around that core:
    - the extraction loop of [InvoiceProcessor.process]
    - [CostExtractor._query_cost_explorer], [_throttle],
      [_normalise_results]                            (scripts/cost_extractor.py)
    - [AccountMapper]                                 (utils/account_mapper.py)
    - the rows of [ReportGenerator._generate_csv] and of the business-unit
      table of [_generate_html]                       (scripts/report_generator.py)
    - [DataValidator.get_validation_summary]          (utils/validators.py)
    The Cost Explorer client and the text-to-float conversion are
    parameters.

    Modelling conventions.
    - A Python [dict] is an association list in insertion order; lookup
      returns the first binding of a key, assignment replaces the binding
      in place or appends a new one at the end.
    - A cost record is a dict from field names to scalar values
      ([None], [bool], [int], [float], [str]).
    - A Python [int] is an integer and its arithmetic is exact. A [float]
      is a binary64 number: [NFloat q] and [VFloat q] stand for the binary64
      number nearest to the rational [q] (ties to the even mantissa, as
      a float literal or [float(str)] is read), and every float operation
      is the exact operation on the operands' values followed by that
      rounding. [/] is true division and gives a float also on two ints;
      [round(x, n)] of a float rounds the exact value half-even at [n]
      decimals and takes the nearest binary64 number. [sum] adds from
      left to right, as CPython does up to version 3.11. Infinities, NaN,
      the sign of zero and overflow are left out: the exponent is not
      bounded from above.
    - The textual form of a float ([repr]) is a parameter [float_repr]
      wherever a float is printed.
    - A Python [str] is a sequence of code points below 256.
    - [sorted] is a stable insertion sort.
    - A raised exception is an explicit [Raise] result.
    - Wall-clock timestamps and logger calls are left out. *)

From Stdlib Require Import List String Ascii Bool Arith ZArith QArith Qabs Qround.
From Stdlib Require Import Qpower Lia Lqa Permutation Sorted DecimalString.
Import ListNotations.

Local Open Scope string_scope.
Local Open Scope list_scope.
Local Open Scope Q_scope.

(** ** Binary64 numbers

    [rnd x] is the binary64 number nearest to [x], ties to the even
    mantissa: [x] is scaled by the power of two that leaves 53 bits before
    the point (or by [2^-1074] in the subnormal range) and rounded to the
    nearest integer. *)

Module Float64.

(** [round(x)] to the nearest integer, ties to the even one. *)
Definition round_half_even (x : Q) : Z :=
  let f := Qfloor x in
  match Qcompare (x - inject_Z f) (1 # 2) with
  | Lt => f
  | Gt => (f + 1)%Z
  | Eq => if Z.even f then f else (f + 1)%Z
  end.

Definition pow2 (k : Z) : Q := 2 ^ k.

(** The [k] with [2^k <= x < 2^(k+1)], for a positive [x]. *)
Definition ilog2 (x : Q) : Z :=
  let k := (Z.log2 (Qnum x) - Z.log2 (Zpos (Qden x)))%Z in
  if Qle_bool (pow2 k) x then k else (k - 1)%Z.

(** The exponent of the last mantissa bit of the binary64 numbers around
    [x]. *)
Definition expo (x : Q) : Z := Z.max (ilog2 (Qabs x) - 52) (-1074).

Definition rnd (x : Q) : Q :=
  if Qeq_bool x 0 then 0
  else inject_Z (round_half_even (x / pow2 (expo x))) * pow2 (expo x).

(** The rounding of a decimal number to [ndigits] decimals, half to even. *)
Definition round_decimal (x : Q) (ndigits : nat) : Q :=
  let scale := Z.to_pos (10 ^ Z.of_nat ndigits) in
  Qmake (round_half_even (x * inject_Z (Zpos scale))) scale.

End Float64.

Import Float64.

(** ** Python values, exceptions and dicts *)

Module Py.

Inductive value : Type :=
| VNone
| VBool (b : bool)
| VInt (z : Z)
| VFloat (q : Q)
| VStr (s : string).

Inductive exn : Type := KeyError | TypeError | ZeroDivisionError.

Inductive result (A : Type) : Type :=
| Ok (a : A)
| Raise (e : exn).

Arguments Ok {A} a.
Arguments Raise {A} e.

Definition bind {A B} (m : result A) (k : A -> result B) : result B :=
  match m with
  | Ok a => k a
  | Raise e => Raise e
  end.

(** [for x in l: st = body st x], stopping at the first exception. *)
Fixpoint for_each {A S} (body : S -> A -> result S) (l : list A) (st : S)
  : result S :=
  match l with
  | [] => Ok st
  | x :: l' => bind (body st x) (for_each body l')
  end.

(** A number: an [int], or the [float] nearest to [q]. *)
Inductive num : Type :=
| NInt (z : Z)
| NFloat (q : Q).

(** The value of a number. Comparisons of numbers, also of an [int] with a
    [float], compare the values. *)
Definition val (x : num) : Q :=
  match x with
  | NInt z => inject_Z z
  | NFloat q => rnd q
  end.

Coercion val : num >-> Q.

(** [float(x)]. *)
Definition float_of (x : num) : Q :=
  match x with
  | NInt z => rnd (inject_Z z)
  | NFloat q => rnd q
  end.

(** [x + y], [x - y], [x * y]: exact on two ints, otherwise the float
    operation on [float(x)] and [float(y)]. *)
Definition num_add (x y : num) : num :=
  match x, y with
  | NInt a, NInt b => NInt (a + b)
  | _, _ => NFloat (float_of x + float_of y)
  end.

Definition num_sub (x y : num) : num :=
  match x, y with
  | NInt a, NInt b => NInt (a - b)
  | _, _ => NFloat (float_of x - float_of y)
  end.

Definition num_mul (x y : num) : num :=
  match x, y with
  | NInt a, NInt b => NInt (a * b)
  | _, _ => NFloat (float_of x * float_of y)
  end.

(** [-x] and [abs(x)]. *)
Definition num_neg (x : num) : num :=
  match x with
  | NInt a => NInt (- a)
  | NFloat q => NFloat (- q)
  end.

Definition num_abs (x : num) : num :=
  match x with
  | NInt a => NInt (Z.abs a)
  | NFloat q => NFloat (Qabs q)
  end.

(** [round(x, ndigits)]: an int is returned as it is. *)
Definition py_round (x : num) (ndigits : nat) : num :=
  match x with
  | NInt a => NInt a
  | NFloat q => NFloat (round_decimal (rnd q) ndigits)
  end.

(** A number as a value. *)
Definition value_of (x : num) : value :=
  match x with
  | NInt z => VInt z
  | NFloat q => VFloat q
  end.

(** The number a value is when [isinstance(v, (int, float))]; [bool] is a
    subclass of [int]. *)
Definition num_of (v : value) : option num :=
  match v with
  | VBool b => Some (NInt (if b then 1 else 0))
  | VInt z => Some (NInt z)
  | VFloat q => Some (NFloat q)
  | VNone | VStr _ => None
  end.

(** [acc + v] for a numeric accumulator [acc]: a [TypeError] unless [v] is a
    number. *)
Definition py_add (acc : num) (v : value) : result num :=
  match num_of v with
  | Some x => Ok (num_add acc x)
  | None => Raise TypeError
  end.

(** [x < y] on the values of numbers. *)
Definition Qltb (x y : Q) : bool := negb (Qle_bool y x).

(** [x / y]: true division, a float also on two ints; the quotient of two
    ints is rounded once. *)
Definition py_div (x y : num) : result num :=
  if Qeq_bool y 0 then Raise ZeroDivisionError
  else Ok (match x, y with
           | NInt a, NInt b => NFloat (inject_Z a / inject_Z b)
           | _, _ => NFloat (float_of x / float_of y)
           end).

(** [==] and hashing agree on [1], [1.0] and [True]: as dict keys they are
    one key. *)
Definition py_eqb (v w : value) : bool :=
  match v, w with
  | VNone, VNone => true
  | VStr s, VStr t => String.eqb s t
  | _, _ =>
      match num_of v, num_of w with
      | Some p, Some q => Qeq_bool p q
      | _, _ => false
      end
  end.

(** [sum(l)]: left to right from the int [0]. *)
Definition py_sum (l : list num) : num := fold_left num_add l (NInt 0).

Section Dict.
Context {K V : Type} (eqb : K -> K -> bool).

Definition dict : Type := list (K * V).

Fixpoint get (d : dict) (k : K) : option V :=
  match d with
  | [] => None
  | (k', v) :: d' => if eqb k' k then Some v else get d' k
  end.

Definition get_default (d : dict) (k : K) (dflt : V) : V :=
  match get d k with Some v => v | None => dflt end.

Definition mem (d : dict) (k : K) : bool :=
  match get d k with Some _ => true | None => false end.

Definition getitem (d : dict) (k : K) : result V :=
  match get d k with Some v => Ok v | None => Raise KeyError end.

Fixpoint setitem (d : dict) (k : K) (v : V) : dict :=
  match d with
  | [] => [(k, v)]
  | (k', v') :: d' =>
      if eqb k' k then (k', v) :: d' else (k', v') :: setitem d' k v
  end.

Definition keys (d : dict) : list K := map fst d.
Definition values (d : dict) : list V := map snd d.
End Dict.

(** A cost record, and any other dict keyed by field name. *)
Definition record : Type := list (string * value).

Definition field (r : record) (k : string) : option value :=
  get String.eqb r k.

End Py.

Import Py.

Notation "x <- m ;; k" := (bind m (fun x => k))
  (at level 61, m at next level, right associativity).

(** ** scripts/invoice_processor.py *)

Module InvoiceProcessor.

(** One value of [all_costs]. *)
Record account_data : Type := {
  name : string;
  business_unit : string;
  costs : list record
}.

Record account_entry : Type := {
  id : string;
  acc_name : string;
  acc_total : num
}.

Record bu_aggregate : Type := {
  total : num;
  accounts : list account_entry;
  services : list (value * num)
}.

Definition empty_aggregate : bu_aggregate :=
  {| total := NInt 0; accounts := []; services := [] |}.

(** [sum(cost["amount"] for cost in costs)]: the subscript raises [KeyError]
    on a record without the field, the addition [TypeError] on a value that
    is not a number. *)
Definition add_amount (acc : num) (cost : record) : result num :=
  amount <- getitem String.eqb cost "amount" ;;
  py_add acc amount.

Definition sum_amounts (costs : list record) : result num :=
  for_each add_amount costs (NInt 0).

(** Body of the inner loop [for cost in data["costs"]]. *)
Definition add_service (services : list (value * num)) (cost : record)
  : result (list (value * num)) :=
  let service := get_default String.eqb cost "service" (VStr "Other") in
  amount <- getitem String.eqb cost "amount" ;;
  subtotal <- py_add (get_default py_eqb services service (NInt 0)) amount ;;
  Ok (setitem py_eqb services service subtotal).

(** [if bu not in aggregated: aggregated[bu] = {"total": 0, ...}] *)
Definition with_bucket (aggregated : list (string * bu_aggregate))
           (bu : string) : list (string * bu_aggregate) :=
  if mem String.eqb aggregated bu then aggregated
  else setitem String.eqb aggregated bu empty_aggregate.

(** Body of the outer loop [for account_id, data in all_costs.items()]. *)
Definition aggregate_account (aggregated : list (string * bu_aggregate))
           (item : string * account_data)
  : result (list (string * bu_aggregate)) :=
  let '(account_id, data) := item in
  let bu := business_unit data in
  let aggregated := with_bucket aggregated bu in
  account_total <- sum_amounts (costs data) ;;
  unit <- getitem String.eqb aggregated bu ;;
  let entry :=
    {| id := account_id; acc_name := name data; acc_total := account_total |} in
  svcs <- for_each add_service (costs data) (services unit) ;;
  Ok (setitem String.eqb aggregated bu
        {| total := num_add (total unit) account_total;
           accounts := accounts unit ++ [entry];
           services := svcs |}).

Definition _aggregate_by_business_unit (all_costs : list (string * account_data))
  : result (list (string * bu_aggregate)) :=
  for_each aggregate_account all_costs [].

(** [sum(a["total"] for a in aggregated.values())] in [process]. *)
Definition total_spend (aggregated : list (string * bu_aggregate)) : num :=
  py_sum (map total (values aggregated)).

End InvoiceProcessor.

(** ** scripts/reconciler.py *)

Module Reconciler.

Import InvoiceProcessor.

(** [sorted(items, key=lambda x: x[1], reverse=True)]: a stable sort, so an
    item is placed before the items already there whose amount is not
    larger. *)
Fixpoint insert_desc {K} (x : K * num) (l : list (K * num))
  : list (K * num) :=
  match l with
  | [] => [x]
  | y :: l' =>
      if Qltb (snd x) (snd y) then y :: insert_desc x l' else x :: y :: l'
  end.

Definition sorted_desc {K} (items : list (K * num)) : list (K * num) :=
  fold_right insert_desc [] items.

Inductive status_t : Type := ON_TRACK | OVERRUN | UNDERRUN | NO_BUDGET.

(** One entry of [top_cost_drivers]. *)
Record driver : Type := { service : value; amount : num }.

(** One value of [results["units"]]; the NO_BUDGET record carries only
    [actual], [budget] ([None]), [status] and [message]. *)
Record unit_record : Type := {
  actual : num;
  budget : option num;
  variance : option num;
  variance_pct : option num;
  status : status_t;
  alert_threshold_pct : option num;
  top_cost_drivers : option (list driver);
  unit_accounts : option (list account_entry);
  message : option string
}.

Record results_t : Type := {
  month : string;
  units : list (string * unit_record);
  total_variances : Z;
  total_overrun : num;
  total_underrun : num
}.

Definition set_unit (results : results_t) (bu_name : string) (u : unit_record)
  : results_t :=
  {| month := month results;
     units := setitem String.eqb (units results) bu_name u;
     total_variances := total_variances results;
     total_overrun := total_overrun results;
     total_underrun := total_underrun results |}.

(** [self.budgets]: business unit -> {"monthly_target", "alert_threshold_pct"}. *)
Definition budgets_t : Type := list (string * list (string * num)).

(** [{"service": s, "amount": round(a, 2)}] *)
Definition to_driver (sa : value * num) : driver :=
  {| service := fst sa; amount := py_round (snd sa) 2 |}.

(** [self.budgets.get(bu_name, {}).get("monthly_target", 0)] *)
Definition budget_target_of (budgets : budgets_t) (bu_name : string) : num :=
  get_default String.eqb (get_default String.eqb budgets bu_name [])
              "monthly_target" (NInt 0).

(** [self.budgets.get(bu_name, {}).get("alert_threshold_pct", 10)] *)
Definition alert_threshold_of (budgets : budgets_t) (bu_name : string) : num :=
  get_default String.eqb (get_default String.eqb budgets bu_name [])
              "alert_threshold_pct" (NInt 10).

(** Body of the loop [for bu_name, bu_costs in aggregated_costs.items()]. *)
Definition reconcile_unit (budgets : budgets_t) (results : results_t)
           (item : string * bu_aggregate) : result results_t :=
  let '(bu_name, bu_costs) := item in
  let actual := total bu_costs in
  let budget_target := budget_target_of budgets bu_name in
  let alert_threshold := alert_threshold_of budgets bu_name in
  if Qeq_bool budget_target 0 then
    Ok (set_unit results bu_name
          {| actual := actual;
             budget := None;
             variance := None;
             variance_pct := None;
             status := NO_BUDGET;
             alert_threshold_pct := None;
             top_cost_drivers := None;
             unit_accounts := None;
             message := Some "No budget configured for this business unit" |})
  else
    let variance := num_sub actual budget_target in
    ratio <- py_div variance budget_target ;;
    let variance_pct := num_mul ratio (NInt 100) in
    let '(status, results) :=
      if Qltb alert_threshold variance_pct then
        (OVERRUN,
         {| month := month results;
            units := units results;
            total_variances := (total_variances results + 1)%Z;
            total_overrun := num_add (total_overrun results) variance;
            total_underrun := total_underrun results |})
      else if Qltb variance_pct (num_neg alert_threshold) then
        (UNDERRUN,
         {| month := month results;
            units := units results;
            total_variances := total_variances results;
            total_overrun := total_overrun results;
            total_underrun :=
              num_add (total_underrun results) (num_abs variance) |})
      else (ON_TRACK, results) in
    let top_services := firstn 5 (sorted_desc (services bu_costs)) in
    Ok (set_unit results bu_name
          {| actual := py_round actual 2;
             budget := Some budget_target;
             variance := Some (py_round variance 2);
             variance_pct := Some (py_round variance_pct 1);
             status := status;
             alert_threshold_pct := Some alert_threshold;
             top_cost_drivers := Some (map to_driver top_services);
             unit_accounts := Some (accounts bu_costs);
             message := None |}).

Definition reconcile (budgets : budgets_t)
           (aggregated_costs : list (string * bu_aggregate)) (month : string)
  : result results_t :=
  for_each (reconcile_unit budgets) aggregated_costs
    {| month := month; units := []; total_variances := 0;
       total_overrun := NInt 0; total_underrun := NInt 0 |}.

End Reconciler.

(** ** hashlib.md5 (RFC 1321) *)

Module Hashlib.

Local Open Scope Z_scope.

Definition mask32 : Z := 0xffffffff.
Definition add32 (x y : Z) : Z := Z.land (x + y) mask32.
Definition not32 (x : Z) : Z := Z.lxor x mask32.
Definition rotl32 (x s : Z) : Z :=
  Z.land (Z.lor (Z.shiftl x s) (Z.shiftr x (32 - s))) mask32.

Definition shift_amounts : list Z :=
  [7; 12; 17; 22; 7; 12; 17; 22; 7; 12; 17; 22; 7; 12; 17; 22;
   5; 9; 14; 20; 5; 9; 14; 20; 5; 9; 14; 20; 5; 9; 14; 20;
   4; 11; 16; 23; 4; 11; 16; 23; 4; 11; 16; 23; 4; 11; 16; 23;
   6; 10; 15; 21; 6; 10; 15; 21; 6; 10; 15; 21; 6; 10; 15; 21].

(** [floor(2^32 * abs(sin(i + 1)))] for [i] in [0..63]. *)
Definition sines : list Z :=
  [0xd76aa478; 0xe8c7b756; 0x242070db; 0xc1bdceee;
   0xf57c0faf; 0x4787c62a; 0xa8304613; 0xfd469501;
   0x698098d8; 0x8b44f7af; 0xffff5bb1; 0x895cd7be;
   0x6b901122; 0xfd987193; 0xa679438e; 0x49b40821;
   0xf61e2562; 0xc040b340; 0x265e5a51; 0xe9b6c7aa;
   0xd62f105d; 0x02441453; 0xd8a1e681; 0xe7d3fbc8;
   0x21e1cde6; 0xc33707d6; 0xf4d50d87; 0x455a14ed;
   0xa9e3e905; 0xfcefa3f8; 0x676f02d9; 0x8d2a4c8a;
   0xfffa3942; 0x8771f681; 0x6d9d6122; 0xfde5380c;
   0xa4beea44; 0x4bdecfa9; 0xf6bb4b60; 0xbebfbc70;
   0x289b7ec6; 0xeaa127fa; 0xd4ef3085; 0x04881d05;
   0xd9d4d039; 0xe6db99e5; 0x1fa27cf8; 0xc4ac5665;
   0xf4292244; 0x432aff97; 0xab9423a7; 0xfc93a039;
   0x655b59c3; 0x8f0ccc92; 0xffeff47d; 0x85845dd1;
   0x6fa87e4f; 0xfe2ce6e0; 0xa3014314; 0x4e0811a1;
   0xf7537e82; 0xbd3af235; 0x2ad7d2bb; 0xeb86d391].

Record state : Type := { sa : Z; sb : Z; sc : Z; sd : Z }.

Definition init : state :=
  {| sa := 0x67452301; sb := 0xefcdab89; sc := 0x98badcfe; sd := 0x10325476 |}.

(** The round function and the index of the message word of step [i]. *)
Definition mix (i : Z) (b c d : Z) : Z * Z :=
  if i <? 16 then (Z.lor (Z.land b c) (Z.land (not32 b) d), i)
  else if i <? 32 then
    (Z.lor (Z.land d b) (Z.land (not32 d) c), (5 * i + 1) mod 16)
  else if i <? 48 then (Z.lxor b (Z.lxor c d), (3 * i + 5) mod 16)
  else (Z.lxor c (Z.lor b (not32 d)), (7 * i) mod 16).

Definition step (block : list Z) (st : state) (i : nat) : state :=
  let '(f, g) := mix (Z.of_nat i) (sb st) (sc st) (sd st) in
  let f' := add32 (add32 (add32 f (sa st)) (nth i sines 0))
                  (nth (Z.to_nat g) block 0) in
  {| sa := sd st;
     sb := add32 (sb st) (rotl32 f' (nth i shift_amounts 0));
     sc := sb st;
     sd := sc st |}.

Definition compress (st : state) (block : list Z) : state :=
  let st' := fold_left (step block) (seq 0 64) st in
  {| sa := add32 (sa st) (sa st'); sb := add32 (sb st) (sb st');
     sc := add32 (sc st) (sc st'); sd := add32 (sd st) (sd st') |}.

(** The low [n] bytes of [x], least significant first. *)
Fixpoint le_bytes (n : nat) (x : Z) : list Z :=
  match n with
  | O => []
  | S n' => Z.land x 0xff :: le_bytes n' (Z.shiftr x 8)
  end.

Fixpoint le_words (bytes : list Z) : list Z :=
  match bytes with
  | b0 :: b1 :: b2 :: b3 :: rest =>
      (b0 + Z.shiftl b1 8 + Z.shiftl b2 16 + Z.shiftl b3 24) :: le_words rest
  | _ => []
  end.

Definition padding (len : nat) : list Z :=
  0x80 :: repeat 0 (Z.to_nat ((55 - Z.of_nat len) mod 64))
       ++ le_bytes 8 (8 * Z.of_nat len).

Fixpoint blocks (n : nat) (words : list Z) : list (list Z) :=
  match n with
  | O => []
  | S n' => firstn 16 words :: blocks n' (skipn 16 words)
  end.

Definition digest (msg : list Z) : state :=
  let padded := msg ++ padding (List.length msg) in
  fold_left compress (blocks (List.length padded / 64) (le_words padded)) init.

Definition hex_digit (n : Z) : ascii :=
  ascii_of_nat (Z.to_nat (if n <? 10 then 48 + n else 87 + n)).

Definition hex_byte (b : Z) : list ascii :=
  [hex_digit (Z.shiftr b 4); hex_digit (Z.land b 0xf)].

(** [hashlib.md5(s.encode()).hexdigest()] for a string [s] of ASCII
    characters. *)
Definition md5_hexdigest (s : string) : string :=
  let st := digest (map (fun c => Z.of_nat (nat_of_ascii c))
                        (list_ascii_of_string s)) in
  string_of_list_ascii
    (flat_map hex_byte
       (le_bytes 4 (sa st) ++ le_bytes 4 (sb st)
        ++ le_bytes 4 (sc st) ++ le_bytes 4 (sd st))).

End Hashlib.

(** ** utils/validators.py *)

Module Validators.

Import InvoiceProcessor.

(** An f-string: the concatenation of its parts. *)
Definition fstr (parts : list string) : string := String.concat EmptyString parts.

Definition string_of_nat (n : nat) : string :=
  NilZero.string_of_uint (Nat.to_uint n).

Definition string_of_Z (z : Z) : string :=
  NilZero.string_of_int (Z.to_int z).

(** *** [datetime.strptime(s, "%Y-%m-%d")]

    The format compiles to the regular expression
    [(\d\d\d\d)-(1[0-2]|0[1-9]|[1-9])-(3[01]|[12]\d|0[1-9]|[1-9]| [1-9])],
    matched at the start of the string; text left over after the match and a
    day that does not exist in the calendar are both a [ValueError]. *)

Definition in_range (lo hi c : ascii) : bool :=
  (Ascii.leb lo c && Ascii.leb c hi)%bool.

Definition is_digit (c : ascii) : bool := in_range "0" "9" c.

Definition digit (c : ascii) : nat := nat_of_ascii c - 48.

Definition parse_month (s : list ascii) : option (nat * list ascii) :=
  match s with
  | c1 :: c2 :: rest =>
      if (Ascii.eqb c1 "1" && in_range "0" "2" c2)%bool
      then Some (10 + digit c2, rest)%nat
      else if (Ascii.eqb c1 "0" && in_range "1" "9" c2)%bool
      then Some (digit c2, rest)
      else if in_range "1" "9" c1 then Some (digit c1, c2 :: rest)
      else None
  | [c1] => if in_range "1" "9" c1 then Some (digit c1, []) else None
  | [] => None
  end.

Definition parse_day (s : list ascii) : option (nat * list ascii) :=
  match s with
  | c1 :: c2 :: rest =>
      if (Ascii.eqb c1 "3" && in_range "0" "1" c2)%bool
      then Some (30 + digit c2, rest)%nat
      else if (in_range "1" "2" c1 && is_digit c2)%bool
      then Some (10 * digit c1 + digit c2, rest)%nat
      else if (Ascii.eqb c1 "0" && in_range "1" "9" c2)%bool
      then Some (digit c2, rest)
      else if in_range "1" "9" c1 then Some (digit c1, c2 :: rest)
      else if (Ascii.eqb c1 " " && in_range "1" "9" c2)%bool
      then Some (digit c2, rest)
      else None
  | [c1] => if in_range "1" "9" c1 then Some (digit c1, []) else None
  | [] => None
  end.

Definition is_leap (year : nat) : bool :=
  ((year mod 4 =? 0) && negb (year mod 100 =? 0) || (year mod 400 =? 0))%nat%bool.

Definition days_in_month (year month : nat) : nat :=
  match month with
  | 2 => if is_leap year then 29 else 28
  | 4 | 6 | 9 | 11 => 30
  | _ => 31
  end%nat.

(** [datetime(year, month, day)] exists. *)
Definition valid_date (year month day : nat) : bool :=
  ((1 <=? year) && (1 <=? month) && (month <=? 12)
   && (1 <=? day) && (day <=? days_in_month year month))%nat%bool.

(** [true] when [strptime] returns, [false] when it raises [ValueError]. *)
Definition strptime_ymd (s : string) : bool :=
  match list_ascii_of_string s with
  | y1 :: y2 :: y3 :: y4 :: rest =>
      if (is_digit y1 && is_digit y2 && is_digit y3 && is_digit y4)%bool then
        let year :=
          (1000 * digit y1 + 100 * digit y2 + 10 * digit y3 + digit y4)%nat in
        match rest with
        | sep1 :: rest1 =>
            if Ascii.eqb sep1 "-" then
              match parse_month rest1 with
              | Some (month, sep2 :: rest2) =>
                  if Ascii.eqb sep2 "-" then
                    match parse_day rest2 with
                    | Some (day, []) => valid_date year month day
                    | _ => false
                    end
                  else false
              | _ => false
              end
            else false
        | [] => false
        end
      else false
  | _ => false
  end.

(** *** [json.dumps(data, sort_keys=True, default=str)] *)

Definition dquote : ascii := "034"%char.
Definition backslash : ascii := "092"%char.

Definition hex_lower (n : nat) : ascii :=
  ascii_of_nat (if n <? 10 then 48 + n else 87 + n)%nat.

(** The escape of one character by [ensure_ascii]: everything outside the
    range from space to tilde is escaped. *)
Definition escape_char (c : ascii) : string :=
  let n := nat_of_ascii c in
  let esc (x : ascii) := String backslash (String x EmptyString) in
  if Ascii.eqb c dquote then esc dquote
  else if Ascii.eqb c backslash then esc backslash
  else if (n =? 8)%nat then esc "b"%char
  else if (n =? 9)%nat then esc "t"%char
  else if (n =? 10)%nat then esc "n"%char
  else if (n =? 12)%nat then esc "f"%char
  else if (n =? 13)%nat then esc "r"%char
  else if in_range " " "~" c then String c EmptyString
  else String backslash
         (String "u" (String "0" (String "0"
            (String (hex_lower (n / 16)) (String (hex_lower (n mod 16))
               EmptyString))))).

Fixpoint escape (s : string) : string :=
  match s with
  | EmptyString => EmptyString
  | String c s' => String.append (escape_char c) (escape s')
  end.

Definition json_string (s : string) : string :=
  String dquote (String.append (escape s) (String dquote EmptyString)).

(** [sorted(record.items())]: by key, since the keys of a dict are
    distinct. *)
Fixpoint insert_key {V} (x : string * V) (l : list (string * V))
  : list (string * V) :=
  match l with
  | [] => [x]
  | y :: l' =>
      if String.leb (fst x) (fst y) then x :: y :: l' else y :: insert_key x l'
  end.

Definition sort_keys {V} (d : list (string * V)) : list (string * V) :=
  fold_right insert_key [] d.

Inductive verdict : Type := PASS | WARN | FAIL.

Record validation_result : Type := {
  status : verdict;
  issues : list string;
  issue_count : nat;
  record_count : option nat;
  total_amount : option num;
  checksum : option string;
  business_units : option nat
}.

(** One entry of [self.validation_log]. *)
Record log_entry : Type := {
  stage : string;
  context : string;
  log_status : verdict;
  log_issue_count : nat
}.

Definition _result (status : verdict) (issues : list string)
  : validation_result :=
  {| status := status;
     issues := issues;
     issue_count := List.length issues;
     record_count := None;
     total_amount := None;
     checksum := None;
     business_units := None |}.

Definition _log_validation (validation_log : list log_entry)
           (stage context : string) (result : validation_result)
  : list log_entry :=
  validation_log ++ [{| stage := stage;
                        context := context;
                        log_status := status result;
                        log_issue_count := issue_count result |}].

Section Printing.

(** [repr] of a float, and a number formatted with [:.2f]. *)
Variable float_repr : Q -> string.
Variable format_2f : Q -> string.

(** [str(v)], as an f-string formats a value. *)
Definition py_str (v : value) : string :=
  match v with
  | VNone => "None"
  | VBool true => "True"
  | VBool false => "False"
  | VInt z => string_of_Z z
  | VFloat q => float_repr (rnd q)
  | VStr s => s
  end.

Definition json_value (v : value) : string :=
  match v with
  | VNone => "null"
  | VBool true => "true"
  | VBool false => "false"
  | VInt z => string_of_Z z
  | VFloat q => float_repr (rnd q)
  | VStr s => json_string s
  end.

Definition json_item (kv : string * value) : string :=
  fstr [json_string (fst kv); ": "; json_value (snd kv)].

Definition json_dict (r : record) : string :=
  fstr ["{"; String.concat ", " (map json_item (sort_keys r)); "}"].

Definition json_dumps (data : list record) : string :=
  fstr ["["; String.concat ", " (map json_dict data); "]"].

Definition _checksum (data : list record) : string :=
  Hashlib.md5_hexdigest (json_dumps data).

(** Body of the loop [for i, record in enumerate(costs)]. A [date] that is
    not a string makes [strptime] raise [TypeError], which the [except
    ValueError] does not catch. *)
Definition check_record (i : nat) (record : record) (issues : list string)
  : result (list string) :=
  let issues :=
    match field record "amount" with
    | None =>
        issues ++ [fstr ["Record "; string_of_nat i; ": missing 'amount' field"]]
    | Some v =>
        match num_of v with
        | None =>
            issues ++ [fstr ["Record "; string_of_nat i;
                             ": 'amount' is not numeric"]]
        | Some q =>
            if Qltb q 0 then
              issues ++ [fstr ["Record "; string_of_nat i;
                               ": negative amount ("; py_str v; ")"]]
            else issues
        end
    end in
  issues <-
    match field record "date" with
    | None =>
        Ok (issues ++ [fstr ["Record "; string_of_nat i;
                             ": missing 'date' field"]])
    | Some (VStr s) =>
        if strptime_ymd s then Ok issues
        else Ok (issues ++ [fstr ["Record "; string_of_nat i;
                                  ": invalid date format ("; s; ")"]])
    | Some _ => Raise TypeError
    end ;;
  Ok (match field record "service" with
      | None =>
          issues ++ [fstr ["Record "; string_of_nat i;
                           ": missing 'service' field"]]
      | Some _ => issues
      end).

Fixpoint check_records (i : nat) (costs : list record) (issues : list string)
  : result (list string) :=
  match costs with
  | [] => Ok issues
  | record :: rest =>
      issues <- check_record i record issues ;;
      check_records (S i) rest issues
  end.

(** [f"{record.get('date')}|{record.get('service')}|{record.get('amount')}"] *)
Definition dup_key (record : record) : string :=
  fstr [py_str (get_default String.eqb record "date" VNone); "|";
        py_str (get_default String.eqb record "service" VNone); "|";
        py_str (get_default String.eqb record "amount" VNone)].

Definition set_add (seen : list string) (key : string) : list string :=
  if existsb (String.eqb key) seen then seen else seen ++ [key].

(** Body of the duplicate loop, on the pair [(seen, issues)]. *)
Definition check_duplicate (st : list string * list string) (record : record)
  : list string * list string :=
  let '(seen, issues) := st in
  let key := dup_key record in
  (set_add seen key,
   if existsb (String.eqb key) seen
   then issues ++ [fstr ["Potential duplicate: "; key]]
   else issues).

Definition validate_cost_data (validation_log : list log_entry)
           (costs : list record) (payer_id : string)
  : result (validation_result * list log_entry) :=
  match costs with
  | [] =>
      Ok (_result FAIL [fstr ["No cost data returned for payer "; payer_id]],
          validation_log)
  | _ :: _ =>
      issues <- check_records 0 costs [] ;;
      let issues := snd (fold_left check_duplicate costs ([], issues)) in
      let status :=
        match issues with
        | [] => PASS
        | _ => if (List.length issues <? 3)%nat then WARN else FAIL
        end in
      total <-
        for_each py_add
                 (map (fun r => get_default String.eqb r "amount" (VInt 0)) costs)
                 (NInt 0) ;;
      let result :=
        {| status := status;
           issues := issues;
           issue_count := List.length issues;
           record_count := Some (List.length costs);
           total_amount := Some total;
           checksum := Some (_checksum costs);
           business_units := None |} in
      Ok (result, _log_validation validation_log "cost_data" payer_id result)
  end.

(** Body of the loop [for bu_name, bu_data in aggregated.items()]. *)
Definition check_unit (issues : list string) (item : string * bu_aggregate)
  : list string :=
  let '(bu_name, bu_data) := item in
  let issues :=
    if Qle_bool (total bu_data) 0
    then issues ++ [fstr [bu_name; ": zero or negative total"]]
    else issues in
  let account_sum := py_sum (map acc_total (accounts bu_data)) in
  let issues :=
    if Qltb (NFloat (1 # 100)) (num_abs (num_sub account_sum (total bu_data)))
    then issues ++ [fstr [bu_name; ": account sum ("; format_2f account_sum;
                          ") != total ("; format_2f (total bu_data); ")"]]
    else issues in
  let service_sum := py_sum (values (services bu_data)) in
  if Qltb (NFloat (1 # 100)) (num_abs (num_sub service_sum (total bu_data)))
  then issues ++ [fstr [bu_name; ": service sum ("; format_2f service_sum;
                        ") != total ("; format_2f (total bu_data); ")"]]
  else issues.

Definition validate_aggregation (validation_log : list log_entry)
           (aggregated : list (string * bu_aggregate))
  : validation_result * list log_entry :=
  let issues := fold_left check_unit aggregated [] in
  let status := match issues with [] => PASS | _ => FAIL end in
  let result :=
    {| status := status;
       issues := issues;
       issue_count := List.length issues;
       record_count := None;
       total_amount := None;
       checksum := None;
       business_units := Some (List.length aggregated) |} in
  (result, _log_validation validation_log "aggregation" "all" result).

End Printing.

(** Body of the loop [for bu_name, data in reconciliation["units"].items()].
    [data.get("budget")] is falsy for [None] and for zero. *)
Definition check_reconciled (issues : list string)
           (item : string * Reconciler.unit_record) : result (list string) :=
  let '(bu_name, data) := item in
  match Reconciler.budget data with
  | None => Ok issues
  | Some budget =>
      if Qeq_bool budget 0 then Ok issues
      else
        let expected_variance := num_sub (Reconciler.actual data) budget in
        let stored_variance :=
          match Reconciler.variance data with Some v => v | None => NInt 0 end in
        let issues :=
          if Qltb (NFloat (1 # 100))
                  (num_abs (num_sub expected_variance stored_variance))
          then issues ++ [fstr [bu_name; ": variance calculation mismatch"]]
          else issues in
        match Reconciler.variance_pct data with
        | None => Ok issues
        | Some stored_pct =>
            ratio <- py_div expected_variance budget ;;
            let expected_pct := num_mul ratio (NInt 100) in
            if Qltb (NFloat (1 # 10))
                    (num_abs (num_sub expected_pct stored_pct))
            then Ok (issues ++ [fstr [bu_name; ": variance percentage mismatch"]])
            else Ok issues
        end
  end.

Definition validate_reconciliation (reconciliation : Reconciler.results_t)
  : result validation_result :=
  issues <- for_each check_reconciled (Reconciler.units reconciliation) [] ;;
  Ok (_result (match issues with [] => PASS | _ => FAIL end) issues).

End Validators.

(** ** Vocabulary of the statements *)

Module Spec.

Import InvoiceProcessor.

(** The mathematical sum of a list of rationals. *)
Definition Qsum (l : list Q) : Q := fold_right Qplus 0 l.

(** The amount of a record, when the field is there and holds a number. *)
Definition amount_of (r : record) : option num :=
  match field r "amount" with
  | Some v => num_of v
  | None => None
  end.

Definition amount (r : record) : num :=
  match amount_of r with Some x => x | None => NInt 0 end.

(** Every cost record of every account has a numeric amount. *)
Definition well_formed (all_costs : list (string * account_data)) : Prop :=
  forall item r,
    In item all_costs -> In r (costs (snd item)) -> amount_of r <> None.

(** An [int], as opposed to a [float]. *)
Definition is_int (x : num) : Prop := exists z, x = NInt z.

(** Every amount is an [int] (or a [bool]): sums of such amounts are
    exact. *)
Definition int_record (r : record) : Prop :=
  exists z, amount_of r = Some (NInt z).

Definition int_amounts (all_costs : list (string * account_data)) : Prop :=
  forall item r,
    In item all_costs -> In r (costs (snd item)) -> int_record r.

(** The amounts of an account's records added as [sum] adds them: from
    left to right, each float addition rounded. *)
Definition account_amounts (item : string * account_data) : num :=
  py_sum (map amount (costs (snd item))).

(** The same sums of the accounts mapped to business unit [bu], added from
    left to right in their turn. *)
Definition unit_amounts (bu : string) (all_costs : list (string * account_data))
  : num :=
  py_sum
    (map account_amounts
         (filter (fun item => String.eqb (business_unit (snd item)) bu)
                 all_costs)).

(** All cost records of all accounts, and the mathematical sum of their
    amounts. *)
Definition all_records (all_costs : list (string * account_data))
  : list record :=
  flat_map (fun item => costs (snd item)) all_costs.

Definition all_amounts (all_costs : list (string * account_data)) : Q :=
  Qsum (map (fun r => val (amount r)) (all_records all_costs)).

(** The invariant of a single aggregate that holds whatever the amounts:
    the total is built by the very additions that sum the account
    totals. *)
Definition consistent (unit : bu_aggregate) : Prop :=
  total unit = py_sum (map acc_total (accounts unit)).

(** On int amounts the total and the service subtotals are ints, and the
    subtotals add up to the total. *)
Definition int_aggregate (unit : bu_aggregate) : Prop :=
  is_int (total unit)
  /\ Forall (fun kv => is_int (snd kv)) (services unit)
  /\ val (total unit) == Qsum (map val (values (services unit))).

(** The finding of [validate_aggregation] on the service subtotals of an
    aggregate. *)
Definition service_mismatch (unit : bu_aggregate) : bool :=
  Qltb (NFloat (1 # 100))
       (num_abs (num_sub (py_sum (values (services unit))) (total unit))).

(** A list of (key, amount) items in descending order of amount. *)
Definition descending {K} (l : list (K * num)) : Prop :=
  StronglySorted (fun x y : K * num => snd y <= snd x) l.



(** The variance and the percentage that [reconcile] computes for a unit,
    before it rounds them for the record. *)
Definition computed_variance (actual target : num) : num :=
  num_sub actual target.

Definition computed_pct (actual target : num) : num :=
  match py_div (computed_variance actual target) target with
  | Ok ratio => num_mul ratio (NInt 100)
  | Raise _ => NInt 0
  end.

(** The record that one iteration of the loop of [reconcile] stores under
    [bu_name]. *)
Definition stored_record (budgets : Reconciler.budgets_t) (bu_name : string)
           (bu_costs : bu_aggregate) : Reconciler.unit_record :=
  let budget_target := Reconciler.budget_target_of budgets bu_name in
  let alert_threshold := Reconciler.alert_threshold_of budgets bu_name in
  let variance := computed_variance (total bu_costs) budget_target in
  let variance_pct := computed_pct (total bu_costs) budget_target in
  if Qeq_bool budget_target 0 then
    {| Reconciler.actual := total bu_costs;
       Reconciler.budget := None;
       Reconciler.variance := None;
       Reconciler.variance_pct := None;
       Reconciler.status := Reconciler.NO_BUDGET;
       Reconciler.alert_threshold_pct := None;
       Reconciler.top_cost_drivers := None;
       Reconciler.unit_accounts := None;
       Reconciler.message :=
         Some "No budget configured for this business unit" |}
  else
    {| Reconciler.actual := py_round (total bu_costs) 2;
       Reconciler.budget := Some budget_target;
       Reconciler.variance := Some (py_round variance 2);
       Reconciler.variance_pct := Some (py_round variance_pct 1);
       Reconciler.status :=
         if Qltb alert_threshold variance_pct then Reconciler.OVERRUN
         else if Qltb variance_pct (num_neg alert_threshold)
              then Reconciler.UNDERRUN
         else Reconciler.ON_TRACK;
       Reconciler.alert_threshold_pct := Some alert_threshold;
       Reconciler.top_cost_drivers :=
         Some (map Reconciler.to_driver
                   (firstn 5 (Reconciler.sorted_desc (services bu_costs))));
       Reconciler.unit_accounts := Some (accounts bu_costs);
       Reconciler.message := None |}.

(** The effect of one iteration on [results["units"]]. *)
Definition store (budgets : Reconciler.budgets_t)
           (us : list (string * Reconciler.unit_record))
           (item : string * bu_aggregate)
  : list (string * Reconciler.unit_record) :=
  setitem String.eqb us (fst item)
          (stored_record budgets (fst item) (snd item)).

(** The total recorded for business unit [bu], the int zero when it has no
    aggregate yet. *)
Definition unit_total (aggregated : list (string * bu_aggregate)) (bu : string)
  : num :=
  total (get_default String.eqb aggregated bu empty_aggregate).

(** *** Cost records as the validator sees them *)

(** A record the validator handles without raising: the amount, when
    present, is a number and the date, when present, is a string. *)
Definition typed_record (r : record) : Prop :=
  match field r "amount" with
  | Some v => num_of v <> None
  | None => True
  end
  /\ match field r "date" with
     | Some (VStr _) | None => True
     | Some _ => False
     end.

(** A record on which the per-record checks find nothing: a non-negative
    numeric amount, a date that parses, a service. *)
Definition clean_record (r : record) : bool :=
  match field r "amount" with
  | Some v => match num_of v with Some q => Qle_bool 0 q | None => false end
  | None => false
  end
  && match field r "date" with
     | Some (VStr s) => Validators.strptime_ymd s
     | _ => false
     end
  && match field r "service" with Some _ => true | None => false end.

(** Two records with the same date, service and amount. *)
Definition same_triple (r r' : record) : Prop :=
  field r "date" = field r' "date"
  /\ field r "service" = field r' "service"
  /\ field r "amount" = field r' "amount".

(** The keys of [ks] that the duplicate loop reports, having seen [seen]
    before: each key that occurred earlier. *)
Fixpoint repeats (seen : list string) (ks : list string) : list string :=
  match ks with
  | [] => []
  | k :: ks' =>
      (if existsb (String.eqb k) seen then [k] else [])
        ++ repeats (Validators.set_add seen k) ks'
  end.

(** Two dicts with the same bindings, in any order of insertion. *)
Definition same_dict (r r' : record) : Prop :=
  NoDup (keys r) /\ Permutation r r'.

End Spec.

(** ** Sample data *)

Module Examples.

Import InvoiceProcessor.

Definition ec2_jan15 : record :=
  [("date", VStr "2025-01-15"); ("service", VStr "EC2"); ("amount", VInt 7000)].

Definition s3_jan16 : record :=
  [("service", VStr "S3"); ("amount", VFloat 2999.5); ("date", VStr "2025-01-16")].

Definition tax_jan16 : record :=
  [("date", VStr "2025-01-16"); ("service", VStr "Tax"); ("amount", VFloat 0.5)].

(** The same record, its fields inserted in the opposite order. *)
Definition ec2_jan15_reversed : record :=
  [("amount", VInt 7000); ("service", VStr "EC2"); ("date", VStr "2025-01-15")].

Definition rds_jan16 : record :=
  [("date", VStr "2025-01-16"); ("service", VStr "RDS"); ("amount", VInt 5200)].

(** Two accounts of "Engineering" and one of "Sandbox". *)
Definition all_costs : list (string * account_data) :=
  [("111111111111",
    {| name := "eng-prod"; business_unit := "Engineering";
       costs := [ec2_jan15] |});
   ("222222222222",
    {| name := "sandbox"; business_unit := "Sandbox"; costs := [rds_jan16] |});
   ("333333333333",
    {| name := "eng-data"; business_unit := "Engineering";
       costs := [s3_jan16; tax_jan16] |})].

(** What the aggregation returns on them. *)
Definition aggregated : list (string * bu_aggregate) :=
  Eval vm_compute in
    match _aggregate_by_business_unit all_costs with
    | Ok aggregated => aggregated
    | Raise _ => []
    end.

Definition engineering : bu_aggregate :=
  Eval vm_compute in get_default String.eqb aggregated "Engineering" empty_aggregate.

Definition sandbox : bu_aggregate :=
  Eval vm_compute in get_default String.eqb aggregated "Sandbox" empty_aggregate.

(** A unit with six services, two pairs of which tie. *)
Definition six_services : bu_aggregate :=
  {| total := NInt 28;
     accounts := [];
     services := [(VStr "Lambda", NInt 5); (VStr "EC2", NInt 7);
                  (VStr "S3", NInt 5); (VStr "SNS", NInt 1);
                  (VStr "RDS", NInt 7); (VStr "SQS", NInt 3)] |}.

(** One large amount and two small ones, all floats: 1e16, 1.0 and 1.0. *)
Definition ec2_large : record :=
  [("date", VStr "2025-01-15"); ("service", VStr "EC2");
   ("amount", VFloat 10000000000000000)].

Definition s3_small : record :=
  [("date", VStr "2025-01-16"); ("service", VStr "S3"); ("amount", VFloat 1)].

Definition s3_small_too : record :=
  [("date", VStr "2025-01-17"); ("service", VStr "S3"); ("amount", VFloat 1)].


(** Records with upstream defects. *)
Definition non_numeric_amount : record :=
  [("date", VStr "2025-01-15"); ("service", VStr "EC2"); ("amount", VStr "12.50")].

Definition missing_amount : record :=
  [("date", VStr "2025-01-15"); ("service", VStr "EC2")].

Definition bad_date : record :=
  [("date", VStr "15/01/2025"); ("amount", VInt 3)].

Definition payer (costs : list record) : list (string * account_data) :=
  [("123456789012",
    {| name := "payer"; business_unit := "Engineering"; costs := costs |})].

(** The records given to the validator below hold no float, so the textual
    form of a float does not matter there. *)
Definition no_floats : Q -> string := fun _ => "0.0".

(** A unit that spent 107 against a budget of 100 with a threshold of 7
    per cent, one that spent 1.004 against a budget of 1, and one that spent
    487.825 against a budget of 1000. *)
Definition spent (amount : num) : bu_aggregate :=
  {| total := amount; accounts := []; services := [] |}.

Definition tight_budgets : Reconciler.budgets_t :=
  [("Seven",
    [("monthly_target", NInt 100); ("alert_threshold_pct", NInt 7)]);
   ("Tiny", [("monthly_target", NInt 1)]);
   ("Half", [("monthly_target", NInt 1000)])].

Definition budgets : Reconciler.budgets_t :=
  [("Engineering",
    [("monthly_target", NInt 8000); ("alert_threshold_pct", NInt 10)]);
   ("Sandbox", [("monthly_target", NInt 5000)])].

End Examples.

(** ** scripts/report_generator.py *)

Module ReportGenerator.

Import InvoiceProcessor.

(** [max(items, key=lambda x: x[1])] over [best] and [items]: [max] keeps the
    first item met and replaces it only by an item of a strictly larger
    amount. *)
Fixpoint max_by_amount {K} (best : K * num) (items : list (K * num))
  : K * num :=
  match items with
  | [] => best
  | x :: items' =>
      max_by_amount (if Qltb (snd best) (snd x) then x else best) items'
  end.

(** [max(bu_data.get("services", {"N/A": 0}).items(), key=lambda x: x[1])]
    in [_generate_html]. The aggregation always sets "services", so the
    default dict never applies; [None] stands for the [ValueError] that [max]
    raises on an empty sequence. *)
Definition top_service (bu_data : bu_aggregate) : option (value * num) :=
  match services bu_data with
  | [] => None
  | x :: items => Some (max_by_amount x items)
  end.

(** [sorted(aggregated.items(), key=lambda x: x[1]["total"], reverse=True)]
    in [_generate_html]. *)
Definition by_total_desc (aggregated : list (string * bu_aggregate))
  : list (string * bu_aggregate) :=
  map fst
      (Reconciler.sorted_desc
         (map (fun item => (item, total (snd item))) aggregated)).

(** What one row of the table "Spend by Business Unit" shows. *)
Record html_row : Type := {
  row_unit : string;
  row_total : num;
  row_accounts : nat;
  row_top_service : value * num
}.

(** The loop over the sorted business units; [None] when [max] raises. *)
Fixpoint html_rows_of (units : list (string * bu_aggregate))
  : option (list html_row) :=
  match units with
  | [] => Some []
  | (bu_name, bu_data) :: rest =>
      match top_service bu_data with
      | None => None
      | Some top =>
          option_map
            (cons {| row_unit := bu_name;
                     row_total := total bu_data;
                     row_accounts := List.length (accounts bu_data);
                     row_top_service := top |})
            (html_rows_of rest)
      end
  end.

Definition html_rows (aggregated : list (string * bu_aggregate))
  : option (list html_row) :=
  html_rows_of (by_total_desc aggregated).

(** One detail row of [_generate_csv], before the writer turns the cells
    into text. *)
Definition csv_row (month account_id : string) (data : account_data)
           (cost : record) : list value :=
  [VStr month;
   VStr account_id;
   VStr (name data);
   VStr (business_unit data);
   get_default String.eqb cost "date" (VStr EmptyString);
   get_default String.eqb cost "service" (VStr EmptyString);
   get_default String.eqb cost "amount" (VInt 0);
   get_default String.eqb cost "currency" (VStr "USD")].

(** The detail rows below the header: one per cost record, account by
    account. *)
Definition csv_rows (month : string) (all_costs : list (string * account_data))
  : list (list value) :=
  flat_map (fun item => map (csv_row month (fst item) (snd item))
                            (costs (snd item)))
           all_costs.

(** The rows of the summary file below its header: business unit, total
    formatted with [:.2f], number of accounts. *)
Definition csv_summary_rows (format_2f : Q -> string)
           (aggregated : list (string * bu_aggregate))
  : list (string * string * nat) :=
  map (fun item => (fst item, format_2f (total (snd item)),
                    List.length (accounts (snd item))))
      aggregated.

End ReportGenerator.

(** ** scripts/cost_extractor.py

    The Cost Explorer client is a parameter: a call is a function of the
    page token it is given. The responses have the shape the API documents;
    an amount arrives as a string and [float] of it is a parameter, [None]
    where it raises [ValueError]. *)

Module CostExtractor.

Inductive failure : Type := IndexError | ValueError.

Inductive outcome (A : Type) : Type :=
| Returned (a : A)
| Raised (f : failure).

Arguments Returned {A} a.
Arguments Raised {A} f.

Definition and_then {A B} (m : outcome A) (k : A -> outcome B) : outcome B :=
  match m with
  | Returned a => k a
  | Raised f => Raised f
  end.

(** [for x in l: st = body st x], stopping at the first exception. *)
Fixpoint for_all {A S} (body : S -> A -> outcome S) (l : list A) (st : S)
  : outcome S :=
  match l with
  | [] => Returned st
  | x :: l' => and_then (body st x) (for_all body l')
  end.

(** One of ["UnblendedCost"], ["BlendedCost"]. *)
Record metric : Type := { Amount : string; Unit : option string }.

(** One element of ["Groups"]. *)
Record group : Type := {
  Keys : list string;
  UnblendedCost : metric;
  BlendedCost : metric
}.

(** One element of ["ResultsByTime"]; [Total] is
    [period["Total"]["UnblendedCost"]] when the period has a total. *)
Record period : Type := {
  Start : string;
  Groups : option (list group);
  Total : option metric
}.

Record response : Type := {
  ResultsByTime : list period;
  NextPageToken : option string
}.

(** The dust threshold: the float literal [0.001]. *)
Definition dust : num := NFloat (1 # 1000).

Section Normalise.

(** The number a text denotes, when it denotes one: [float(s)] is the
    float nearest to it. *)
Variable float_of_string : string -> option Q.

Definition to_float (s : string) : outcome num :=
  match float_of_string s with
  | Some q => Returned (NFloat q)
  | None => Raised ValueError
  end.

(** Body of the loop [for group in period.get("Groups", [])]. *)
Definition normalise_group (date payer_id : string) (records : list record)
           (g : group) : outcome (list record) :=
  and_then (match Keys g with
            | [] => Raised IndexError
            | service :: _ => Returned service
            end) (fun service =>
  and_then (to_float (Amount (UnblendedCost g))) (fun unblended =>
  and_then (to_float (Amount (BlendedCost g))) (fun blended =>
  if Qltb dust unblended then
    Returned
      (records
         ++ [[("date", VStr date);
              ("payer_account", VStr payer_id);
              ("service", VStr service);
              ("amount", value_of (py_round unblended 4));
              ("blended_amount", value_of (py_round blended 4));
              ("currency",
               VStr (match Unit (UnblendedCost g) with
                     | Some u => u
                     | None => "USD"
                     end))]])
  else Returned records))).

(** Body of the loop [for period in raw_results]. *)
Definition normalise_period (payer_id : string) (records : list record)
           (p : period) : outcome (list record) :=
  let date := Start p in
  let groups := match Groups p with Some gs => gs | None => [] end in
  and_then (for_all (normalise_group date payer_id) groups records)
           (fun records =>
  match Total p, groups with
  | Some total_metric, [] =>
      and_then (to_float (Amount total_metric)) (fun total =>
      if Qltb dust total then
        Returned
          (records
             ++ [[("date", VStr date);
                  ("payer_account", VStr payer_id);
                  ("service", VStr "Total");
                  ("amount", value_of (py_round total 4));
                  ("currency", VStr "USD")]])
      else Returned records)
  | _, _ => Returned records
  end).

Definition _normalise_results (raw_results : list period) (payer_id : string)
  : outcome (list record) :=
  for_all (normalise_period payer_id) raw_results [].

End Normalise.

(** [self._request_count], and the number of [time.sleep(1)] calls made. *)
Record limiter : Type := { request_count : nat; sleeps : nat }.

Definition _throttle (st : limiter) : limiter :=
  let count := S (request_count st) in
  {| request_count := count;
     sleeps := if (count mod 5 =? 0)%nat then S (sleeps st) else sleeps st |}.

Section Query.

(** [self.ce_client.get_cost_and_usage] applied to [params], as a function
    of [params.get("NextPageToken")]. *)
Variable get_cost_and_usage : option string -> response.

(** The loop [while True] of [_query_cost_explorer], run for at most [fuel]
    iterations; [None] when they do not suffice. *)
Fixpoint query_pages (fuel : nat) (st : limiter) (token : option string)
         (results : list period) : option (list period * limiter) :=
  match fuel with
  | O => None
  | S fuel' =>
      let st := _throttle st in
      let response := get_cost_and_usage token in
      let results := results ++ ResultsByTime response in
      match NextPageToken response with
      | Some next => query_pages fuel' st (Some next) results
      | None => Some (results, st)
      end
  end.

Definition _query_cost_explorer (fuel : nat) (st : limiter)
  : option (list period * limiter) :=
  query_pages fuel st None [].

End Query.

End CostExtractor.

(** ** utils/account_mapper.py

    The entries of [payer_accounts] hold strings; a field is [None] when the
    entry does not have the key. *)

Module AccountMapper.

Record account : Type := {
  id : option string;
  name : option string;
  business_unit : option string;
  cost_centre : option string;
  owner : option string;
  environment : option string
}.

(** One value of [self._index]. *)
Record metadata : Type := {
  meta_name : string;
  meta_business_unit : string;
  meta_cost_centre : string;
  meta_owner : string;
  meta_environment : string
}.

(** [account.get(key, dflt)] *)
Definition or_default (field : option string) (dflt : string) : string :=
  match field with Some s => s | None => dflt end.

Definition metadata_of (a : account) : metadata :=
  {| meta_name := or_default (name a) "Unknown";
     meta_business_unit := or_default (business_unit a) "Unassigned";
     meta_cost_centre := or_default (cost_centre a) EmptyString;
     meta_owner := or_default (owner a) EmptyString;
     meta_environment := or_default (environment a) EmptyString |}.

(** Body of the loop of [_build_index]: [account["id"]] raises [KeyError]. *)
Definition index_account (index : list (string * metadata)) (a : account)
  : result (list (string * metadata)) :=
  match id a with
  | None => Raise KeyError
  | Some account_id =>
      Ok (setitem String.eqb index account_id (metadata_of a))
  end.

Definition _build_index (payer_accounts : list account)
  : result (list (string * metadata)) :=
  for_each index_account payer_accounts [].

Definition get_business_unit (index : list (string * metadata))
           (account_id : string) : string :=
  match get String.eqb index account_id with
  | Some meta => meta_business_unit meta
  | None => "Unassigned"
  end.

Definition default_metadata : metadata :=
  {| meta_name := "Unknown";
     meta_business_unit := "Unassigned";
     meta_cost_centre := EmptyString;
     meta_owner := EmptyString;
     meta_environment := EmptyString |}.

Definition get_metadata (index : list (string * metadata))
           (account_id : string) : metadata :=
  get_default String.eqb index account_id default_metadata.

Definition get_unmapped_accounts (index : list (string * metadata))
           (account_ids : list string) : list string :=
  filter (fun aid => negb (mem String.eqb index aid)) account_ids.

(** [not account.get(key)]: the key is absent or the string is empty. *)
Definition missing (field : option string) : bool :=
  match field with
  | None => true
  | Some s => String.eqb s EmptyString
  end.

Record mapping_report : Type := {
  valid : bool;
  total_accounts : nat;
  mapping_issues : list string
}.

(** Body of the loop of [validate_mappings]: [account['id']] is read only
    when an issue is reported. *)
Definition check_account (issues : list string) (a : account)
  : result (list string) :=
  issues <-
    (if missing (business_unit a) then
       account_id <- match id a with Some i => Ok i | None => Raise KeyError end ;;
       Ok (issues ++ [String.concat EmptyString
                        ["Account "; account_id; ": missing business_unit"]])
     else Ok issues) ;;
  if missing (cost_centre a) then
    account_id <- match id a with Some i => Ok i | None => Raise KeyError end ;;
    Ok (issues ++ [String.concat EmptyString
                     ["Account "; account_id; ": missing cost_centre"]])
  else Ok issues.

Definition validate_mappings (payer_accounts : list account)
  : result mapping_report :=
  issues <- for_each check_account payer_accounts [] ;;
  Ok {| valid := (List.length issues =? 0)%nat;
        total_accounts := List.length payer_accounts;
        mapping_issues := issues |}.

End AccountMapper.

(** ** scripts/invoice_processor.py: the extraction loop of [process]

    The extractor is a parameter: what [extract_monthly_costs] returns or
    raises for a payer account id. *)

Module Process.

Import InvoiceProcessor.

Section Extraction.

Variable extract_monthly_costs : string -> result (list record).

(** Body of the loop [for payer in payer_accounts]. The log line reads
    [payer['name']] before the extraction. *)
Definition extract_payer (all_costs : list (string * account_data))
           (payer : AccountMapper.account)
  : result (list (string * account_data)) :=
  account_id <- match AccountMapper.id payer with
                | Some i => Ok i
                | None => Raise KeyError
                end ;;
  payer_name <- match AccountMapper.name payer with
                | Some n => Ok n
                | None => Raise KeyError
                end ;;
  costs <- extract_monthly_costs account_id ;;
  Ok (setitem String.eqb all_costs account_id
        {| name := payer_name;
           business_unit :=
             AccountMapper.or_default (AccountMapper.business_unit payer)
                                      "Unassigned";
           costs := costs |}).

Definition extract_all (payer_accounts : list AccountMapper.account)
  : result (list (string * account_data)) :=
  for_each extract_payer payer_accounts [].

End Extraction.

End Process.

(** ** utils/validators.py: [get_validation_summary] *)

Module ValidationSummary.

Import Validators.

Record summary : Type := {
  total_checks : nat;
  passed : nat;
  warnings : nat;
  failed : nat;
  checks : list log_entry
}.

Definition has_status (v : verdict) (entry : log_entry) : bool :=
  match v, log_status entry with
  | PASS, PASS | WARN, WARN | FAIL, FAIL => true
  | _, _ => false
  end.

(** [sum(1 for v in self.validation_log if v["status"] == status)] *)
Definition count_status (v : verdict) (validation_log : list log_entry) : nat :=
  List.length (filter (has_status v) validation_log).

Definition get_validation_summary (validation_log : list log_entry) : summary :=
  {| total_checks := List.length validation_log;
     passed := count_status PASS validation_log;
     warnings := count_status WARN validation_log;
     failed := count_status FAIL validation_log;
     checks := validation_log |}.

End ValidationSummary.

(** ** Further vocabulary *)

Module Notions.

Import InvoiceProcessor.

(** The elements of [l] not in [seen], each at its first occurrence. *)
Fixpoint unseen (seen l : list string) : list string :=
  match l with
  | [] => []
  | x :: l' =>
      if existsb (String.eqb x) seen then unseen seen l'
      else x :: unseen (seen ++ [x]) l'
  end.

(** The distinct elements of [l] in the order of their first occurrence. *)
Definition first_occurrences (l : list string) : list string := unseen [] l.

(** The accounts of [all_costs] mapped to business unit [bu], in order. *)
Definition accounts_of (bu : string) (all_costs : list (string * account_data))
  : list (string * account_data) :=
  filter (fun item => String.eqb (business_unit (snd item)) bu) all_costs.

(** Entry [e] of an accounts list is the entry of account [item]: its total
    is the [sum] of the account's record amounts. *)
Definition entry_of (e : account_entry) (item : string * account_data) : Prop :=
  id e = fst item
  /\ acc_name e = name (snd item)
  /\ acc_total e = Spec.account_amounts item.

(** The service a record is booked under. *)
Definition service_of (r : record) : value :=
  get_default String.eqb r "service" (VStr "Other").

(** The amounts of the records of [costs] booked under a service equal to
    [s], added from left to right from the int [0]. *)
Definition service_amounts (s : value) (costs : list record) : num :=
  py_sum (map Spec.amount
              (filter (fun r => py_eqb (service_of r) s) costs)).

(** All cost records of the accounts mapped to [bu]. *)
Definition unit_records (bu : string) (all_costs : list (string * account_data))
  : list record :=
  flat_map (fun item => costs (snd item)) (accounts_of bu all_costs).

(** What [validate_aggregation] reports on an aggregate of the aggregation:
    a total that is not positive, and service subtotals that do not add up
    to the total within 0.01. *)
Definition unit_findings (format_2f : Q -> string)
           (item : string * bu_aggregate) : list string :=
  (if Qle_bool (total (snd item)) 0
   then [Validators.fstr [fst item; ": zero or negative total"]] else [])
  ++ (if Spec.service_mismatch (snd item)
      then [Validators.fstr
              [fst item; ": service sum (";
               format_2f (py_sum (values (services (snd item))));
               ") != total ("; format_2f (total (snd item)); ")"]]
      else []).

(** The status [reconcile] gives the business unit of [item]. *)
Definition status_under (budgets : Reconciler.budgets_t)
           (item : string * bu_aggregate) : Reconciler.status_t :=
  Reconciler.status (Spec.stored_record budgets (fst item) (snd item)).

Definition same_status (s t : Reconciler.status_t) : bool :=
  match s, t with
  | Reconciler.ON_TRACK, Reconciler.ON_TRACK
  | Reconciler.OVERRUN, Reconciler.OVERRUN
  | Reconciler.UNDERRUN, Reconciler.UNDERRUN
  | Reconciler.NO_BUDGET, Reconciler.NO_BUDGET => true
  | _, _ => false
  end.

(** The business units of the input that get status [s]. *)
Definition units_with (budgets : Reconciler.budgets_t) (s : Reconciler.status_t)
           (aggregated : list (string * bu_aggregate))
  : list (string * bu_aggregate) :=
  filter (fun item => same_status (status_under budgets item) s) aggregated.

(** Actual spend minus budget target, as [reconcile] computes it. *)
Definition variance_of (budgets : Reconciler.budgets_t)
           (item : string * bu_aggregate) : num :=
  num_sub (total (snd item)) (Reconciler.budget_target_of budgets (fst item)).

(** The records of [units] with status [s], and the variance a record
    stores (zero when it stores none). *)
Definition records_with (s : Reconciler.status_t)
           (units : list (string * Reconciler.unit_record))
  : list (string * Reconciler.unit_record) :=
  filter (fun kv => same_status (Reconciler.status (snd kv)) s) units.

Definition stored_variance (kv : string * Reconciler.unit_record) : num :=
  match Reconciler.variance (snd kv) with Some v => v | None => NInt 0 end.

(** A record as [_normalise_results] builds them for [payer_id], for a
    period starting on one of [dates]. *)
Definition emitted (payer_id : string) (dates : list string) (r : record)
  : Prop :=
  exists date service a,
    In date dates
    /\ field r "date" = Some (VStr date)
    /\ field r "payer_account" = Some (VStr payer_id)
    /\ field r "service" = Some (VStr service)
    /\ field r "amount" = Some (VFloat a)
    /\ 1 # 1000 <= a
    /\ CostExtractor.dust <= NFloat a
    /\ Spec.clean_record r = Validators.strptime_ymd date.

(** The responses the API gives from [token] on, each for the token of the
    one before, up to and including the first without a next-page token. *)
Inductive pages_from (get_cost_and_usage : option string -> CostExtractor.response)
  : option string -> list CostExtractor.response -> Prop :=
| last_page (token : option string) :
    CostExtractor.NextPageToken (get_cost_and_usage token) = None ->
    pages_from get_cost_and_usage token [get_cost_and_usage token]
| next_page (token : option string) (next : string)
            (rs : list CostExtractor.response) :
    CostExtractor.NextPageToken (get_cost_and_usage token) = Some next ->
    pages_from get_cost_and_usage (Some next) rs ->
    pages_from get_cost_and_usage token (get_cost_and_usage token :: rs).

(** Account [a] is configured under id [i]. *)
Definition has_id (i : string) (a : AccountMapper.account) : bool :=
  match AccountMapper.id a with
  | Some j => String.eqb j i
  | None => false
  end.

(** The last account of [accounts] configured under id [i]. *)
Fixpoint last_with_id (i : string) (accounts : list AccountMapper.account)
  : option AccountMapper.account :=
  match accounts with
  | [] => None
  | a :: accounts' =>
      match last_with_id i accounts' with
      | Some b => Some b
      | None => if has_id i a then Some a else None
      end
  end.

(** The ids the accounts are configured under, in order. *)
Definition ids_of (accounts : list AccountMapper.account) : list string :=
  flat_map (fun a => match AccountMapper.id a with
                     | Some i => [i]
                     | None => []
                     end) accounts.

(** Entry [c] of [all_costs] and entry [m] of the mapper's index describe
    the same account, whose costs are what the extractor returns for it. *)
Definition same_account (extract_monthly_costs : string -> result (list record))
           (c : string * account_data) (m : string * AccountMapper.metadata)
  : Prop :=
  fst c = fst m
  /\ business_unit (snd c) = AccountMapper.meta_business_unit (snd m)
  /\ name (snd c) = AccountMapper.meta_name (snd m)
  /\ extract_monthly_costs (fst c) = Ok (costs (snd c)).

End Notions.

(** * Properties *)

(** ** Binary64 rounding *)


Lemma pow2_pos (k : Z) : 0 < pow2 k.
Proof. apply Qpower_0_lt. reflexivity. Qed.

Lemma pow2_plus (a b : Z) : pow2 (a + b) == pow2 a * pow2 b.
Proof. apply Qpower_plus. discriminate. Qed.

Lemma pow2_le (a b : Z) : (a <= b)%Z -> pow2 a <= pow2 b.
Proof. intros H. apply Qpower_le_compat_l; [exact H|discriminate]. Qed.

Lemma pow2_lt (a b : Z) : (a < b)%Z -> pow2 a < pow2 b.
Proof. intros H. apply Qpower_lt_compat_l; [exact H|reflexivity]. Qed.

Lemma pow2_lt_inv (a b : Z) : pow2 a < pow2 b -> (a < b)%Z.
Proof. intros H. apply (Qpower_lt_compat_l_inv 2); [exact H|reflexivity]. Qed.

Lemma pow2_le_inv (a b : Z) : pow2 a <= pow2 b -> (a <= b)%Z.
Proof. intros H. apply (Qpower_le_compat_l_inv 2); [exact H|reflexivity]. Qed.

Lemma pow2_Z (k : Z) : (0 <= k)%Z -> pow2 k == inject_Z (2 ^ k).
Proof. intros H. unfold pow2. now rewrite Zpower_Qpower. Qed.

Lemma pow2_succ (k : Z) : pow2 (k + 1) == 2 * pow2 k.
Proof. rewrite pow2_plus. change (pow2 1) with 2. ring. Qed.

Lemma pow2_minus (a b : Z) : pow2 (a - b) * pow2 b == pow2 a.
Proof. rewrite <- pow2_plus. now replace (a - b + b)%Z with a by lia. Qed.

Lemma ilog2_spec (x : Q) :
  0 < x -> pow2 (ilog2 x) <= x /\ x < pow2 (ilog2 x + 1).
Proof.
  intros Hx. destruct x as [n d]. unfold ilog2. cbn [Qnum Qden].
  assert (Hn : (0 < n)%Z) by (unfold Qlt in Hx; cbn in Hx; lia).
  pose proof (Z.log2_spec n Hn) as [Hn1 Hn2].
  pose proof (Z.log2_spec (Zpos d) (Pos2Z.is_pos d)) as [Hd1 Hd2].
  pose proof (Z.log2_nonneg n) as Hln.
  pose proof (Z.log2_nonneg (Zpos d)) as Hld.
  set (ln := Z.log2 n) in *. set (ld := Z.log2 (Zpos d)) in *.
  assert (HA : pow2 ln <= inject_Z n /\ inject_Z n < 2 * pow2 ln).
  { rewrite <- pow2_succ, !pow2_Z by lia. rewrite <- Zle_Qle, <- Zlt_Qlt.
    split; [exact Hn1|]. now rewrite <- Z.add_1_r in Hn2. }
  assert (HB : pow2 ld <= inject_Z (Zpos d) /\ inject_Z (Zpos d) < 2 * pow2 ld).
  { rewrite <- pow2_succ, !pow2_Z by lia. rewrite <- Zle_Qle, <- Zlt_Qlt.
    split; [exact Hd1|]. now rewrite <- Z.add_1_r in Hd2. }
  assert (Hx' : (n # d) * inject_Z (Zpos d) == inject_Z n).
  { unfold Qeq, Qmult, inject_Z. cbn. lia. }
  pose proof (pow2_minus ln ld) as Hk. pose proof (pow2_pos ld) as Hpd.
  pose proof (pow2_pos ln) as Hpn. pose proof (pow2_pos (ln - ld)) as Hpk.
  set (x := n # d) in *. set (D := inject_Z (Zpos d)) in *.
  set (N := inject_Z n) in *. set (A := pow2 ln) in *. set (B := pow2 ld) in *.
  assert (Hup : x < 2 * pow2 (ln - ld)).
  { set (K := pow2 (ln - ld)) in *. clearbody x D N A B K. nra. }
  assert (Hlo : pow2 (ln - ld) < 2 * x).
  { set (K := pow2 (ln - ld)) in *. clearbody x D N A B K. nra. }
  destruct (Qle_bool (pow2 (ln - ld)) x) eqn:E.
  - apply Qle_bool_iff in E. split; [exact E|]. now rewrite pow2_succ.
  - assert (Hlt : x < pow2 (ln - ld)).
    { apply Qnot_le_lt. intros H. apply Qle_bool_iff in H. congruence. }
    replace (ln - ld - 1 + 1)%Z with (ln - ld)%Z by lia.
    split; [|exact Hlt].
    pose proof (pow2_succ (ln - ld - 1)) as Hs.
    replace (ln - ld - 1 + 1)%Z with (ln - ld)%Z in Hs by lia.
    set (K := pow2 (ln - ld)) in *. set (K1 := pow2 (ln - ld - 1)) in *.
    clearbody x K K1. lra.
Qed.

Lemma ilog2_unique (x : Q) (k : Z) :
  pow2 k <= x -> x < pow2 (k + 1) -> ilog2 x = k.
Proof.
  intros Hlo Hhi.
  assert (Hx : 0 < x) by (pose proof (pow2_pos k); lra).
  destruct (ilog2_spec x Hx) as [Hlo' Hhi'].
  assert (H1 : (ilog2 x < k + 1)%Z) by (apply pow2_lt_inv; lra).
  assert (H2 : (k < ilog2 x + 1)%Z) by (apply pow2_lt_inv; lra).
  lia.
Qed.

Lemma ilog2_mono (x y : Q) : 0 < x -> x <= y -> (ilog2 x <= ilog2 y)%Z.
Proof.
  intros Hx Hxy.
  destruct (ilog2_spec x Hx) as [Hlo _].
  destruct (ilog2_spec y) as [_ Hhi]; [lra|].
  assert (H : (ilog2 x < ilog2 y + 1)%Z) by (apply pow2_lt_inv; lra).
  lia.
Qed.

Lemma ilog2_comp (x y : Q) : 0 < x -> x == y -> ilog2 x = ilog2 y.
Proof.
  intros Hx Hxy. destruct (ilog2_spec x Hx) as [Hlo Hhi].
  symmetry. apply ilog2_unique; lra.
Qed.

(** ** Rounding to the nearest integer *)

Lemma round_half_even_bounds (x : Q) :
  (Qfloor x <= round_half_even x <= Qfloor x + 1)%Z.
Proof.
  unfold round_half_even.
  destruct (Qcompare _ _); [destruct (Z.even _)| |]; lia.
Qed.


Lemma round_half_even_comp (x y : Q) :
  x == y -> round_half_even x = round_half_even y.
Proof.
  intros H. unfold round_half_even. rewrite (Qfloor_comp x y H).
  assert (Hc : (x - inject_Z (Qfloor y) ?= 1 # 2)
               = (y - inject_Z (Qfloor y) ?= 1 # 2)).
  { apply Qcompare_comp; [rewrite H; reflexivity|reflexivity]. }
  now rewrite Hc.
Qed.

Lemma round_half_even_Z (z : Z) : round_half_even (inject_Z z) = z.
Proof.
  unfold round_half_even. rewrite Qfloor_Z.
  assert (H : (inject_Z z - inject_Z z ?= 1 # 2) = Lt).
  { apply (proj1 (Qlt_alt _ _)). set (q := inject_Z z). clearbody q. lra. }
  now rewrite H.
Qed.

Lemma round_half_even_mono (x y : Q) :
  x <= y -> (round_half_even x <= round_half_even y)%Z.
Proof.
  intros Hxy. pose proof (Qfloor_resp_le x y Hxy) as Hf.
  pose proof (round_half_even_bounds x) as Hx.
  pose proof (round_half_even_bounds y) as Hy.
  destruct (Z.eq_dec (Qfloor x) (Qfloor y)) as [Heq|Hne].
  - unfold round_half_even. rewrite Heq.
    destruct (Qcompare (x - inject_Z (Qfloor y)) (1 # 2)) eqn:Ex;
      destruct (Qcompare (y - inject_Z (Qfloor y)) (1 # 2)) eqn:Ey;
      try (destruct (Z.even (Qfloor y))); try lia;
      repeat match goal with
             | H : Qcompare _ _ = Eq |- _ => apply Qeq_alt in H
             | H : Qcompare _ _ = Lt |- _ => apply Qlt_alt in H
             | H : Qcompare _ _ = Gt |- _ => apply Qgt_alt in H
             end; lra.
  - lia.
Qed.

Lemma Qfloor_unique (x : Q) (f : Z) :
  inject_Z f <= x -> x < inject_Z f + 1 -> Qfloor x = f.
Proof.
  intros Hlo Hhi.
  pose proof (Qfloor_le x) as H1. pose proof (Qlt_floor x) as H2.
  rewrite inject_Z_plus in H2. change (inject_Z 1) with 1 in H2.
  assert (Ha : inject_Z (Qfloor x) < inject_Z (f + 1)).
  { rewrite inject_Z_plus. change (inject_Z 1) with 1. lra. }
  assert (Hb : inject_Z f < inject_Z (Qfloor x + 1)).
  { rewrite inject_Z_plus. change (inject_Z 1) with 1. lra. }
  rewrite <- Zlt_Qlt in Ha, Hb. lia.
Qed.

Lemma round_half_even_opp (x : Q) :
  round_half_even (- x) = (- round_half_even x)%Z.
Proof.
  pose proof (Qfloor_le x) as Hlo. pose proof (Qlt_floor x) as Hhi.
  rewrite inject_Z_plus in Hhi. change (inject_Z 1) with 1 in Hhi.
  set (f := Qfloor x) in *.
  destruct (Qeq_dec x (inject_Z f)) as [Hint|Hfrac].
  - rewrite (round_half_even_comp x (inject_Z f) Hint).
    rewrite (round_half_even_comp (- x) (inject_Z (- f))).
    + now rewrite !round_half_even_Z.
    + rewrite inject_Z_opp, Hint. reflexivity.
  - assert (Hf' : Qfloor (- x) = (- f - 1)%Z).
    { apply Qfloor_unique.
      - unfold Z.sub. rewrite inject_Z_plus, inject_Z_opp.
        change (inject_Z (- (1))) with (- (1)). lra.
      - unfold Z.sub. rewrite inject_Z_plus, inject_Z_opp.
        change (inject_Z (- (1))) with (- (1)).
        assert (inject_Z f < x) by (apply Qle_lteq in Hlo; destruct Hlo as [H|H]; [exact H|symmetry in H; contradiction]).
        lra. }
    unfold round_half_even. rewrite Hf'. fold f.
    assert (Hi : inject_Z (- f - 1) == - inject_Z f - 1).
    { unfold Z.sub. rewrite inject_Z_plus, inject_Z_opp. reflexivity. }
    destruct (Qcompare (x - inject_Z f) (1 # 2)) eqn:Ex.
    + apply Qeq_alt in Ex.
      assert (E' : (- x - inject_Z (- f - 1) ?= 1 # 2) = Eq).
      { apply (proj1 (Qeq_alt _ _)). rewrite Hi. lra. }
      rewrite E'.
      replace (Z.even (- f - 1)) with (negb (Z.even f)).
      * destruct (Z.even f); cbn [negb]; lia.
      * replace (- f - 1)%Z with (- (f + 1))%Z by lia.
        rewrite Z.even_opp, Z.even_add. now destruct (Z.even f).
    + apply Qlt_alt in Ex.
      assert (E' : (- x - inject_Z (- f - 1) ?= 1 # 2) = Gt).
      { apply (proj1 (Qgt_alt _ _)). rewrite Hi. lra. }
      rewrite E'. lia.
    + apply Qgt_alt in Ex.
      assert (E' : (- x - inject_Z (- f - 1) ?= 1 # 2) = Lt).
      { apply (proj1 (Qlt_alt _ _)). rewrite Hi. lra. }
      rewrite E'. lia.
Qed.

(** ** Rounding to binary64 *)

Lemma Qabs_inject_Z (m : Z) : Qabs (inject_Z m) = inject_Z (Z.abs m).
Proof. reflexivity. Qed.

Lemma scaled (x : Q) (e : Z) : x / pow2 e * pow2 e == x.
Proof. field. pose proof (pow2_pos e). lra. Qed.

Lemma expo_ge (x : Q) : (-1074 <= expo x)%Z.
Proof. unfold expo. lia. Qed.

Lemma Qabs_pos_lt (x : Q) : ~ x == 0 -> 0 < Qabs x.
Proof.
  intros Hx. apply Qabs_case; intros H.
  - apply Qle_lteq in H. destruct H as [H|H]; [exact H|]. symmetry in H.
    contradiction.
  - apply Qle_lteq in H. destruct H as [H|H]; [lra|contradiction].
Qed.

Lemma expo_upper (x : Q) : ~ x == 0 -> Qabs x < pow2 (expo x + 53).
Proof.
  intros Hx. destruct (ilog2_spec (Qabs x) (Qabs_pos_lt x Hx)) as [_ Hhi].
  apply Qlt_le_trans with (1 := Hhi). apply pow2_le. unfold expo. lia.
Qed.

Lemma expo_lower (x : Q) :
  ~ x == 0 -> (-1074 < expo x)%Z -> pow2 (expo x + 52) <= Qabs x.
Proof.
  intros Hx He. destruct (ilog2_spec (Qabs x) (Qabs_pos_lt x Hx)) as [Hlo _].
  apply Qle_trans with (2 := Hlo). apply pow2_le. unfold expo in *. lia.
Qed.

Lemma expo_comp (x y : Q) : ~ x == 0 -> x == y -> expo x = expo y.
Proof.
  intros Hx Hxy. unfold expo.
  rewrite (ilog2_comp (Qabs x) (Qabs y)); [reflexivity| |].
  - now apply Qabs_pos_lt.
  - now apply Qabs_wd.
Qed.

Lemma expo_mono (x y : Q) :
  ~ x == 0 -> Qabs x <= Qabs y -> (expo x <= expo y)%Z.
Proof.
  intros Hx Hxy. unfold expo.
  pose proof (ilog2_mono (Qabs x) (Qabs y) (Qabs_pos_lt x Hx) Hxy). lia.
Qed.

Lemma expo_opp (x : Q) : ~ x == 0 -> expo (- x) = expo x.
Proof.
  intros Hx. unfold expo.
  rewrite (ilog2_comp (Qabs (- x)) (Qabs x)); [reflexivity| |apply Qabs_opp].
  apply Qabs_pos_lt. intros H. apply Hx. lra.
Qed.

Lemma rnd_zero (x : Q) : x == 0 -> rnd x = 0.
Proof.
  intros H. unfold rnd. apply Qeq_bool_iff in H. now rewrite H.
Qed.

Lemma rnd_nonzero (x : Q) :
  ~ x == 0 ->
  rnd x = inject_Z (round_half_even (x / pow2 (expo x))) * pow2 (expo x).
Proof.
  intros H. unfold rnd. destruct (Qeq_bool x 0) eqn:E; [|reflexivity].
  apply Qeq_bool_iff in E. contradiction.
Qed.

Lemma rnd_comp (x y : Q) : x == y -> rnd x == rnd y.
Proof.
  intros Hxy. destruct (Qeq_dec x 0) as [Hx|Hx].
  - rewrite (rnd_zero x Hx), (rnd_zero y); [reflexivity|lra].
  - assert (Hy : ~ y == 0) by (intros H; apply Hx; lra).
    rewrite (rnd_nonzero x Hx), (rnd_nonzero y Hy).
    rewrite <- (expo_comp x y Hx Hxy).
    rewrite (round_half_even_comp (x / pow2 (expo x)) (y / pow2 (expo x)));
      [reflexivity|].
    unfold Qdiv. apply Qmult_comp; [exact Hxy|reflexivity].
Qed.

#[export] Instance rnd_Proper : Proper (Qeq ==> Qeq) rnd.
Proof. intros x y. apply rnd_comp. Qed.

Lemma rnd_nonneg (x : Q) : 0 <= x -> 0 <= rnd x.
Proof.
  intros H. destruct (Qeq_dec x 0) as [Hx|Hx].
  - rewrite (rnd_zero x Hx). lra.
  - rewrite (rnd_nonzero x Hx). pose proof (pow2_pos (expo x)) as Hp.
    apply Qmult_le_0_compat; [|lra].
    change 0 with (inject_Z 0). rewrite <- Zle_Qle.
    rewrite <- (round_half_even_Z 0). apply round_half_even_mono.
    change (inject_Z 0) with 0. apply Qle_shift_div_l; [exact Hp|lra].
Qed.

Lemma rnd_opp (x : Q) : rnd (- x) == - rnd x.
Proof.
  destruct (Qeq_dec x 0) as [Hx|Hx].
  - rewrite (rnd_zero x Hx), (rnd_zero (- x)); [reflexivity|lra].
  - assert (Hx' : ~ - x == 0) by (intros H; apply Hx; lra).
    rewrite (rnd_nonzero x Hx), (rnd_nonzero (- x) Hx'), (expo_opp x Hx).
    rewrite (round_half_even_comp (- x / pow2 (expo x))
                                  (- (x / pow2 (expo x)))).
    + rewrite round_half_even_opp, inject_Z_opp. ring.
    + field. pose proof (pow2_pos (expo x)). lra.
Qed.

Lemma rnd_nonpos (x : Q) : x <= 0 -> rnd x <= 0.
Proof.
  intros H. assert (H' : 0 <= rnd (- x)) by (apply rnd_nonneg; lra).
  rewrite rnd_opp in H'. lra.
Qed.

Lemma round_scaled_le (t : Q) (k : Z) :
  (0 <= k)%Z -> t <= pow2 k -> (round_half_even t <= 2 ^ k)%Z.
Proof.
  intros Hk Ht. rewrite <- (round_half_even_Z (2 ^ k)).
  apply round_half_even_mono. now rewrite <- pow2_Z.
Qed.

Lemma round_scaled_ge (t : Q) (k : Z) :
  (0 <= k)%Z -> pow2 k <= t -> (2 ^ k <= round_half_even t)%Z.
Proof.
  intros Hk Ht. rewrite <- (round_half_even_Z (2 ^ k)).
  apply round_half_even_mono. now rewrite <- pow2_Z.
Qed.

Lemma rnd_mono_pos (x y : Q) : 0 < x -> x <= y -> rnd x <= rnd y.
Proof.
  intros Hx Hxy.
  assert (Hx0 : ~ x == 0) by lra. assert (Hy0 : ~ y == 0) by lra.
  rewrite (rnd_nonzero x Hx0), (rnd_nonzero y Hy0).
  assert (Hax : Qabs x == x) by (apply Qabs_pos; lra).
  assert (Hay : Qabs y == y) by (apply Qabs_pos; lra).
  assert (He : (expo x <= expo y)%Z).
  { apply expo_mono; [exact Hx0|]. rewrite Hax, Hay. exact Hxy. }
  pose proof (pow2_pos (expo x)) as Hpx. pose proof (pow2_pos (expo y)) as Hpy.
  destruct (Z.eq_dec (expo x) (expo y)) as [Heq|Hne].
  - rewrite Heq. apply Qmult_le_compat_r; [|lra].
    rewrite <- Zle_Qle. apply round_half_even_mono.
    apply Qmult_le_compat_r; [exact Hxy|].
    apply Qlt_le_weak, Qinv_lt_0_compat, Hpy.
  - pose proof (expo_ge x) as Hgx.
    assert (Hlow : pow2 (expo y + 52) <= y).
    { assert (H : pow2 (expo y + 52) <= Qabs y)
        by (apply expo_lower; [exact Hy0|lia]).
      lra. }
    assert (Hupp : x < pow2 (expo x + 53)).
    { pose proof (expo_upper x Hx0) as H. lra. }
    assert (Hry : (2 ^ 52 <= round_half_even (y / pow2 (expo y)))%Z).
    { apply round_scaled_ge; [lia|]. apply Qle_shift_div_l; [exact Hpy|].
      rewrite <- pow2_plus. now rewrite Z.add_comm. }
    assert (Hrx : (round_half_even (x / pow2 (expo x)) <= 2 ^ 53)%Z).
    { apply round_scaled_le; [lia|]. apply Qle_shift_div_r; [exact Hpx|].
      rewrite <- pow2_plus. rewrite Z.add_comm. lra. }
    apply Qle_trans with (inject_Z (2 ^ 53) * pow2 (expo x)).
    { apply Qmult_le_compat_r; [|lra]. now rewrite <- Zle_Qle. }
    apply Qle_trans with (inject_Z (2 ^ 52) * pow2 (expo y)).
    { rewrite <- !pow2_Z by lia. rewrite <- !pow2_plus. apply pow2_le. lia. }
    apply Qmult_le_compat_r; [|lra]. now rewrite <- Zle_Qle.
Qed.

Lemma rnd_mono (x y : Q) : x <= y -> rnd x <= rnd y.
Proof.
  intros Hxy.
  destruct (Qlt_le_dec 0 x) as [Hx|Hx].
  - now apply rnd_mono_pos.
  - destruct (Qlt_le_dec y 0) as [Hy|Hy].
    + assert (H : rnd (- y) <= rnd (- x)) by (apply rnd_mono_pos; lra).
      rewrite !rnd_opp in H. lra.
    + pose proof (rnd_nonpos x Hx). pose proof (rnd_nonneg y Hy). lra.
Qed.

(** A number [m * 2^e] with [|m| <= 2^53] and [e >= -1074] is a binary64
    number: rounding leaves it as it is. *)
Lemma rnd_fix_lt (x : Q) (m e : Z) :
  x == inject_Z m * pow2 e -> (Z.abs m < 2 ^ 53)%Z -> (-1074 <= e)%Z ->
  rnd x == x.
Proof.
  intros Hx Hm He. destruct (Qeq_dec x 0) as [H0|H0].
  - rewrite (rnd_zero x H0). now symmetry.
  - rewrite (rnd_nonzero x H0).
    pose proof (pow2_pos e) as Hpe. pose proof (pow2_pos (expo x)) as Hpx.
    assert (Habs : Qabs x == inject_Z (Z.abs m) * pow2 e).
    { rewrite Hx, Qabs_Qmult, (Qabs_pos (pow2 e)) by lra.
      now rewrite Qabs_inject_Z. }
    assert (Hle : (expo x <= e)%Z).
    { destruct (ilog2_spec (Qabs x) (Qabs_pos_lt x H0)) as [Hlo _].
      assert (Hlt : Qabs x < pow2 (53 + e)).
      { rewrite Habs, pow2_plus. apply Qmult_lt_compat_r; [exact Hpe|].
        rewrite pow2_Z by lia. now rewrite <- Zlt_Qlt. }
      assert (Hi : (ilog2 (Qabs x) < 53 + e)%Z) by (apply pow2_lt_inv; lra).
      unfold expo. lia. }
    set (ex := expo x) in *. clearbody ex.
    assert (Hs : x / pow2 ex == inject_Z (m * 2 ^ (e - ex))).
    { rewrite inject_Z_mult, <- pow2_Z by lia. rewrite Hx.
      rewrite <- (pow2_minus e ex). field. lra. }
    rewrite (round_half_even_comp _ _ Hs), round_half_even_Z.
    rewrite inject_Z_mult, <- pow2_Z by lia. rewrite Hx.
    rewrite <- (pow2_minus e ex). ring.
Qed.

Lemma rnd_fix (x : Q) (m e : Z) :
  x == inject_Z m * pow2 e -> (Z.abs m <= 2 ^ 53)%Z -> (-1074 <= e)%Z ->
  rnd x == x.
Proof.
  intros Hx Hm He.
  destruct (Z.eq_dec (Z.abs m) (2 ^ 53)) as [Heq|Hne].
  - apply (rnd_fix_lt x (m / 2) (e + 1)); [| |lia].
    + rewrite Hx, pow2_succ.
      assert (Hm2 : m = (2 * (m / 2))%Z).
      { assert (Hd : (m mod 2 = 0)%Z).
        { destruct (Z.abs_eq_or_opp m) as [H|H]; rewrite H in Heq.
          - rewrite Heq. reflexivity.
          - assert (m = (- 2 ^ 53)%Z) by lia. subst m. reflexivity. }
        rewrite (Z.div_mod m 2) at 1 by lia. lia. }
      rewrite Hm2 at 1. rewrite inject_Z_mult. change (inject_Z 2) with 2. ring.
    + destruct (Z.abs_eq_or_opp m) as [H|H]; rewrite H in Heq.
      * rewrite Heq. reflexivity.
      * assert (m = (- 2 ^ 53)%Z) by lia. subst m. reflexivity.
  - apply (rnd_fix_lt x m e); [exact Hx|lia|exact He].
Qed.

Lemma rnd_repr (x : Q) :
  exists m e,
    rnd x == inject_Z m * pow2 e /\ (Z.abs m <= 2 ^ 53)%Z /\ (-1074 <= e)%Z.
Proof.
  destruct (Qeq_dec x 0) as [H0|H0].
  - exists 0%Z, 0%Z. rewrite (rnd_zero x H0).
    split; [reflexivity|]. split; [cbn; lia|lia].
  - exists (round_half_even (x / pow2 (expo x))), (expo x).
    rewrite (rnd_nonzero x H0). split; [reflexivity|].
    split; [|apply expo_ge].
    pose proof (expo_upper x H0) as Hup.
    pose proof (pow2_pos (expo x)) as Hp.
    apply Qabs_Qlt_condition in Hup. destruct Hup as [Hlo Hhi].
    rewrite Z.add_comm, pow2_plus in Hlo, Hhi.
    apply Z.abs_le. split.
    + rewrite <- (round_half_even_Z (- 2 ^ 53)). apply round_half_even_mono.
      rewrite inject_Z_opp, <- pow2_Z by lia.
      apply Qle_shift_div_l; [exact Hp|]. lra.
    + apply round_scaled_le; [lia|].
      apply Qle_shift_div_r; [exact Hp|]. lra.
Qed.

Lemma rnd_idem (x : Q) : rnd (rnd x) == rnd x.
Proof.
  destruct (rnd_repr x) as (m & e & Hx & Hm & He).
  exact (rnd_fix (rnd x) m e Hx Hm He).
Qed.

Lemma rnd_Z (z : Z) : (Z.abs z <= 2 ^ 53)%Z -> rnd (inject_Z z) == inject_Z z.
Proof.
  intros Hz. apply (rnd_fix _ z 0); [|exact Hz|lia].
  change (pow2 0) with 1. ring.
Qed.




Import InvoiceProcessor Spec.

(** ** Numbers *)

Lemma Qltb_lt (x y : Q) : Qltb x y = true <-> x < y.
Proof.
  unfold Qltb. rewrite negb_true_iff. split.
  - intros H. apply Qnot_le_lt. intros Hle.
    apply Qle_bool_iff in Hle. congruence.
  - intros H. destruct (Qle_bool y x) eqn:E; auto.
    apply Qle_bool_iff in E. exfalso. apply (Qlt_not_le _ _ H E).
Qed.

Lemma Qltb_ge (x y : Q) : Qltb x y = false <-> y <= x.
Proof.
  unfold Qltb. rewrite negb_false_iff. apply Qle_bool_iff.
Qed.

Lemma float_of_val (x : num) : float_of x == rnd (val x).
Proof.
  destruct x as [a|q]; simpl; [reflexivity|]. symmetry. apply rnd_idem.
Qed.

Lemma val_num_neg (x : num) : val (num_neg x) == - val x.
Proof.
  destruct x as [a|q]; simpl; [now rewrite inject_Z_opp|apply rnd_opp].
Qed.

Lemma rnd_Qabs (q : Q) : rnd (Qabs q) == Qabs (rnd q).
Proof.
  destruct (Qlt_le_dec q 0) as [H|H].
  - assert (Hq : q <= 0) by lra.
    pose proof (rnd_nonpos q Hq) as Hr.
    rewrite (rnd_comp _ _ (Qabs_neg q Hq)), rnd_opp.
    symmetry. now apply Qabs_neg.
  - pose proof (rnd_nonneg q H) as Hr.
    rewrite (rnd_comp _ _ (Qabs_pos q H)).
    symmetry. now apply Qabs_pos.
Qed.

Lemma val_num_abs (x : num) : val (num_abs x) == Qabs (val x).
Proof.
  destruct x as [a|q]; cbn [val num_abs].
  - now rewrite Qabs_inject_Z.
  - apply rnd_Qabs.
Qed.

Lemma val_num_abs_nonneg (x : num) : 0 <= val (num_abs x).
Proof. rewrite val_num_abs. apply Qabs_nonneg. Qed.


(** A number minus itself is zero, whatever its kind. *)
Lemma val_num_sub_self (x : num) : val (num_sub x x) == 0.
Proof.
  destruct x as [a|q]; simpl.
  - now rewrite Z.sub_diag.
  - rewrite rnd_zero; [reflexivity|]. lra.
Qed.

Lemma val_num_add_nonneg (x y : num) :
  0 <= val x -> 0 <= val y -> 0 <= val (num_add x y).
Proof.
  intros Hx Hy.
  assert (Hfx : 0 <= float_of x)
    by (rewrite float_of_val; now apply rnd_nonneg).
  assert (Hfy : 0 <= float_of y)
    by (rewrite float_of_val; now apply rnd_nonneg).
  destruct x as [a|p], y as [b|q]; simpl in *;
    try (apply rnd_nonneg; lra).
  rewrite inject_Z_plus. lra.
Qed.

Lemma is_int_add (x y : num) : is_int x -> is_int y -> is_int (num_add x y).
Proof. intros [a ->] [b ->]. now exists (a + b)%Z. Qed.

Lemma val_num_add_int (x y : num) :
  is_int x -> is_int y -> val (num_add x y) == val x + val y.
Proof. intros [a ->] [b ->]. simpl. now rewrite inject_Z_plus. Qed.


(** ** Loops and sums *)

Lemma for_each_invariant {A S} (P : S -> Prop) (body : S -> A -> result S) :
  (forall st x st', P st -> body st x = Ok st' -> P st') ->
  forall l st st', P st -> for_each body l st = Ok st' -> P st'.
Proof.
  intros Hstep l; induction l as [|x l IH]; simpl; intros st st' HP Hrun.
  - now inversion Hrun; subst.
  - destruct (body st x) as [st1|e] eqn:Hb; simpl in Hrun; [|discriminate].
    eapply IH; [|exact Hrun]. eapply Hstep; eauto.
Qed.

Lemma py_sum_snoc (l : list num) (x : num) :
  py_sum (l ++ [x]) = num_add (py_sum l) x.
Proof. unfold py_sum. now rewrite fold_left_app. Qed.

Lemma Qsum_app (l1 l2 : list Q) : Qsum (l1 ++ l2) == Qsum l1 + Qsum l2.
Proof.
  induction l1 as [|x l1 IH]; simpl.
  - lra.
  - rewrite IH. lra.
Qed.

(** A sum of ints is an int, and exact. *)
Lemma fold_num_add_int (l : list num) (acc : num) :
  is_int acc -> Forall is_int l ->
  is_int (fold_left num_add l acc)
  /\ val (fold_left num_add l acc) == val acc + Qsum (map val l).
Proof.
  intros Hacc Hl; revert acc Hacc.
  induction Hl as [|x l Hx Hl IH]; simpl; intros acc Hacc.
  - split; [exact Hacc|lra].
  - destruct (IH (num_add acc x) (is_int_add _ _ Hacc Hx)) as [Hi Hv].
    split; [exact Hi|]. rewrite Hv, (val_num_add_int _ _ Hacc Hx).
    unfold Qsum. lra.
Qed.

Lemma py_sum_int (l : list num) :
  Forall is_int l -> is_int (py_sum l) /\ val (py_sum l) == Qsum (map val l).
Proof.
  intros Hl.
  destruct (fold_num_add_int l (NInt 0) (ex_intro _ 0%Z eq_refl) Hl)
    as [Hi Hv].
  split; [exact Hi|]. unfold py_sum. rewrite Hv.
  change (val (NInt 0)) with 0. lra.
Qed.

(** A sum of non-negative numbers is not negative. *)
Lemma fold_num_add_nonneg (l : list num) (acc : num) :
  0 <= val acc -> Forall (fun x => 0 <= val x) l ->
  0 <= val (fold_left num_add l acc).
Proof.
  intros Hacc Hl; revert acc Hacc.
  induction Hl as [|x l Hx Hl IH]; simpl; intros acc Hacc; auto.
  apply IH. now apply val_num_add_nonneg.
Qed.

(** ** Dicts *)

Section DictFacts.
Context {K V : Type} (eqb : K -> K -> bool).

Lemma get_In (d : list (K * V)) (k : K) (v : V) :
  get eqb d k = Some v -> exists k', In (k', v) d.
Proof.
  induction d as [|[k0 v0] d IH]; simpl; [discriminate|].
  destruct (eqb k0 k).
  - intros [= ->]. eauto.
  - intros H. destruct (IH H) as [k' Hk']. eauto.
Qed.

Lemma setitem_Forall (P : K * V -> Prop) (d : list (K * V)) (k : K) (v : V) :
  Forall P d -> (forall k', P (k', v)) -> Forall P (setitem eqb d k v).
Proof.
  intros Hd Hv. induction Hd as [|[k0 v0] d H0 Hd IH]; simpl.
  - constructor; auto.
  - destruct (eqb k0 k); constructor; auto.
Qed.

(** Replacing the value under [k] by [f] of the old value (or of the
    default) changes a sum over the values by the difference. *)
Lemma setitem_sum (w : V -> Q) (d : list (K * V)) (k : K) (v dflt : V) :
  w dflt == 0 ->
  Qsum (map w (values (setitem eqb d k v)))
  == Qsum (map w (values d)) - w (get_default eqb d k dflt) + w v.
Proof.
  intros Hd. unfold get_default, values.
  induction d as [|[k0 v0] d IH]; simpl.
  - lra.
  - destruct (eqb k0 k); simpl.
    + lra.
    + rewrite IH. lra.
Qed.

Hypothesis eqb_spec : forall x y, reflect (x = y) (eqb x y).

Lemma setitem_Forall_key (P : K * V -> Prop) (d : list (K * V)) (k : K) (v : V) :
  Forall P d -> P (k, v) -> Forall P (setitem eqb d k v).
Proof.
  intros Hd Hv. induction Hd as [|[k0 v0] d H0 Hd IH]; simpl.
  - constructor; auto.
  - destruct (eqb_spec k0 k) as [->|_]; constructor; auto.
Qed.

Lemma get_setitem_same (d : list (K * V)) (k : K) (v : V) :
  get eqb (setitem eqb d k v) k = Some v.
Proof.
  induction d as [|[k0 v0] d IH]; simpl.
  - now destruct (eqb_spec k k).
  - destruct (eqb k0 k) eqn:E; simpl; rewrite E; auto.
Qed.

Lemma get_setitem_other (d : list (K * V)) (k k' : K) (v : V) :
  k <> k' -> get eqb (setitem eqb d k v) k' = get eqb d k'.
Proof.
  intros Hne. induction d as [|[k0 v0] d IH]; simpl.
  - now destruct (eqb_spec k k').
  - destruct (eqb_spec k0 k) as [->|Hk]; simpl.
    + now destruct (eqb_spec k k').
    + now rewrite IH.
Qed.

Lemma keys_setitem (d : list (K * V)) (k : K) (v : V) :
  keys (setitem eqb d k v)
  = if mem eqb d k then keys d else keys d ++ [k].
Proof.
  unfold keys, mem. induction d as [|[k0 v0] d IH]; simpl; auto.
  destruct (eqb k0 k); simpl; auto.
  rewrite IH. now destruct (get eqb d k).
Qed.

Lemma get_None_keys (d : list (K * V)) (k : K) :
  get eqb d k = None -> ~ In k (keys d).
Proof.
  unfold keys. induction d as [|[k0 v0] d IH]; simpl; auto.
  destruct (eqb_spec k0 k); [discriminate|].
  intros H [?|?]; [contradiction|]. now apply IH.
Qed.

Lemma setitem_NoDup (d : list (K * V)) (k : K) (v : V) :
  NoDup (keys d) -> NoDup (keys (setitem eqb d k v)).
Proof.
  intros Hd. rewrite keys_setitem. unfold mem.
  destruct (get eqb d k) eqn:E; auto.
  apply NoDup_app; auto.
  - constructor; [intros []|constructor].
  - intros x Hx [<-|[]]. eapply get_None_keys; eauto.
Qed.

Lemma In_get (d : list (K * V)) (k : K) (v : V) :
  NoDup (keys d) -> In (k, v) d -> get eqb d k = Some v.
Proof.
  unfold keys. induction d as [|[k0 v0] d IH]; simpl; [intros _ []|].
  intros Hnd [[= -> ->]|Hin]; inversion Hnd as [|? ? Hk0 Hnd']; subst.
  - now destruct (eqb_spec k k).
  - destruct (eqb_spec k0 k) as [->|_]; auto.
    exfalso. apply Hk0. now apply (in_map fst) in Hin.
Qed.

End DictFacts.

Lemma string_eqb_spec : forall x y : string, reflect (x = y) (String.eqb x y).
Proof. exact String.eqb_spec. Qed.

(** ** Aggregation *)

Section Aggregation.

Lemma add_amount_Some (acc : num) (cost : record) (q : num) :
  amount_of cost = Some q -> add_amount acc cost = Ok (num_add acc q).
Proof.
  unfold amount_of, add_amount, field, getitem, py_add.
  destruct (get String.eqb cost "amount") as [v|]; simpl; [|discriminate].
  now intros ->.
Qed.

Lemma add_amount_None (acc : num) (cost : record) :
  amount_of cost = None -> exists e, add_amount acc cost = Raise e.
Proof.
  unfold amount_of, add_amount, field, getitem, py_add.
  destruct (get String.eqb cost "amount") as [v|]; simpl; eauto.
  intros ->. eauto.
Qed.

Lemma add_amount_Ok (acc : num) (cost : record) (t : num) :
  add_amount acc cost = Ok t ->
  amount_of cost <> None /\ t = num_add acc (amount cost).
Proof.
  intros H. unfold amount. destruct (amount_of cost) as [q|] eqn:E.
  - rewrite (add_amount_Some acc cost q E) in H. inversion H. split; congruence.
  - destruct (add_amount_None acc cost E) as [e He]. congruence.
Qed.

(** The loop adds the amounts to the accumulator one by one, as [sum]
    does. *)
Lemma sum_from_spec (costs : list record) (acc t : num) :
  for_each add_amount costs acc = Ok t ->
  t = fold_left num_add (map amount costs) acc
  /\ Forall (fun r => amount_of r <> None) costs.
Proof.
  revert acc; induction costs as [|c costs IH]; simpl; intros acc H.
  - inversion H; subst. split; [reflexivity|constructor].
  - destruct (add_amount acc c) as [a|e] eqn:E; simpl in H; [|discriminate].
    apply add_amount_Ok in E as [Hc ->].
    destruct (IH _ H) as [Ht Hall]. split; [exact Ht|now constructor].
Qed.

Lemma sum_from_total (costs : list record) (acc : num) :
  Forall (fun r => amount_of r <> None) costs ->
  exists t, for_each add_amount costs acc = Ok t.
Proof.
  intros Hall; revert acc.
  induction Hall as [|c costs Hc Hall IH]; simpl; intros acc; eauto.
  destruct (amount_of c) as [q|] eqn:E; [|contradiction].
  rewrite (add_amount_Some acc c q E). simpl. apply IH.
Qed.

Lemma sum_amounts_spec (costs : list record) (t : num) :
  sum_amounts costs = Ok t ->
  t = py_sum (map amount costs)
  /\ Forall (fun r => amount_of r <> None) costs.
Proof. apply sum_from_spec. Qed.

(** What one iteration of the inner loop stores. *)
Lemma add_service_Ok (svcs svcs' : list (value * num)) (cost : record) :
  add_service svcs cost = Ok svcs' ->
  let service := get_default String.eqb cost "service" (VStr "Other") in
  svcs' = setitem py_eqb svcs service
            (num_add (get_default py_eqb svcs service (NInt 0)) (amount cost)).
Proof.
  unfold add_service.
  set (service := get_default String.eqb cost "service" (VStr "Other")).
  pose proof (add_amount_Ok (get_default py_eqb svcs service (NInt 0)) cost)
    as Hadd.
  unfold add_amount in Hadd.
  destruct (getitem String.eqb cost "amount") as [v|e]; simpl in *;
    [|discriminate].
  destruct (py_add _ v) as [s|e]; simpl in *; [|discriminate].
  intros [= <-]. destruct (Hadd _ eq_refl) as [_ ->]. reflexivity.
Qed.

Lemma add_service_total (svcs : list (value * num)) (cost : record) :
  amount_of cost <> None -> exists svcs', add_service svcs cost = Ok svcs'.
Proof.
  intros Hc. unfold add_service.
  set (service := get_default String.eqb cost "service" (VStr "Other")).
  destruct (amount_of cost) as [q|] eqn:E; [|contradiction].
  pose proof (add_amount_Some (get_default py_eqb svcs service (NInt 0))
                cost q E) as Hadd.
  unfold add_amount in Hadd.
  destruct (getitem String.eqb cost "amount") as [v|e]; simpl in *;
    [|discriminate].
  rewrite Hadd. simpl. eauto.
Qed.

Lemma add_services_total (costs : list record) (svcs : list (value * num)) :
  Forall (fun r => amount_of r <> None) costs ->
  exists svcs', for_each add_service costs svcs = Ok svcs'.
Proof.
  intros Hall; revert svcs.
  induction Hall as [|c costs Hc Hall IH]; simpl; intros svcs; eauto.
  destruct (add_service_total svcs c Hc) as [s1 ->]. simpl. apply IH.
Qed.

Lemma get_default_int {K} (eqb : K -> K -> bool) (d : list (K * num)) (k : K) :
  Forall (fun kv => is_int (snd kv)) d -> is_int (get_default eqb d k (NInt 0)).
Proof.
  intros Hd. unfold get_default.
  destruct (get eqb d k) as [v|] eqn:E; [|now exists 0%Z].
  apply get_In in E as [k' Hk']. rewrite Forall_forall in Hd.
  apply (Hd _ Hk').
Qed.

Lemma amount_int (r : record) : int_record r -> is_int (amount r).
Proof. intros [z Hz]. unfold amount. rewrite Hz. now exists z. Qed.

(** On int amounts the subtotals stay ints, and their sum grows by the
    amount. *)
Lemma add_service_int (svcs svcs' : list (value * num)) (cost : record) :
  Forall (fun kv => is_int (snd kv)) svcs -> int_record cost ->
  add_service svcs cost = Ok svcs' ->
  Forall (fun kv => is_int (snd kv)) svcs'
  /\ Qsum (map val (values svcs'))
     == Qsum (map val (values svcs)) + val (amount cost).
Proof.
  intros Hint Hcost Hrun. apply add_service_Ok in Hrun. cbv zeta in Hrun.
  set (service := get_default String.eqb cost "service" (VStr "Other")) in *.
  pose proof (get_default_int py_eqb svcs service Hint) as Hold.
  pose proof (amount_int cost Hcost) as Ham.
  subst svcs'. split.
  - apply setitem_Forall; auto. intros k'. now apply is_int_add.
  - rewrite (setitem_sum py_eqb val svcs service _ (NInt 0)) by reflexivity.
    rewrite (val_num_add_int _ _ Hold Ham). lra.
Qed.

Lemma add_services_int (costs : list record) (svcs svcs' : list (value * num)) :
  Forall (fun kv => is_int (snd kv)) svcs -> Forall int_record costs ->
  for_each add_service costs svcs = Ok svcs' ->
  Forall (fun kv => is_int (snd kv)) svcs'
  /\ Qsum (map val (values svcs'))
     == Qsum (map val (values svcs)) + Qsum (map val (map amount costs)).
Proof.
  intros Hint Hall; revert svcs Hint.
  induction Hall as [|c costs Hc Hall IH]; simpl; intros svcs Hint H.
  - inversion H; subst. split; [exact Hint|lra].
  - destruct (add_service svcs c) as [s1|e] eqn:E; simpl in H; [|discriminate].
    destruct (add_service_int _ _ _ Hint Hc E) as [Hint1 Hsum1].
    destruct (IH _ Hint1 H) as [Hint' Hsum'].
    split; [exact Hint'|]. rewrite Hsum', Hsum1. lra.
Qed.

Lemma with_bucket_get (aggregated : list (string * bu_aggregate)) (bu : string) :
  get String.eqb (with_bucket aggregated bu) bu
  = Some (get_default String.eqb aggregated bu empty_aggregate).
Proof.
  unfold with_bucket, mem, get_default.
  destruct (get String.eqb aggregated bu) eqn:E; auto.
  apply get_setitem_same, string_eqb_spec.
Qed.

Lemma with_bucket_get_other (aggregated : list (string * bu_aggregate))
      (bu bu' : string) :
  bu <> bu' ->
  get String.eqb (with_bucket aggregated bu) bu' = get String.eqb aggregated bu'.
Proof.
  intros Hne. unfold with_bucket. destruct (mem String.eqb aggregated bu); auto.
  apply get_setitem_other; auto using string_eqb_spec.
Qed.

(** What one iteration of the outer loop returns. *)
Lemma aggregate_account_Ok (aggregated aggregated' : list (string * bu_aggregate))
      (item : string * account_data) :
  aggregate_account aggregated item = Ok aggregated' ->
  exists t svcs,
    let bu := business_unit (snd item) in
    let unit := get_default String.eqb aggregated bu empty_aggregate in
    sum_amounts (costs (snd item)) = Ok t
    /\ for_each add_service (costs (snd item)) (services unit) = Ok svcs
    /\ aggregated'
       = setitem String.eqb (with_bucket aggregated bu) bu
           {| total := num_add (total unit) t;
              accounts := accounts unit
                          ++ [{| id := fst item; acc_name := name (snd item);
                                 acc_total := t |}];
              services := svcs |}.
Proof.
  destruct item as [account_id data]. unfold aggregate_account.
  destruct (sum_amounts (costs data)) as [t|e] eqn:Ht; simpl; [|discriminate].
  unfold getitem. rewrite with_bucket_get. simpl.
  destruct (for_each add_service _ _) as [svcs|e] eqn:Hs; simpl;
    [|discriminate].
  intros [= <-]. exists t, svcs. cbv zeta. simpl. auto.
Qed.

Lemma aggregate_account_total (aggregated : list (string * bu_aggregate))
      (item : string * account_data) :
  Forall (fun r => amount_of r <> None) (costs (snd item)) ->
  exists aggregated', aggregate_account aggregated item = Ok aggregated'.
Proof.
  destruct item as [account_id data]. simpl. intros Hall.
  unfold aggregate_account.
  destruct (sum_from_total (costs data) (NInt 0) Hall) as [t Ht].
  unfold sum_amounts. rewrite Ht. simpl.
  unfold getitem. rewrite with_bucket_get. simpl.
  destruct (add_services_total (costs data)
              (services (get_default String.eqb aggregated
                           (business_unit data) empty_aggregate)) Hall)
    as [svcs ->].
  simpl. eauto.
Qed.

Lemma default_Forall (P : bu_aggregate -> Prop)
      (aggregated : list (string * bu_aggregate)) (bu : string) :
  P empty_aggregate ->
  Forall (fun kv => P (snd kv)) aggregated ->
  P (get_default String.eqb aggregated bu empty_aggregate).
Proof.
  intros Hempty Hall. unfold get_default.
  destruct (get String.eqb aggregated bu) as [u|] eqn:E; [|exact Hempty].
  apply get_In in E as [k Hk].
  rewrite Forall_forall in Hall. apply (Hall _ Hk).
Qed.

Lemma with_bucket_Forall (P : bu_aggregate -> Prop)
      (aggregated : list (string * bu_aggregate)) (bu : string) :
  P empty_aggregate ->
  Forall (fun kv => P (snd kv)) aggregated ->
  Forall (fun kv => P (snd kv)) (with_bucket aggregated bu).
Proof.
  intros Hempty Hall. unfold with_bucket.
  destruct (mem String.eqb aggregated bu); auto.
  apply setitem_Forall; auto.
Qed.

Lemma consistent_empty : consistent empty_aggregate.
Proof. reflexivity. Qed.

Lemma int_aggregate_empty : int_aggregate empty_aggregate.
Proof.
  split; [now exists 0%Z|]. split; [constructor|reflexivity].
Qed.

Lemma aggregate_account_consistent
      (aggregated aggregated' : list (string * bu_aggregate))
      (item : string * account_data) :
  Forall (fun kv => consistent (snd kv)) aggregated ->
  aggregate_account aggregated item = Ok aggregated' ->
  Forall (fun kv => consistent (snd kv)) aggregated'.
Proof.
  intros Hall Hrun.
  destruct (aggregate_account_Ok _ _ _ Hrun) as (t & svcs & Hex).
  cbv zeta in Hex. destruct Hex as (Ht & Hs & ->).
  pose proof (default_Forall consistent aggregated (business_unit (snd item))
                consistent_empty Hall) as Ha.
  apply setitem_Forall.
  - apply with_bucket_Forall; auto using consistent_empty.
  - intros k'. unfold consistent in *. simpl.
    rewrite map_app. simpl. rewrite py_sum_snoc. now rewrite <- Ha.
Qed.

Lemma aggregate_consistent (all_costs : list (string * account_data))
      (aggregated : list (string * bu_aggregate)) :
  _aggregate_by_business_unit all_costs = Ok aggregated ->
  Forall (fun kv => consistent (snd kv)) aggregated.
Proof.
  apply (for_each_invariant
           (fun agg => Forall (fun kv => consistent (snd kv)) agg)).
  - intros st x st'. apply aggregate_account_consistent.
  - constructor.
Qed.

Lemma aggregate_account_int
      (aggregated aggregated' : list (string * bu_aggregate))
      (item : string * account_data) :
  Forall int_record (costs (snd item)) ->
  Forall (fun kv => int_aggregate (snd kv)) aggregated ->
  aggregate_account aggregated item = Ok aggregated' ->
  Forall (fun kv => int_aggregate (snd kv)) aggregated'.
Proof.
  intros Hcosts Hall Hrun.
  destruct (aggregate_account_Ok _ _ _ Hrun) as (t & svcs & Hex).
  cbv zeta in Hex. destruct Hex as (Ht & Hs & ->).
  pose proof (default_Forall int_aggregate aggregated
                (business_unit (snd item)) int_aggregate_empty Hall)
    as (Hti & Hsi & Hsum).
  apply sum_amounts_spec in Ht as [-> _].
  assert (Hamounts : Forall is_int (map amount (costs (snd item)))).
  { apply Forall_map. eapply Forall_impl; [|exact Hcosts].
    intros r. apply amount_int. }
  destruct (py_sum_int _ Hamounts) as [Hai Hav].
  destruct (add_services_int _ _ _ Hsi Hcosts Hs) as [Hsi' Hsum'].
  apply setitem_Forall.
  - apply with_bucket_Forall; auto using int_aggregate_empty.
  - intros k'. split; [|split]; simpl.
    + now apply is_int_add.
    + exact Hsi'.
    + rewrite (val_num_add_int _ _ Hti Hai), Hsum', Hav, Hsum. lra.
Qed.

Lemma aggregate_from_int (l : list (string * account_data))
      (aggregated aggregated' : list (string * bu_aggregate)) :
  int_amounts l ->
  Forall (fun kv => int_aggregate (snd kv)) aggregated ->
  for_each aggregate_account l aggregated = Ok aggregated' ->
  Forall (fun kv => int_aggregate (snd kv)) aggregated'.
Proof.
  revert aggregated; induction l as [|item l IH]; simpl;
    intros aggregated Hint Hall H.
  - now inversion H; subst.
  - destruct (aggregate_account aggregated item) as [agg1|e] eqn:E;
      simpl in H; [|discriminate].
    apply (IH agg1); auto.
    + intros it r Hit Hr. apply (Hint it r); simpl; auto.
    + apply (aggregate_account_int aggregated agg1 item); auto.
      apply Forall_forall. intros r Hr. apply (Hint item r); simpl; auto.
Qed.


End Aggregation.




(** ** Conservation of spend *)

Section Conservation.

Lemma with_bucket_NoDup (aggregated : list (string * bu_aggregate)) (bu : string) :
  NoDup (keys aggregated) -> NoDup (keys (with_bucket aggregated bu)).
Proof.
  intros H. unfold with_bucket. destruct (mem String.eqb aggregated bu); auto.
  apply setitem_NoDup; auto using string_eqb_spec.
Qed.

(** One iteration adds the account's sum to the total of the account's own
    business unit, and changes no other total. *)
Lemma aggregate_account_units
      (aggregated aggregated' : list (string * bu_aggregate))
      (item : string * account_data) :
  aggregate_account aggregated item = Ok aggregated' ->
  (NoDup (keys aggregated) -> NoDup (keys aggregated'))
  /\ forall bu,
      unit_total aggregated' bu
      = if String.eqb (business_unit (snd item)) bu
        then num_add (unit_total aggregated bu) (account_amounts item)
        else unit_total aggregated bu.
Proof.
  intros Hrun.
  destruct (aggregate_account_Ok _ _ _ Hrun) as (t & svcs & Hex).
  cbv zeta in Hex. destruct Hex as (Ht & _ & ->).
  apply sum_amounts_spec in Ht as [-> _].
  fold (account_amounts item).
  set (own := business_unit (snd item)).
  split.
  - intros Hnd. apply setitem_NoDup; auto using string_eqb_spec.
    now apply with_bucket_NoDup.
  - intros bu. unfold unit_total, get_default.
    destruct (String.eqb_spec own bu) as [<-|Hne].
    + rewrite get_setitem_same by apply string_eqb_spec. reflexivity.
    + rewrite get_setitem_other by auto using string_eqb_spec.
      now rewrite with_bucket_get_other by auto.
Qed.

Lemma aggregate_from_units (l : list (string * account_data))
      (aggregated aggregated' : list (string * bu_aggregate)) :
  for_each aggregate_account l aggregated = Ok aggregated' ->
  (NoDup (keys aggregated) -> NoDup (keys aggregated'))
  /\ forall bu,
      unit_total aggregated' bu
      = fold_left num_add
          (map account_amounts
               (filter (fun item => String.eqb (business_unit (snd item)) bu)
                       l))
          (unit_total aggregated bu).
Proof.
  revert aggregated; induction l as [|item l IH]; simpl; intros aggregated H.
  - inversion H; subst. split; auto.
  - destruct (aggregate_account aggregated item) as [agg1|e] eqn:E;
      simpl in H; [|discriminate].
    destruct (aggregate_account_units _ _ _ E) as (Hnd & Hu).
    destruct (IH _ H) as (Hnd' & Hu').
    split; [auto|].
    intros bu. rewrite Hu', Hu.
    now destruct (String.eqb (business_unit (snd item)) bu).
Qed.





Lemma aggregate_from_total (l : list (string * account_data))
      (aggregated : list (string * bu_aggregate)) :
  well_formed l -> exists aggregated', for_each aggregate_account l aggregated
                                       = Ok aggregated'.
Proof.
  revert aggregated; induction l as [|item l IH]; simpl; intros aggregated Hwf;
    eauto.
  destruct (aggregate_account_total aggregated item) as [agg1 ->].
  - apply Forall_forall. intros r Hr. apply (Hwf item r); simpl; auto.
  - simpl. apply IH. intros it r Hit Hr. apply (Hwf it r); simpl; auto.
Qed.

(** The aggregates of a run: one per business unit, each total the sum of
    the unit's account sums. *)
Lemma aggregate_units (all_costs : list (string * account_data))
      (aggregated : list (string * bu_aggregate)) :
  _aggregate_by_business_unit all_costs = Ok aggregated ->
  NoDup (keys aggregated)
  /\ forall bu unit,
      In (bu, unit) aggregated -> total unit = unit_amounts bu all_costs.
Proof.
  intros Hrun. destruct (aggregate_from_units _ _ _ Hrun) as (Hnd & Hu).
  assert (Hnd' : NoDup (keys aggregated)) by (apply Hnd; constructor).
  split; [exact Hnd'|].
  intros bu unit Hin. specialize (Hu bu).
  apply (In_get String.eqb string_eqb_spec) in Hin; auto.
  unfold unit_total, get_default in Hu. rewrite Hin in Hu. exact Hu.
Qed.




Lemma account_amounts_int (item : string * account_data) :
  Forall int_record (costs (snd item)) ->
  is_int (account_amounts item)
  /\ val (account_amounts item)
     == Qsum (map (fun r => val (amount r)) (costs (snd item))).
Proof.
  intros Hall. unfold account_amounts.
  assert (Hamounts : Forall is_int (map amount (costs (snd item)))).
  { apply Forall_map. eapply Forall_impl; [|exact Hall].
    intros r. apply amount_int. }
  destruct (py_sum_int _ Hamounts) as [Hi Hv].
  split; [exact Hi|]. now rewrite Hv, map_map.
Qed.




(** One iteration on int amounts adds the account's amounts to the sum of
    the totals. *)
Lemma aggregate_account_conserves
      (aggregated aggregated' : list (string * bu_aggregate))
      (item : string * account_data) :
  Forall int_record (costs (snd item)) ->
  Forall (fun kv => int_aggregate (snd kv)) aggregated ->
  aggregate_account aggregated item = Ok aggregated' ->
  Qsum (map (fun u => val (total u)) (values aggregated'))
  == Qsum (map (fun u => val (total u)) (values aggregated))
     + val (account_amounts item).
Proof.
  intros Hcosts Hall Hrun.
  destruct (aggregate_account_Ok _ _ _ Hrun) as (t & svcs & Hex).
  cbv zeta in Hex. destruct Hex as (Ht & _ & ->).
  apply sum_amounts_spec in Ht as [-> _].
  fold (account_amounts item).
  set (own := business_unit (snd item)).
  pose proof (default_Forall int_aggregate aggregated own
                int_aggregate_empty Hall) as (Hti & _).
  destruct (account_amounts_int item Hcosts) as [Hai _].
  set (w := fun u : bu_aggregate => val (total u)).
  assert (Hbucket : Qsum (map w (values (with_bucket aggregated own)))
                    == Qsum (map w (values aggregated))).
  { unfold with_bucket, mem.
    destruct (get String.eqb aggregated own) eqn:E; [reflexivity|].
    rewrite (setitem_sum String.eqb w aggregated own empty_aggregate
               empty_aggregate) by reflexivity.
    unfold get_default. rewrite E. unfold w. simpl. lra. }
  rewrite (setitem_sum String.eqb w (with_bucket aggregated own) own
             _ empty_aggregate) by reflexivity.
  rewrite Hbucket. unfold get_default at 1. rewrite with_bucket_get.
  unfold w at 2 3. cbn [total].
  rewrite (val_num_add_int _ _ Hti Hai). lra.
Qed.

Lemma aggregate_from_conserves (l : list (string * account_data))
      (aggregated aggregated' : list (string * bu_aggregate)) :
  int_amounts l ->
  Forall (fun kv => int_aggregate (snd kv)) aggregated ->
  for_each aggregate_account l aggregated = Ok aggregated' ->
  Qsum (map (fun u => val (total u)) (values aggregated'))
  == Qsum (map (fun u => val (total u)) (values aggregated)) + all_amounts l.
Proof.
  revert aggregated; induction l as [|item l IH]; simpl;
    intros aggregated Hint Hall H.
  - inversion H; subst. unfold all_amounts. simpl. lra.
  - destruct (aggregate_account aggregated item) as [agg1|e] eqn:E;
      simpl in H; [|discriminate].
    assert (Hcosts : Forall int_record (costs (snd item))).
    { apply Forall_forall. intros r Hr. apply (Hint item r); simpl; auto. }
    assert (Hint' : int_amounts l).
    { intros it r Hit Hr. apply (Hint it r); simpl; auto. }
    pose proof (aggregate_account_int _ _ _ Hcosts Hall E) as Hall1.
    rewrite (IH agg1 Hint' Hall1 H).
    rewrite (aggregate_account_conserves _ _ _ Hcosts Hall E).
    destruct (account_amounts_int item Hcosts) as [_ Hv]. rewrite Hv.
    unfold all_amounts, all_records. simpl. rewrite map_app, Qsum_app. lra.
Qed.

Lemma total_spend_int (all_costs : list (string * account_data))
      (aggregated : list (string * bu_aggregate)) :
  int_amounts all_costs ->
  _aggregate_by_business_unit all_costs = Ok aggregated ->
  val (total_spend aggregated) == all_amounts all_costs.
Proof.
  intros Hint Hrun.
  pose proof (aggregate_from_int all_costs [] aggregated Hint
                (Forall_nil _) Hrun) as Hall.
  assert (Htotals : Forall is_int (map total (values aggregated))).
  { unfold values. rewrite map_map. apply Forall_map.
    eapply Forall_impl; [|exact Hall]. now intros kv (Hti & _). }
  destruct (py_sum_int _ Htotals) as [_ Hv].
  unfold total_spend. rewrite Hv, map_map.
  rewrite (aggregate_from_conserves all_costs [] aggregated Hint
             (Forall_nil _) Hrun).
  simpl. lra.
Qed.

End Conservation.




(** ** Rounding *)

Import Reconciler.

Lemma Qmake_le_mono (a b : Z) (s : positive) : (a <= b)%Z -> a # s <= b # s.
Proof.
  intros H. unfold Qle. simpl. apply Z.mul_le_mono_nonneg_r; lia.
Qed.

Lemma round_decimal_mono (x y : Q) (n : nat) :
  x <= y -> round_decimal x n <= round_decimal y n.
Proof.
  intros H. unfold round_decimal. apply Qmake_le_mono, round_half_even_mono.
  apply Qmult_le_compat_r; auto. unfold Qle; simpl; lia.
Qed.








(** ** The stable descending sort *)

Section Sorting.
Context {K : Type}.

Lemma insert_desc_perm (x : K * num) (l : list (K * num)) :
  Permutation (insert_desc x l) (x :: l).
Proof.
  induction l as [|y l IH]; simpl; auto.
  destruct (Qltb (snd x) (snd y)); auto.
  rewrite IH. apply perm_swap.
Qed.

Lemma sorted_desc_perm (l : list (K * num)) : Permutation (sorted_desc l) l.
Proof.
  induction l as [|x l IH]; simpl; auto.
  rewrite insert_desc_perm. now constructor.
Qed.

Lemma insert_desc_descending (x : K * num) (l : list (K * num)) :
  descending l -> descending (insert_desc x l).
Proof.
  unfold descending. induction 1 as [|y l Hl IH Hy]; simpl.
  - repeat constructor.
  - destruct (Qltb (snd x) (snd y)) eqn:E.
    + constructor; auto.
      rewrite (Forall_forall (fun y0 : K * num => snd y0 <= snd y)).
      intros z Hz. apply (Permutation_in _ (insert_desc_perm x l)) in Hz.
      destruct Hz as [<-|Hz].
      * apply Qlt_le_weak, Qltb_lt, E.
      * rewrite Forall_forall in Hy. auto.
    + apply Qltb_ge in E. constructor.
      * constructor; auto.
      * constructor; auto.
        apply (Forall_impl _ (P := fun z : K * num => snd z <= snd y)); auto.
        intros z Hz. apply (Qle_trans _ (snd y)); auto.
Qed.

Lemma sorted_desc_descending (l : list (K * num)) : descending (sorted_desc l).
Proof.
  induction l as [|x l IH]; simpl.
  - constructor.
  - now apply insert_desc_descending.
Qed.





End Sorting.


(** ** Reconciliation *)

Section Reconciliation.

Variable budgets : budgets_t.

(** One iteration of the loop returns, and stores [stored_record]. *)
Lemma reconcile_unit_Ok (results : results_t) (bu_name : string)
      (bu_costs : bu_aggregate) :
  exists results',
    reconcile_unit budgets results (bu_name, bu_costs) = Ok results'
    /\ month results' = month results
    /\ units results'
       = setitem String.eqb (units results) bu_name
           (stored_record budgets bu_name bu_costs).
Proof.
  unfold reconcile_unit, stored_record, computed_pct, computed_variance,
    py_div.
  destruct (Qeq_bool (budget_target_of budgets bu_name) 0) eqn:E.
  - eexists. split; [reflexivity|]. split; reflexivity.
  - cbn [bind].
    destruct (Qltb (alert_threshold_of budgets bu_name) _) eqn:Hover;
      [|destruct (Qltb _ (num_neg (alert_threshold_of budgets bu_name)))
          eqn:Hunder];
      (eexists; split; [reflexivity|]; split; reflexivity).
Qed.

Lemma reconcile_from_Ok (l : list (string * bu_aggregate)) (results : results_t) :
  exists results',
    for_each (reconcile_unit budgets) l results = Ok results'
    /\ month results' = month results
    /\ units results' = fold_left (store budgets) l (units results).
Proof.
  revert results; induction l as [|[bu_name bu_costs] l IH];
    cbn [for_each fold_left]; intros results.
  - eauto.
  - destruct (reconcile_unit_Ok results bu_name bu_costs)
      as (r1 & -> & Hm & Hu).
    cbn [bind]. destruct (IH r1) as (r2 & Hrun & Hm2 & Hu2).
    exists r2. split; [exact Hrun|]. split; [congruence|].
    rewrite Hu2, Hu. reflexivity.
Qed.

Lemma store_other (l : list (string * bu_aggregate))
      (us : list (string * unit_record)) (bu_name : string) :
  ~ In bu_name (keys l) ->
  get String.eqb (fold_left (store budgets) l us) bu_name
  = get String.eqb us bu_name.
Proof.
  revert us; induction l as [|[b c] l IH]; simpl; intros us Hnot; auto.
  rewrite IH by tauto. unfold store. simpl.
  apply get_setitem_other; [apply string_eqb_spec|tauto].
Qed.

Lemma store_get (l : list (string * bu_aggregate))
      (us : list (string * unit_record)) (bu_name : string)
      (bu_costs : bu_aggregate) :
  NoDup (keys l) -> In (bu_name, bu_costs) l ->
  get String.eqb (fold_left (store budgets) l us) bu_name
  = Some (stored_record budgets bu_name bu_costs).
Proof.
  revert us; induction l as [|[b c] l IH]; simpl; intros us Hnd Hin;
    [contradiction|].
  inversion Hnd as [|? ? Hb Hnd']; subst.
  destruct Hin as [[= -> ->]|Hin].
  - rewrite store_other by exact Hb. unfold store. simpl.
    apply get_setitem_same, string_eqb_spec.
  - now apply IH.
Qed.

(** [reconcile] returns on every input, with one record per business
    unit of the aggregation. *)
Lemma reconcile_Ok (aggregated : list (string * bu_aggregate)) (mon : string) :
  exists results,
    reconcile budgets aggregated mon = Ok results
    /\ forall bu_name bu_costs,
        NoDup (keys aggregated) -> In (bu_name, bu_costs) aggregated ->
        get String.eqb (units results) bu_name
        = Some (stored_record budgets bu_name bu_costs).
Proof.
  unfold reconcile.
  destruct (reconcile_from_Ok aggregated
              {| month := mon; units := []; total_variances := 0;
                 total_overrun := NInt 0; total_underrun := NInt 0 |})
    as (results & Hrun & _ & Hu).
  exists results. split; [exact Hrun|].
  intros bu_name bu_costs Hnd Hin. rewrite Hu. now apply store_get.
Qed.

End Reconciliation.

(** C9. [reconcile] never divides by a zero budget target: the division
    [variance / budget_target] raises [ZeroDivisionError] on a divisor that
    is zero, int or float, and [reconcile] returns on every input instead of
    raising it, a zero or absent target having taken the NO_BUDGET branch
    before. *)
Theorem reconcile_never_divides_by_zero
        (budgets : budgets_t) (aggregated : list (string * bu_aggregate))
        (mon : string) :
  (forall x y : num, val y == 0 -> py_div x y = Raise ZeroDivisionError)
  /\ reconcile budgets aggregated mon <> Raise ZeroDivisionError
  /\ exists results, reconcile budgets aggregated mon = Ok results.
Proof.
  destruct (reconcile_Ok budgets aggregated mon) as (results & Hrun & _).
  split; [|split; [congruence|eauto]].
  intros x y Hy. unfold py_div. apply Qeq_bool_iff in Hy. now rewrite Hy.
Qed.








(** ** Cost-data validation *)

Import Validators.

Section CostData.

Variable float_repr : Q -> string.

(** What a returning call on a non-empty list has computed. *)
Lemma validate_cost_data_Ok (log log' : list log_entry) (costs : list record)
      (payer_id : string) (result : validation_result) :
  costs <> [] ->
  validate_cost_data float_repr log costs payer_id = Ok (result, log') ->
  exists found total,
    check_records float_repr 0 costs [] = Ok found
    /\ issues result
       = snd (fold_left (check_duplicate float_repr) costs ([], found))
    /\ status result
       = match issues result with
         | [] => PASS
         | _ => if (List.length (issues result) <? 3)%nat then WARN else FAIL
         end
    /\ issue_count result = List.length (issues result)
    /\ record_count result = Some (List.length costs)
    /\ total_amount result = Some total
    /\ checksum result = Some (_checksum float_repr costs)
    /\ log' = _log_validation log "cost_data" payer_id result.
Proof.
  intros Hne. unfold validate_cost_data.
  destruct costs as [|c costs]; [contradiction|].
  destruct (check_records float_repr 0 (c :: costs) []) as [found|e];
    cbn [bind]; [|discriminate].
  destruct (for_each py_add _ (NInt 0)) as [total|e]; cbn [bind]; [|discriminate].
  intros [= <- <-]. exists found, total. cbn [issues status issue_count
    record_count total_amount checksum]. repeat split; reflexivity.
Qed.

Lemma check_record_typed (i : nat) (r : record) (found : list string) :
  typed_record r -> exists found', check_record float_repr i r found = Ok found'.
Proof.
  unfold typed_record, check_record. intros [_ Hd].
  destruct (field r "date") as [[| | | |s]|]; try contradiction; cbn [bind];
    try destruct (strptime_ymd s); cbn [bind]; eauto.
Qed.

Lemma check_records_typed (costs : list record) (i : nat) (found : list string) :
  Forall typed_record costs ->
  exists found', check_records float_repr i costs found = Ok found'.
Proof.
  intros Hall; revert i found.
  induction Hall as [|r costs Hr Hall IH]; intros i found; simpl; eauto.
  destruct (check_record_typed i r found Hr) as [f1 ->]. cbn [bind]. apply IH.
Qed.

Lemma total_amount_typed (costs : list record) (acc : num) :
  Forall typed_record costs ->
  exists total,
    for_each py_add
      (map (fun r => get_default String.eqb r "amount" (VInt 0)) costs) acc
    = Ok total.
Proof.
  intros Hall; revert acc.
  induction Hall as [|r costs [Ha _] Hall IH]; intros acc; simpl; eauto.
  unfold field in Ha. unfold get_default, py_add at 1.
  destruct (get String.eqb r "amount") as [v|].
  - destruct (num_of v) as [q|]; [|contradiction]. cbn [bind]. apply IH.
  - cbn [num_of bind]. apply IH.
Qed.

Lemma validate_cost_data_typed (log : list log_entry) (costs : list record)
      (payer_id : string) :
  Forall typed_record costs ->
  exists result log',
    validate_cost_data float_repr log costs payer_id = Ok (result, log').
Proof.
  intros Hall. unfold validate_cost_data.
  destruct costs as [|c costs]; [eauto|].
  destruct (check_records_typed (c :: costs) 0 [] Hall) as [found ->].
  cbn [bind].
  destruct (total_amount_typed (c :: costs) (NInt 0) Hall) as [total ->].
  cbn [bind]. eauto.
Qed.

End CostData.

(** C7. [validate_cost_data] returns FAIL at once for an empty record list,
    without a log entry; on a non-empty list it returns whenever every amount
    present is a number and every date present is a string, and whenever it
    returns, the status is PASS exactly when no issue was found, WARN exactly
    when one or two were, FAIL exactly when three or more were. *)
Theorem validate_cost_data_status
        (float_repr : Q -> string) (log : list log_entry)
        (costs : list record) (payer_id : string) :
  (costs = [] ->
   exists result,
     validate_cost_data float_repr log costs payer_id = Ok (result, log)
     /\ status result = FAIL)
  /\ (costs <> [] -> Forall typed_record costs ->
      exists result log',
        validate_cost_data float_repr log costs payer_id = Ok (result, log'))
  /\ (forall result log',
        costs <> [] ->
        validate_cost_data float_repr log costs payer_id = Ok (result, log') ->
        issue_count result = List.length (issues result)
        /\ (status result = PASS <-> issue_count result = 0%nat)
        /\ (status result = WARN <-> (1 <= issue_count result <= 2)%nat)
        /\ (status result = FAIL <-> (3 <= issue_count result)%nat)).
Proof.
  split; [|split].
  - intros ->. eexists. split; reflexivity.
  - intros _ Hall. now apply validate_cost_data_typed.
  - intros result log' Hne Hrun.
    destruct (validate_cost_data_Ok float_repr log log' costs payer_id result
                Hne Hrun) as (found & total & _ & _ & Hs & Hc & _).
    rewrite Hs, Hc. split; [reflexivity|].
    destruct (issues result) as [|i1 [|i2 [|i3 rest]]]; simpl;
      repeat split; intros; try discriminate; try lia; reflexivity.
Qed.

Lemma validate_cost_data_status_witness :
  [Examples.bad_date; Examples.ec2_jan15] <> []
  /\ Forall typed_record [Examples.bad_date; Examples.ec2_jan15]
  /\ exists result log',
      validate_cost_data Examples.no_floats []
        [Examples.bad_date; Examples.ec2_jan15] "123456789012"
      = Ok (result, log')
      /\ issue_count result = 2%nat
      /\ status result = WARN.
Proof.
  assert (Hne : [Examples.bad_date; Examples.ec2_jan15] <> []) by discriminate.
  assert (Hall : Forall typed_record [Examples.bad_date; Examples.ec2_jan15]).
  { repeat constructor; simpl; discriminate. }
  split; [exact Hne|]. split; [exact Hall|].
  destruct (validate_cost_data_status Examples.no_floats []
              [Examples.bad_date; Examples.ec2_jan15] "123456789012")
    as (_ & Hret & Hstatus).
  destruct (Hret Hne Hall) as (result & log' & Hrun).
  destruct (Hstatus result log' Hne Hrun) as (_ & _ & Hwarn & _).
  exists result, log'. split; [exact Hrun|].
  assert (Hcount : issue_count result = 2%nat).
  { vm_compute in Hrun. inversion Hrun; subst. reflexivity. }
  split; [exact Hcount|]. apply Hwarn. lia.
Defined.

(** ** Duplicate detection *)

Section Duplicates.

Variable float_repr : Q -> string.

Lemma existsb_eqb_In (k : string) (seen : list string) :
  existsb (String.eqb k) seen = true <-> In k seen.
Proof.
  rewrite existsb_exists. split.
  - intros (x & Hx & E). apply String.eqb_eq in E. now subst.
  - intros H. exists k. split; auto. apply String.eqb_refl.
Qed.

Lemma set_add_In (seen : list string) (k x : string) :
  In x (set_add seen k) <-> In x seen \/ x = k.
Proof.
  unfold set_add. destruct (existsb (String.eqb k) seen) eqn:E.
  - apply existsb_eqb_In in E. split; [tauto|]. intros [?| ->]; auto.
  - rewrite in_app_iff. simpl. intuition.
Qed.

Lemma seen_after_In (l seen : list string) (x : string) :
  In x (fold_left set_add l seen) <-> In x seen \/ In x l.
Proof.
  revert seen; induction l as [|k l IH]; simpl; intros seen; [tauto|].
  rewrite IH, set_add_In. intuition.
Qed.

Lemma repeats_fresh (ks seen : list string) :
  NoDup ks -> (forall x, In x ks -> ~ In x seen) -> repeats seen ks = [].
Proof.
  intros Hnd; revert seen.
  induction Hnd as [|k ks Hk Hnd IH]; simpl; intros seen Hfresh; auto.
  destruct (existsb (String.eqb k) seen) eqn:E.
  - apply existsb_eqb_In in E. exfalso. apply (Hfresh k); auto.
  - simpl. apply IH. intros x Hx Hin. apply set_add_In in Hin as [Hin| ->].
    + apply (Hfresh x); auto.
    + contradiction.
Qed.

Lemma repeats_app (l1 l2 seen : list string) :
  repeats seen (l1 ++ l2)
  = repeats seen l1 ++ repeats (fold_left set_add l1 seen) l2.
Proof.
  revert seen; induction l1 as [|k l1 IH]; simpl; intros seen; auto.
  rewrite IH. now rewrite app_assoc.
Qed.

Lemma NoDup_app_disjoint (l1 l2 : list string) (x : string) :
  NoDup (l1 ++ l2) -> In x l1 -> ~ In x l2.
Proof.
  induction l1 as [|y l1 IH]; simpl; [tauto|].
  intros Hnd [->|Hx] Hx2; inversion Hnd as [|? ? Hy Hnd']; subst.
  - apply Hy, in_or_app. now right.
  - now apply IH.
Qed.

(** A key list with one repeated key and no other coincidence reports
    that key once. *)
Lemma repeats_once (kb km ka : list string) (k : string) :
  NoDup (kb ++ k :: km ++ ka) ->
  repeats [] (kb ++ k :: km ++ k :: ka) = [k].
Proof.
  intros Hnd.
  assert (Hparts : NoDup kb /\ NoDup km /\ NoDup ka
                   /\ ~ In k kb /\ ~ In k km /\ ~ In k ka
                   /\ (forall x, In x km -> ~ In x kb)
                   /\ (forall x, In x ka -> ~ In x kb /\ ~ In x km)).
  { apply NoDup_remove in Hnd as [Hnd Hk].
    rewrite in_app_iff in Hk. rewrite in_app_iff in Hk.
    pose proof (NoDup_app_remove_l _ _ Hnd) as Hma.
    pose proof (NoDup_app_remove_r _ _ Hnd) as Hb.
    pose proof (NoDup_app_remove_l _ _ Hma) as Ha.
    pose proof (NoDup_app_remove_r _ _ Hma) as Hm.
    repeat split; auto; try tauto.
    - intros x Hx Hxb.
      apply (NoDup_app_disjoint kb (km ++ ka) x Hnd Hxb).
      apply in_or_app; auto.
    - intros Hxb.
      apply (NoDup_app_disjoint kb (km ++ ka) x Hnd Hxb).
      apply in_or_app; auto.
    - intros Hxm.
      apply (NoDup_app_disjoint km ka x Hma Hxm). auto. }
  destruct Hparts as (Hb & Hm & Ha & Hkb & Hkm & Hka & Hmb & Hab).
  rewrite repeats_app, (repeats_fresh kb []) by auto.
  set (S1 := fold_left set_add kb []).
  assert (HS1 : forall x, In x S1 <-> In x kb).
  { intros x. unfold S1. rewrite seen_after_In. simpl. tauto. }
  assert (H1 : existsb (String.eqb k) S1 = false).
  { apply not_true_iff_false. intros E.
    apply existsb_eqb_In, HS1 in E. contradiction. }
  cbn [app repeats]. rewrite H1. cbn [app]. rewrite repeats_app.
  set (S2 := set_add S1 k).
  assert (HS2 : forall x, In x S2 <-> In x kb \/ x = k).
  { intros x. unfold S2. rewrite set_add_In, HS1. tauto. }
  rewrite (repeats_fresh km S2); cycle 1.
  { exact Hm. }
  { intros x Hx Hin. apply HS2 in Hin as [Hin| ->]; [|contradiction].
    apply (Hmb x); auto. }
  set (S3 := fold_left set_add km S2).
  assert (HS3 : forall x, In x S3 <-> (In x kb \/ x = k) \/ In x km).
  { intros x. unfold S3. rewrite seen_after_In, HS2. tauto. }
  assert (H3 : existsb (String.eqb k) S3 = true).
  { apply existsb_eqb_In, HS3. auto. }
  cbn [app repeats]. rewrite H3. cbn [app].
  rewrite repeats_fresh; auto.
  intros x Hx Hin. apply set_add_In in Hin as [Hin| ->]; [|contradiction].
  destruct (Hab x Hx) as [Hxb Hxm].
  apply HS3 in Hin as [[Hin| ->]|Hin]; contradiction.
Qed.

(** The duplicate loop reports the repeated keys, in order. *)
Lemma check_duplicates_repeats (costs : list record)
      (seen found : list string) :
  snd (fold_left (check_duplicate float_repr) costs (seen, found))
  = found
    ++ map (fun k => fstr ["Potential duplicate: "; k])
           (repeats seen (map (dup_key float_repr) costs)).
Proof.
  revert seen found; induction costs as [|r costs IH]; intros seen found.
  - simpl. now rewrite app_nil_r.
  - cbn [fold_left map repeats check_duplicate]. rewrite IH.
    destruct (existsb _ seen); cbn [app map].
    + now rewrite <- app_assoc.
    + reflexivity.
Qed.

Lemma same_triple_dup_key (r r' : record) :
  same_triple r r' -> dup_key float_repr r = dup_key float_repr r'.
Proof.
  unfold same_triple, field, dup_key, get_default.
  now intros (-> & -> & ->).
Qed.

Lemma check_record_clean (i : nat) (r : record) (found : list string) :
  clean_record r = true -> check_record float_repr i r found = Ok found.
Proof.
  unfold clean_record, check_record. intros H.
  apply andb_true_iff in H as [H Hs]. apply andb_true_iff in H as [Ha Hd].
  destruct (field r "amount") as [v|]; [|discriminate].
  destruct (num_of v) as [q|]; [|discriminate].
  assert (Hq : Qltb q 0 = false) by (apply Qltb_ge, Qle_bool_iff, Ha).
  rewrite Hq.
  destruct (field r "date") as [[| | | |s]|]; try discriminate.
  rewrite Hd. cbn [bind].
  destruct (field r "service"); [reflexivity|discriminate].
Qed.

Lemma check_records_clean (costs : list record) (i : nat) (found : list string) :
  forallb clean_record costs = true ->
  check_records float_repr i costs found = Ok found.
Proof.
  revert i; induction costs as [|r costs IH]; simpl; intros i H; auto.
  apply andb_true_iff in H as [Hr H].
  rewrite check_record_clean by exact Hr. cbn [bind]. now apply IH.
Qed.

Lemma clean_typed (r : record) : clean_record r = true -> typed_record r.
Proof.
  unfold clean_record, typed_record. intros H.
  apply andb_true_iff in H as [H _]. apply andb_true_iff in H as [Ha Hd].
  split.
  - destruct (field r "amount") as [v|]; auto.
    destruct (num_of v); [discriminate|discriminate].
  - destruct (field r "date") as [[| | | |s]|]; auto; discriminate.
Qed.

End Duplicates.

(** C8. On a list of records that are all clean (a non-negative numeric
    amount, a date that parses, a service), in which two records share date,
    service and amount and no other two records have the same composite
    key, [validate_cost_data] returns, with the one issue
    "Potential duplicate: <key>" and status WARN. *)
Theorem validate_cost_data_one_duplicate
        (float_repr : Q -> string) (log : list log_entry)
        (before between after : list record) (r r' : record)
        (payer_id : string) :
  forallb clean_record (before ++ r :: between ++ r' :: after) = true ->
  same_triple r r' ->
  NoDup (map (dup_key float_repr) (before ++ r :: between ++ after)) ->
  exists result log',
    validate_cost_data float_repr log (before ++ r :: between ++ r' :: after)
                       payer_id
    = Ok (result, log')
    /\ issues result = [fstr ["Potential duplicate: "; dup_key float_repr r]]
    /\ issue_count result = 1%nat
    /\ status result = WARN.
Proof.
  intros Hclean Hsame Hnd.
  set (costs := before ++ r :: between ++ r' :: after) in *.
  assert (Hne : costs <> []) by (subst costs; now destruct before).
  assert (Htyped : Forall typed_record costs).
  { apply Forall_forall. intros x Hx. apply clean_typed.
    rewrite forallb_forall in Hclean. auto. }
  destruct (validate_cost_data_typed float_repr log costs payer_id Htyped)
    as (result & log' & Hrun).
  exists result, log'. split; [exact Hrun|].
  destruct (validate_cost_data_Ok float_repr log log' costs payer_id result
              Hne Hrun) as (found & total & Hf & Hi & Hs & Hc & _).
  rewrite check_records_clean in Hf by exact Hclean. inversion Hf; subst found.
  rewrite check_duplicates_repeats in Hi. cbn [app] in Hi.
  assert (Hkeys : repeats [] (map (dup_key float_repr) costs)
                  = [dup_key float_repr r]).
  { subst costs. rewrite map_app. cbn [map]. rewrite map_app. cbn [map].
    rewrite <- (same_triple_dup_key float_repr r r' Hsame).
    apply repeats_once.
    rewrite map_app in Hnd. cbn [map] in Hnd. rewrite map_app in Hnd.
    exact Hnd. }
  rewrite Hkeys in Hi. cbn [map] in Hi.
  rewrite Hs, Hc, Hi. repeat split; reflexivity.
Qed.

Lemma validate_cost_data_one_duplicate_witness :
  forallb clean_record
          ([] ++ Examples.ec2_jan15
              :: [Examples.rds_jan16] ++ Examples.ec2_jan15 :: []) = true
  /\ same_triple Examples.ec2_jan15 Examples.ec2_jan15
  /\ NoDup (map (dup_key Examples.no_floats)
                ([] ++ Examples.ec2_jan15 :: [Examples.rds_jan16] ++ []))
  /\ exists result log',
      validate_cost_data Examples.no_floats []
        [Examples.ec2_jan15; Examples.rds_jan16; Examples.ec2_jan15]
        "123456789012"
      = Ok (result, log')
      /\ issues result = ["Potential duplicate: 2025-01-15|EC2|7000"]
      /\ status result = WARN.
Proof.
  assert (Hclean : forallb clean_record
                     ([] ++ Examples.ec2_jan15
                         :: [Examples.rds_jan16] ++ Examples.ec2_jan15 :: [])
                   = true) by reflexivity.
  assert (Hsame : same_triple Examples.ec2_jan15 Examples.ec2_jan15)
    by (repeat split; reflexivity).
  assert (Hnd : NoDup (map (dup_key Examples.no_floats)
                           ([] ++ Examples.ec2_jan15
                               :: [Examples.rds_jan16] ++ []))).
  { vm_compute. repeat constructor; simpl; intuition discriminate. }
  split; [exact Hclean|]. split; [exact Hsame|]. split; [exact Hnd|].
  destruct (validate_cost_data_one_duplicate Examples.no_floats []
              [] [Examples.rds_jan16] [] Examples.ec2_jan15 Examples.ec2_jan15
              "123456789012" Hclean Hsame Hnd)
    as (result & log' & Hrun & Hissues & _ & Hstatus).
  exists result, log'. split; [exact Hrun|]. split; [exact Hissues|exact Hstatus].
Defined.

(** ** Upstream defects *)

Section Defects.

Variable float_repr : Q -> string.

Lemma total_amount_raises (costs : list record) (r : record) (v : value)
      (acc : num) :
  In r costs -> field r "amount" = Some v -> num_of v = None ->
  exists e,
    for_each py_add
      (map (fun r => get_default String.eqb r "amount" (VInt 0)) costs) acc
    = Raise e.
Proof.
  intros Hin Hv Hn. revert acc.
  induction costs as [|c costs IH]; [contradiction|]. intros acc.
  cbn [map for_each].
  destruct (py_add acc (get_default String.eqb c "amount" (VInt 0)))
    as [acc'|e] eqn:E; cbn [bind]; [|eauto].
  destruct Hin as [->|Hin]; [|now apply IH].
  unfold field in Hv. unfold get_default, py_add in E.
  rewrite Hv, Hn in E. discriminate.
Qed.

(** Any amount that is not a number makes [validate_cost_data] raise. *)
Lemma validate_cost_data_raises (log : list log_entry) (costs : list record)
      (payer_id : string) (r : record) (v : value) :
  In r costs -> field r "amount" = Some v -> num_of v = None ->
  exists e, validate_cost_data float_repr log costs payer_id = Raise e.
Proof.
  intros Hin Hv Hn. unfold validate_cost_data.
  destruct costs as [|c costs]; [contradiction|].
  destruct (check_records float_repr 0 (c :: costs) []) as [found|e];
    cbn [bind]; [|eauto].
  destruct (total_amount_raises (c :: costs) r v (NInt 0) Hin Hv Hn) as [e ->].
  cbn [bind]. eauto.
Qed.

(** Any record without a numeric amount makes the aggregation raise. *)
Lemma aggregate_raises (all_costs : list (string * account_data))
      (item : string * account_data) (r : record) :
  In item all_costs -> In r (costs (snd item)) -> amount_of r = None ->
  exists e, _aggregate_by_business_unit all_costs = Raise e.
Proof.
  intros Hitem Hr Hnone.
  destruct (_aggregate_by_business_unit all_costs) as [aggregated|e] eqn:Hrun;
    [|eauto].
  exfalso. unfold _aggregate_by_business_unit in Hrun.
  revert Hrun. generalize (@nil (string * bu_aggregate)).
  induction all_costs as [|it l IH]; [contradiction|].
  intros agg0. cbn [for_each].
  destruct (aggregate_account agg0 it) as [agg1|e] eqn:E; cbn [bind];
    [|discriminate].
  destruct Hitem as [->|Hitem]; [|now apply IH].
  destruct (aggregate_account_Ok _ _ _ E) as (t & svcs & Hex).
  cbv zeta in Hex. destruct Hex as (Ht & _).
  apply sum_amounts_spec in Ht as [_ Hall].
  rewrite Forall_forall in Hall. intros _. now apply (Hall r).
Qed.

End Defects.

(** C5. Malformed records do make the pipeline stages raise. On a record
    whose amount is the string "12.50", [validate_cost_data] records the
    issue and then raises [TypeError] when it sums the amounts, and the
    aggregation raises [TypeError]; on a record without an amount the
    aggregation raises [KeyError]. *)
Theorem malformed_records_raise :
  (forall float_repr,
      check_records float_repr 0 [Examples.non_numeric_amount] []
      = Ok ["Record 0: 'amount' is not numeric"])
  /\ (forall float_repr log,
         validate_cost_data float_repr log [Examples.non_numeric_amount]
                            "123456789012"
         = Raise TypeError)
  /\ _aggregate_by_business_unit (Examples.payer [Examples.non_numeric_amount])
     = Raise TypeError
  /\ _aggregate_by_business_unit (Examples.payer [Examples.missing_amount])
     = Raise KeyError.
Proof.
  repeat split; reflexivity.
Qed.

(** ** The checksum *)

Example md5_of_empty :
  Hashlib.md5_hexdigest EmptyString = "d41d8cd98f00b204e9800998ecf8427e".
Proof. vm_compute. reflexivity. Qed.

Example md5_of_abc :
  Hashlib.md5_hexdigest "abc" = "900150983cd24fb0d6963f7d28e17f72".
Proof. vm_compute. reflexivity. Qed.

Example md5_of_two_blocks :
  Hashlib.md5_hexdigest
    "12345678901234567890123456789012345678901234567890123456789012345678901234567890"
  = "57edf4a22be3c955ac49da2e2107b67a".
Proof. vm_compute. reflexivity. Qed.

Lemma string_leb_trans (a b c : string) :
  String.leb a b = true -> String.leb b c = true -> String.leb a c = true.
Proof.
  unfold String.leb. revert b c.
  induction a as [|x a IH]; intros [|y b] [|z c]; simpl; try easy.
  unfold Ascii.compare.
  destruct (N.compare_spec (N_of_ascii x) (N_of_ascii y)) as [Hxy|Hxy|Hxy];
    destruct (N.compare_spec (N_of_ascii y) (N_of_ascii z)) as [Hyz|Hyz|Hyz];
    destruct (N.compare_spec (N_of_ascii x) (N_of_ascii z)) as [Hxz|Hxz|Hxz];
    try easy; try lia.
  apply IH.
Qed.

Section KeyOrder.
Context {V : Type}.

Local Abbreviation key_sorted :=
  (StronglySorted (fun x y : string * V => String.leb (fst x) (fst y) = true)).

Lemma insert_key_perm (x : string * V) (l : list (string * V)) :
  Permutation (insert_key x l) (x :: l).
Proof.
  induction l as [|y l IH]; simpl; auto.
  destruct (String.leb (fst x) (fst y)); auto.
  rewrite IH. apply perm_swap.
Qed.

Lemma sort_keys_perm (l : list (string * V)) : Permutation (sort_keys l) l.
Proof.
  induction l as [|x l IH]; simpl; auto.
  rewrite insert_key_perm. now constructor.
Qed.

Lemma insert_key_sorted (x : string * V) (l : list (string * V)) :
  key_sorted l -> key_sorted (insert_key x l).
Proof.
  induction 1 as [|y l Hl IH Hy]; simpl.
  - repeat constructor.
  - destruct (String.leb (fst x) (fst y)) eqn:E.
    + constructor; [constructor; auto|]. constructor; auto.
      apply (Forall_impl _ (P := fun z => String.leb (fst y) (fst z) = true));
        auto.
      intros z Hz. now apply (string_leb_trans _ (fst y)).
    + constructor; auto.
      rewrite (Forall_forall (fun z => String.leb (fst y) (fst z) = true)).
      intros z Hz. apply (Permutation_in _ (insert_key_perm x l)) in Hz.
      destruct Hz as [<-|Hz].
      * destruct (String.leb_total (fst x) (fst y)); congruence.
      * rewrite Forall_forall in Hy. auto.
Qed.

Lemma sort_keys_sorted (l : list (string * V)) : key_sorted (sort_keys l).
Proof.
  induction l as [|x l IH]; simpl.
  - constructor.
  - now apply insert_key_sorted.
Qed.

Lemma NoDup_keys_inj (l : list (string * V)) (x y : string * V) :
  NoDup (keys l) -> In x l -> In y l -> fst x = fst y -> x = y.
Proof.
  unfold keys. induction l as [|z l IH]; simpl; [tauto|].
  intros Hnd Hx Hy Hk. inversion Hnd as [|? ? Hz Hnd']; subst.
  destruct Hx as [->|Hx], Hy as [->|Hy]; auto.
  - exfalso. apply Hz. rewrite Hk. now apply in_map.
  - exfalso. apply Hz. rewrite <- Hk. now apply in_map.
Qed.

(** A dict has one listing in key order. *)
Lemma key_sorted_unique (l1 l2 : list (string * V)) :
  key_sorted l1 -> key_sorted l2 -> Permutation l1 l2 -> NoDup (keys l1) ->
  l1 = l2.
Proof.
  intros H1; revert l2.
  induction H1 as [|x l1 Hl1 IH Hx]; intros l2 H2 Hp Hnd.
  - now apply Permutation_nil in Hp.
  - destruct H2 as [|y l2 Hl2 Hy].
    { apply Permutation_sym, Permutation_nil in Hp. discriminate. }
    assert (Hxy : x = y).
    { assert (Hyin : In y (x :: l1))
        by (apply (Permutation_in _ (Permutation_sym Hp)); now left).
      assert (Hxin : In x (y :: l2))
        by (apply (Permutation_in _ Hp); now left).
      destruct Hyin as [|Hyin]; auto. destruct Hxin as [|Hxin]; auto.
      rewrite Forall_forall in Hx, Hy.
      apply (NoDup_keys_inj (x :: l1)); auto; [now left|now right|].
      apply String.leb_antisym; auto. }
    subst y. f_equal. apply IH; auto.
    + now apply Permutation_cons_inv in Hp.
    + unfold keys in *. simpl in Hnd. now inversion Hnd.
Qed.

Lemma sort_keys_same (l1 l2 : list (string * V)) :
  NoDup (keys l1) -> Permutation l1 l2 -> sort_keys l1 = sort_keys l2.
Proof.
  intros Hnd Hp. apply key_sorted_unique; auto using sort_keys_sorted.
  - rewrite !sort_keys_perm. exact Hp.
  - unfold keys. apply (Permutation_NoDup (l := map fst l1)); auto.
    apply Permutation_map, Permutation_sym, sort_keys_perm.
Qed.

End KeyOrder.

Lemma json_dumps_same_dicts (float_repr : Q -> string)
      (costs1 costs2 : list record) :
  Forall2 same_dict costs1 costs2 ->
  json_dumps float_repr costs1 = json_dumps float_repr costs2.
Proof.
  intros H.
  assert (Hmap : map (json_dict float_repr) costs1
                 = map (json_dict float_repr) costs2).
  { induction H as [|r1 r2 l1 l2 [Hnd Hp] H IH]; simpl; auto.
    rewrite IH. f_equal. unfold json_dict.
    now rewrite (sort_keys_same r1 r2). }
  unfold json_dumps. now rewrite Hmap.
Qed.

(** C4, as the code has it. The checksum follows the record list in the
    order given: two lists that hold, position by position, records with the
    same fields and values, whatever the insertion order of the fields
    within each record, get the same checksum from [validate_cost_data]. *)
Theorem checksum_key_order_independent
        (float_repr : Q -> string) (log1 log2 log1' log2' : list log_entry)
        (costs1 costs2 : list record) (payer_id : string)
        (result1 result2 : validation_result) :
  Forall2 same_dict costs1 costs2 ->
  validate_cost_data float_repr log1 costs1 payer_id = Ok (result1, log1') ->
  validate_cost_data float_repr log2 costs2 payer_id = Ok (result2, log2') ->
  _checksum float_repr costs1 = _checksum float_repr costs2
  /\ checksum result1 = checksum result2.
Proof.
  intros Hsame Hrun1 Hrun2.
  assert (Heq : _checksum float_repr costs1 = _checksum float_repr costs2).
  { unfold _checksum. now rewrite (json_dumps_same_dicts float_repr costs1 costs2). }
  split; [exact Heq|].
  destruct Hsame as [|r1 r2 l1 l2 Hr Hl].
  - inversion Hrun1; inversion Hrun2; subst. reflexivity.
  - destruct (validate_cost_data_Ok float_repr log1 log1' (r1 :: l1) payer_id
                result1 ltac:(discriminate) Hrun1)
      as (? & ? & _ & _ & _ & _ & _ & _ & -> & _).
    destruct (validate_cost_data_Ok float_repr log2 log2' (r2 :: l2) payer_id
                result2 ltac:(discriminate) Hrun2)
      as (? & ? & _ & _ & _ & _ & _ & _ & -> & _).
    now rewrite Heq.
Qed.

Lemma checksum_key_order_independent_witness :
  Forall2 same_dict [Examples.ec2_jan15] [Examples.ec2_jan15_reversed]
  /\ exists result1 log1 result2 log2,
      validate_cost_data Examples.no_floats [] [Examples.ec2_jan15]
                         "123456789012" = Ok (result1, log1)
      /\ validate_cost_data Examples.no_floats [] [Examples.ec2_jan15_reversed]
                            "123456789012" = Ok (result2, log2)
      /\ checksum result1 = checksum result2.
Proof.
  assert (Hsame : Forall2 same_dict [Examples.ec2_jan15]
                          [Examples.ec2_jan15_reversed]).
  { constructor; [|constructor]. split.
    - repeat constructor; simpl; intuition discriminate.
    - apply (Permutation_rev Examples.ec2_jan15). }
  split; [exact Hsame|].
  destruct (validate_cost_data Examples.no_floats [] [Examples.ec2_jan15]
                               "123456789012")
    as [[result1 log1]|e] eqn:Hrun1; [|vm_compute in Hrun1; discriminate].
  destruct (validate_cost_data Examples.no_floats []
                               [Examples.ec2_jan15_reversed] "123456789012")
    as [[result2 log2]|e] eqn:Hrun2; [|vm_compute in Hrun2; discriminate].
  exists result1, log1, result2, log2.
  split; [reflexivity|]. split; [reflexivity|].
  exact (proj2 (checksum_key_order_independent Examples.no_floats [] [] log1 log2
                  [Examples.ec2_jan15] [Examples.ec2_jan15_reversed]
                  "123456789012" result1 result2 Hsame Hrun1 Hrun2)).
Defined.

(** C4 fails on the code: the same two records in the two possible orders
    get different checksums from [validate_cost_data]. *)
Lemma checksum_depends_on_order :
  Permutation [Examples.ec2_jan15; Examples.rds_jan16]
              [Examples.rds_jan16; Examples.ec2_jan15]
  /\ exists result1 log1 result2 log2,
      validate_cost_data Examples.no_floats []
        [Examples.ec2_jan15; Examples.rds_jan16] "123456789012"
      = Ok (result1, log1)
      /\ validate_cost_data Examples.no_floats []
           [Examples.rds_jan16; Examples.ec2_jan15] "123456789012"
         = Ok (result2, log2)
      /\ checksum result1 = Some "f3e501e325526951978d42b276532b7b"
      /\ checksum result2 = Some "1a2694559ecbdf40cd7f3049c4d71fbf"
      /\ checksum result1 <> checksum result2.
Proof.
  split; [apply perm_swap|].
  destruct (validate_cost_data Examples.no_floats []
              [Examples.ec2_jan15; Examples.rds_jan16] "123456789012")
    as [[result1 log1]|e] eqn:Hrun1; vm_compute in Hrun1; [|discriminate].
  destruct (validate_cost_data Examples.no_floats []
              [Examples.rds_jan16; Examples.ec2_jan15] "123456789012")
    as [[result2 log2]|e] eqn:Hrun2; vm_compute in Hrun2; [|discriminate].
  exists result1, log1, result2, log2.
  inversion Hrun1; subst result1 log1. inversion Hrun2; subst result2 log2.
  repeat split; try reflexivity. discriminate.
Qed.

(** ** The validators on the pipeline's own output *)

(** The account-sum check of [validate_aggregation] compares a number with
    itself on an aggregate of the aggregation: it finds nothing. *)
Lemma account_check_silent (x : num) :
  Qltb (NFloat (1 # 100)) (num_abs (num_sub x x)) = false.
Proof.
  apply Qltb_ge. rewrite val_num_abs, val_num_sub_self.
  cbn [val]. apply (rnd_nonneg (1 # 100)). discriminate.
Qed.

(** The record of a unit over budget by a hair: the status follows the
    computed percentage 10.04, the record stores 10.0. *)
Example status_follows_unrounded_pct :
  exists results u p,
    reconcile [("Platform", [("monthly_target", NInt 10000)])]
              [("Platform", Examples.spent (NInt 11004))]
              "2025-01" = Ok results
    /\ get String.eqb (units results) "Platform" = Some u
    /\ Reconciler.status u = OVERRUN
    /\ variance_pct u = Some p
    /\ val p == 10.
Proof.
  destruct (reconcile [("Platform", [("monthly_target", NInt 10000)])]
              [("Platform", Examples.spent (NInt 11004))] "2025-01")
    as [results|e] eqn:Hrun; vm_compute in Hrun; [|discriminate].
  injection Hrun as <-. do 3 eexists.
  repeat (split; [reflexivity|]). vm_compute. reflexivity.
Qed.

(** The strict comparison is a comparison of floats: 107 against a budget
    of 100 is 7.000000000000001 per cent over and exceeds a threshold of 7,
    and 93 falls below it; the counters follow. *)
Example threshold_met_in_floats :
  exists results over under,
    reconcile [("Over", [("monthly_target", NInt 100);
                         ("alert_threshold_pct", NInt 7)]);
               ("Under", [("monthly_target", NInt 100);
                          ("alert_threshold_pct", NInt 7)])]
              [("Over", Examples.spent (NInt 107));
               ("Under", Examples.spent (NInt 93))]
              "2025-01" = Ok results
    /\ get String.eqb (units results) "Over" = Some over
    /\ get String.eqb (units results) "Under" = Some under
    /\ Reconciler.status over = OVERRUN
    /\ Reconciler.status under = UNDERRUN
    /\ total_variances results = 1%Z
    /\ total_overrun results = NInt 7
    /\ total_underrun results = NInt 7.
Proof.
  destruct (reconcile _ _ _) as [results|e] eqn:Hrun; vm_compute in Hrun;
    [|discriminate].
  inversion Hrun; subst results. do 3 eexists. repeat split; reflexivity.
Qed.

(** * Further properties *)

Import Notions.

(** ** The aggregation: errors, keys, accounts, services *)

Lemma for_each_raises {A S} (P : exn -> Prop) (body : S -> A -> result S) :
  (forall st x e, body st x = Raise e -> P e) ->
  forall l st e, for_each body l st = Raise e -> P e.
Proof.
  intros Hstep l; induction l as [|x l IH]; cbn [for_each]; intros st e Hrun.
  - discriminate.
  - destruct (body st x) as [st1|e1] eqn:Hb; cbn [bind] in Hrun.
    + eapply IH; eauto.
    + inversion Hrun; subst. eapply Hstep; eauto.
Qed.

Lemma add_amount_raises (acc : num) (cost : record) (e : exn) :
  add_amount acc cost = Raise e -> e = KeyError \/ e = TypeError.
Proof.
  unfold add_amount, getitem, py_add.
  destruct (get String.eqb cost "amount") as [v|]; cbn [bind].
  - destruct (num_of v); intros [= <-]; auto.
  - intros [= <-]; auto.
Qed.

Lemma add_service_raises (svcs : list (value * num)) (cost : record) (e : exn) :
  add_service svcs cost = Raise e -> e = KeyError \/ e = TypeError.
Proof.
  unfold add_service, getitem, py_add.
  destruct (get String.eqb cost "amount") as [v|]; cbn [bind].
  - destruct (num_of v); cbn [bind]; intros [= <-]; auto.
  - intros [= <-]; auto.
Qed.

Lemma aggregate_account_raises (aggregated : list (string * bu_aggregate))
      (item : string * account_data) (e : exn) :
  aggregate_account aggregated item = Raise e -> e = KeyError \/ e = TypeError.
Proof.
  destruct item as [account_id data]. unfold aggregate_account.
  destruct (sum_amounts (costs data)) as [t|e1] eqn:Ht; cbn [bind].
  - unfold getitem. rewrite with_bucket_get. cbn [bind].
    destruct (for_each add_service _ _) as [svcs|e2] eqn:Hs; cbn [bind];
      [discriminate|].
    intros [= <-].
    apply (for_each_raises (fun e => e = KeyError \/ e = TypeError) add_service
             add_service_raises _ _ _ Hs).
  - intros [= <-].
    apply (for_each_raises (fun e => e = KeyError \/ e = TypeError) add_amount
             add_amount_raises _ _ _ Ht).
Qed.

(** The aggregation returns exactly on the inputs whose cost records all
    carry a numeric amount; on the others it raises [KeyError] (a record
    without the field) or [TypeError] (an amount that is not a number). *)
Theorem aggregate_returns_iff_well_formed
        (all_costs : list (string * account_data)) :
  ((exists aggregated, _aggregate_by_business_unit all_costs = Ok aggregated)
   <-> well_formed all_costs)
  /\ (forall e, _aggregate_by_business_unit all_costs = Raise e ->
                e = KeyError \/ e = TypeError).
Proof.
  split; [split|].
  - intros [aggregated Hrun] item r Hitem Hr Hnone.
    destruct (aggregate_raises all_costs item r Hitem Hr Hnone) as [e He].
    congruence.
  - apply aggregate_from_total.
  - intros e. unfold _aggregate_by_business_unit.
    apply (for_each_raises (fun e => e = KeyError \/ e = TypeError)
             aggregate_account aggregate_account_raises).
Qed.

Lemma mem_existsb {V} (d : list (string * V)) (k : string) :
  mem String.eqb d k = existsb (String.eqb k) (keys d).
Proof.
  unfold mem, keys. induction d as [|[k0 v0] d IH]; cbn [get map existsb fst]; auto.
  rewrite (String.eqb_sym k k0). destruct (String.eqb k0 k); auto.
Qed.

Lemma aggregate_account_keys (aggregated aggregated' : list (string * bu_aggregate))
      (item : string * account_data) :
  aggregate_account aggregated item = Ok aggregated' ->
  keys aggregated'
  = keys aggregated
    ++ (if existsb (String.eqb (business_unit (snd item))) (keys aggregated)
        then [] else [business_unit (snd item)]).
Proof.
  intros Hrun. destruct (aggregate_account_Ok _ _ _ Hrun) as (t & svcs & Hex).
  cbv zeta in Hex. destruct Hex as (_ & _ & ->).
  rewrite keys_setitem. unfold mem at 1. rewrite with_bucket_get.
  unfold with_bucket. rewrite <- mem_existsb.
  destruct (mem String.eqb aggregated (business_unit (snd item))) eqn:E.
  - now rewrite app_nil_r.
  - rewrite keys_setitem, E. reflexivity.
Qed.

Lemma aggregate_from_keys (l : list (string * account_data))
      (aggregated aggregated' : list (string * bu_aggregate)) :
  for_each aggregate_account l aggregated = Ok aggregated' ->
  keys aggregated'
  = keys aggregated
    ++ unseen (keys aggregated) (map (fun item => business_unit (snd item)) l).
Proof.
  revert aggregated; induction l as [|item l IH]; cbn [for_each map unseen];
    intros aggregated Hrun.
  - inversion Hrun; subst. now rewrite app_nil_r.
  - destruct (aggregate_account aggregated item) as [agg1|e] eqn:E;
      cbn [bind] in Hrun; [|discriminate].
    rewrite (IH _ Hrun), (aggregate_account_keys _ _ _ E).
    destruct (existsb _ (keys aggregated)).
    + now rewrite app_nil_r.
    + now rewrite <- app_assoc.
Qed.

(** The aggregation has one aggregate per distinct business unit, in the
    order in which the business units are first met among the accounts. *)
Theorem aggregate_keys_first_seen
        (all_costs : list (string * account_data))
        (aggregated : list (string * bu_aggregate)) :
  _aggregate_by_business_unit all_costs = Ok aggregated ->
  keys aggregated
  = first_occurrences (map (fun item => business_unit (snd item)) all_costs)
  /\ (List.length aggregated <= List.length all_costs)%nat.
Proof.
  intros Hrun. pose proof (aggregate_from_keys all_costs [] aggregated Hrun) as Hk.
  cbn [keys map app] in Hk. fold (keys aggregated) in Hk.
  split; [exact Hk|].
  assert (Hlen : forall l seen, (List.length (unseen seen l) <= List.length l)%nat).
  { induction l as [|x l IH]; intros seen; cbn [unseen]; auto.
    destruct (existsb _ seen); cbn [List.length].
    - specialize (IH seen). lia.
    - specialize (IH (seen ++ [x])). lia. }
  unfold keys in Hk.
  rewrite <- (length_map fst aggregated), Hk.
  rewrite <- (length_map (fun item => business_unit (snd item)) all_costs).
  apply Hlen.
Qed.

Lemma aggregate_keys_first_seen_witness :
  _aggregate_by_business_unit Examples.all_costs = Ok Examples.aggregated
  /\ keys Examples.aggregated = ["Engineering"; "Sandbox"]
  /\ (List.length Examples.aggregated <= List.length Examples.all_costs)%nat.
Proof.
  assert (Hrun : _aggregate_by_business_unit Examples.all_costs
                 = Ok Examples.aggregated) by reflexivity.
  split; [exact Hrun|].
  destruct (aggregate_keys_first_seen Examples.all_costs Examples.aggregated Hrun)
    as [Hk Hlen].
  split; [rewrite Hk; reflexivity|exact Hlen].
Defined.

Lemma unit_at_step (aggregated aggregated' : list (string * bu_aggregate))
      (item : string * account_data) :
  aggregate_account aggregated item = Ok aggregated' ->
  exists t svcs,
    sum_amounts (costs (snd item)) = Ok t
    /\ for_each add_service (costs (snd item))
         (services (get_default String.eqb aggregated
                      (business_unit (snd item)) empty_aggregate))
       = Ok svcs
    /\ forall bu,
        get_default String.eqb aggregated' bu empty_aggregate
        = if String.eqb (business_unit (snd item)) bu then
            let unit := get_default String.eqb aggregated bu empty_aggregate in
            {| total := num_add (total unit) t;
               accounts := accounts unit
                           ++ [{| id := fst item; acc_name := name (snd item);
                                  acc_total := t |}];
               services := svcs |}
          else get_default String.eqb aggregated bu empty_aggregate.
Proof.
  intros Hrun. destruct (aggregate_account_Ok _ _ _ Hrun) as (t & svcs & Hex).
  cbv zeta in Hex. destruct Hex as (Ht & Hs & ->).
  exists t, svcs. split; [exact Ht|]. split; [exact Hs|].
  intros bu. unfold get_default at 1.
  destruct (String.eqb_spec (business_unit (snd item)) bu) as [<-|Hne].
  - rewrite get_setitem_same by apply string_eqb_spec. reflexivity.
  - rewrite get_setitem_other by auto using string_eqb_spec.
    rewrite with_bucket_get_other by auto. reflexivity.
Qed.

Lemma aggregate_from_accounts (l : list (string * account_data))
      (aggregated aggregated' : list (string * bu_aggregate)) (bu : string)
      (before : list (string * account_data)) :
  for_each aggregate_account l aggregated = Ok aggregated' ->
  Forall2 entry_of
          (accounts (get_default String.eqb aggregated bu empty_aggregate))
          before ->
  Forall2 entry_of
          (accounts (get_default String.eqb aggregated' bu empty_aggregate))
          (before ++ accounts_of bu l).
Proof.
  revert aggregated before; induction l as [|item l IH];
    cbn [for_each]; intros aggregated before Hrun Hbefore.
  - inversion Hrun; subst. unfold accounts_of. cbn [filter].
    now rewrite app_nil_r.
  - destruct (aggregate_account aggregated item) as [agg1|e] eqn:E;
      cbn [bind] in Hrun; [|discriminate].
    destruct (unit_at_step _ _ _ E) as (t & svcs & Ht & _ & Hat).
    unfold accounts_of. cbn [filter]. fold (accounts_of bu l).
    specialize (Hat bu).
    destruct (String.eqb (business_unit (snd item)) bu) eqn:Ebu.
    + replace (before ++ item :: accounts_of bu l)
        with ((before ++ [item]) ++ accounts_of bu l)
        by (now rewrite <- app_assoc).
      apply (IH agg1); [exact Hrun|]. rewrite Hat. cbn [accounts].
      apply Forall2_app; [exact Hbefore|]. constructor; [|constructor].
      pose proof (sum_amounts_spec _ _ Ht) as [Hsum _].
      repeat split; auto.
    + apply (IH agg1); [exact Hrun|]. now rewrite Hat.
Qed.



(** *** Equality of dict keys *)

Lemma Qeq_bool_trans_l (p q r : Q) :
  Qeq_bool p q = true -> Qeq_bool p r = Qeq_bool q r.
Proof.
  intros H. apply Qeq_bool_iff in H.
  destruct (Qeq_bool p r) eqn:E1; destruct (Qeq_bool q r) eqn:E2; auto.
  - apply Qeq_bool_iff in E1. apply Qeq_bool_neq in E2.
    exfalso. apply E2. now rewrite <- H.
  - apply Qeq_bool_iff in E2. apply Qeq_bool_neq in E1.
    exfalso. apply E1. now rewrite H.
Qed.

Lemma Qeq_bool_sym (p q : Q) : Qeq_bool p q = Qeq_bool q p.
Proof.
  destruct (Qeq_bool p q) eqn:E1; destruct (Qeq_bool q p) eqn:E2; auto.
  - apply Qeq_bool_iff in E1. apply Qeq_bool_neq in E2.
    exfalso. apply E2. now symmetry.
  - apply Qeq_bool_iff in E2. apply Qeq_bool_neq in E1.
    exfalso. apply E1. now symmetry.
Qed.

Lemma py_eqb_sym (v w : value) : py_eqb v w = py_eqb w v.
Proof.
  destruct v, w; cbn [py_eqb num_of]; auto using Qeq_bool_sym, String.eqb_sym.
Qed.

Lemma py_eqb_trans_l (a b c : value) :
  py_eqb a b = true -> py_eqb a c = py_eqb b c.
Proof.
  destruct a, b; cbn [py_eqb num_of]; try discriminate; intros H;
    try (apply String.eqb_eq in H; subst; reflexivity);
    destruct c; cbn [py_eqb num_of]; auto using Qeq_bool_trans_l.
Qed.

Section KeyEquality.
Context {K V : Type} (eqb : K -> K -> bool).
Hypothesis eqb_sym : forall a b, eqb a b = eqb b a.
Hypothesis eqb_trans_l : forall a b c, eqb a b = true -> eqb a c = eqb b c.

Lemma get_setitem_eqb (d : list (K * V)) (k k' : K) (v : V) :
  get eqb (setitem eqb d k v) k'
  = if eqb k k' then Some v else get eqb d k'.
Proof.
  induction d as [|[k0 v0] d IH]; cbn [setitem get]; auto.
  destruct (eqb k0 k) eqn:E; cbn [get].
  - rewrite (eqb_trans_l k0 k k' E). now destruct (eqb k k').
  - rewrite IH. destruct (eqb k0 k') eqn:E0; auto.
    destruct (eqb k k') eqn:E1; auto.
    rewrite (eqb_trans_l k0 k' k E0), (eqb_sym k' k), E1 in E. discriminate.
Qed.

Lemma get_eqb_query (d : list (K * V)) (a b : K) :
  eqb a b = true -> get eqb d a = get eqb d b.
Proof.
  intros H. induction d as [|[k0 v0] d IH]; cbn [get]; auto.
  rewrite (eqb_sym k0 a), (eqb_sym k0 b), (eqb_trans_l a b k0 H). now rewrite IH.
Qed.

End KeyEquality.

(** *** Service subtotals *)

Lemma add_services_lookup (costs : list record) (svcs svcs' : list (value * num))
      (s : value) :
  for_each add_service costs svcs = Ok svcs' ->
  get_default py_eqb svcs' s (NInt 0)
  = fold_left num_add
      (map Spec.amount (filter (fun r => py_eqb (service_of r) s) costs))
      (get_default py_eqb svcs s (NInt 0))
  /\ mem py_eqb svcs' s
     = (mem py_eqb svcs s
        || existsb (fun r => py_eqb (service_of r) s) costs)%bool.
Proof.
  revert svcs; induction costs as [|c costs IH];
    cbn [for_each existsb filter map fold_left]; intros svcs Hrun.
  - inversion Hrun; subst. split; [reflexivity|now rewrite orb_false_r].
  - destruct (add_service svcs c) as [s1|e] eqn:E; cbn [bind] in Hrun;
      [|discriminate].
    apply add_service_Ok in E. cbv zeta in E. fold (service_of c) in E.
    destruct (IH _ Hrun) as [Hv Hm].
    rewrite Hv, Hm. subst s1.
    unfold get_default, mem.
    rewrite (get_setitem_eqb py_eqb py_eqb_sym py_eqb_trans_l).
    destruct (py_eqb (service_of c) s) eqn:Es.
    + rewrite (get_eqb_query py_eqb py_eqb_sym py_eqb_trans_l svcs _ _ Es).
      cbn [map fold_left]. split; [reflexivity|]. now rewrite orb_true_r.
    + split; reflexivity.
Qed.

Lemma aggregate_from_services (l : list (string * account_data))
      (aggregated aggregated' : list (string * bu_aggregate)) (bu : string)
      (s : value) :
  for_each aggregate_account l aggregated = Ok aggregated' ->
  get_default py_eqb
    (services (get_default String.eqb aggregated' bu empty_aggregate)) s
    (NInt 0)
  = fold_left num_add
      (map Spec.amount
           (filter (fun r => py_eqb (service_of r) s) (unit_records bu l)))
      (get_default py_eqb
         (services (get_default String.eqb aggregated bu empty_aggregate)) s
         (NInt 0))
  /\ mem py_eqb
       (services (get_default String.eqb aggregated' bu empty_aggregate)) s
     = (mem py_eqb
          (services (get_default String.eqb aggregated bu empty_aggregate)) s
        || existsb (fun r => py_eqb (service_of r) s) (unit_records bu l))%bool.
Proof.
  revert aggregated; induction l as [|item l IH]; cbn [for_each];
    intros aggregated Hrun.
  - inversion Hrun; subst. unfold unit_records, accounts_of.
    cbn [filter flat_map map fold_left existsb].
    split; [reflexivity|now rewrite orb_false_r].
  - destruct (aggregate_account aggregated item) as [agg1|e] eqn:E;
      cbn [bind] in Hrun; [|discriminate].
    destruct (unit_at_step _ _ _ E) as (t & svcs & _ & Hs & Hat).
    destruct (IH _ Hrun) as [Hv Hm]. rewrite Hv, Hm, (Hat bu).
    unfold unit_records, accounts_of. cbn [filter].
    destruct (String.eqb_spec (business_unit (snd item)) bu) as [<-|Hne].
    + cbn [flat_map services existsb].
      destruct (add_services_lookup _ _ _ s Hs) as [Hv1 Hm1].
      rewrite Hv1, Hm1, filter_app, map_app, fold_left_app, existsb_app.
      split; [reflexivity|now rewrite orb_assoc].
    + split; reflexivity.
Qed.

(** The subtotal a business unit records for a service is the sum of the
    amounts of the unit's records booked under that service ("Other" for a
    record without one), added from left to right in the order of the
    records, and the services dict has a key for a service exactly when the
    unit has such a record. *)
Theorem aggregate_service_subtotals
        (all_costs : list (string * account_data))
        (aggregated : list (string * bu_aggregate))
        (bu : string) (unit : bu_aggregate) (s : value) :
  _aggregate_by_business_unit all_costs = Ok aggregated ->
  In (bu, unit) aggregated ->
  get_default py_eqb (services unit) s (NInt 0)
  = service_amounts s (unit_records bu all_costs)
  /\ (mem py_eqb (services unit) s = true
      <-> exists r, In r (unit_records bu all_costs)
                    /\ py_eqb (service_of r) s = true).
Proof.
  intros Hrun Hin.
  destruct (aggregate_units _ _ Hrun) as (Hnd & _).
  apply (In_get String.eqb string_eqb_spec) in Hin; [|exact Hnd].
  destruct (aggregate_from_services all_costs [] aggregated bu s Hrun) as [Hv Hm].
  assert (Hu : get_default String.eqb aggregated bu empty_aggregate = unit)
    by (unfold get_default; now rewrite Hin).
  rewrite Hu in Hv, Hm.
  change (get_default String.eqb [] bu empty_aggregate) with empty_aggregate
    in Hv, Hm.
  change (services empty_aggregate) with (@nil (value * num)) in Hv, Hm.
  change (get_default py_eqb [] s (NInt 0)) with (NInt 0) in Hv.
  change (mem py_eqb (@nil (value * num)) s) with false in Hm.
  split.
  - exact Hv.
  - rewrite Hm. cbn [orb]. apply existsb_exists.
Qed.

Lemma aggregate_service_subtotals_witness :
  _aggregate_by_business_unit Examples.all_costs = Ok Examples.aggregated
  /\ In ("Engineering", Examples.engineering) Examples.aggregated
  /\ val (get_default py_eqb (services Examples.engineering) (VStr "S3")
            (NInt 0)) == 2999.5
  /\ mem py_eqb (services Examples.engineering) (VStr "RDS") = false.
Proof.
  assert (Hrun : _aggregate_by_business_unit Examples.all_costs
                 = Ok Examples.aggregated) by reflexivity.
  assert (Hin : In ("Engineering", Examples.engineering) Examples.aggregated)
    by (left; reflexivity).
  split; [exact Hrun|]. split; [exact Hin|].
  destruct (aggregate_service_subtotals Examples.all_costs Examples.aggregated
              "Engineering" Examples.engineering (VStr "S3") Hrun Hin)
    as [Hv _].
  split; [rewrite Hv; vm_compute; reflexivity|reflexivity].
Defined.

(** ** The reconciliation: records and counters *)

Section ReconcileCounters.

Variable budgets : budgets_t.

Lemma setitem_fresh {V} (d : list (string * V)) (k : string) (v : V) :
  ~ In k (keys d) -> setitem String.eqb d k v = d ++ [(k, v)].
Proof.
  unfold keys. induction d as [|[k0 v0] d IH]; cbn [setitem map fst app In]; auto.
  intros Hk. destruct (String.eqb_spec k0 k) as [->|_]; [tauto|].
  rewrite IH by tauto. reflexivity.
Qed.

Lemma store_fresh (l : list (string * bu_aggregate))
      (us : list (string * unit_record)) :
  NoDup (keys us ++ keys l) ->
  fold_left (store budgets) l us
  = us ++ map (fun item => (fst item,
                            stored_record budgets (fst item) (snd item))) l.
Proof.
  revert us; induction l as [|[b c] l IH]; cbn [fold_left map]; intros us Hnd.
  - now rewrite app_nil_r.
  - unfold store at 2. cbn [fst snd]. unfold keys in Hnd. cbn [map fst] in Hnd.
    rewrite setitem_fresh.
    + rewrite IH.
      * now rewrite <- app_assoc.
      * unfold keys. rewrite map_app. cbn [map fst]. rewrite <- app_assoc. exact Hnd.
    + apply NoDup_remove_2 in Hnd. intros Hin. apply Hnd, in_or_app. now left.
Qed.

(** What one iteration does to the counters. *)
Lemma reconcile_unit_counters (results : results_t)
      (item : string * bu_aggregate) :
  exists results',
    reconcile_unit budgets results item = Ok results'
    /\ total_variances results'
       = (total_variances results
          + if same_status (status_under budgets item) OVERRUN then 1 else 0)%Z
    /\ total_overrun results'
       = (if same_status (status_under budgets item) OVERRUN
          then num_add (total_overrun results) (variance_of budgets item)
          else total_overrun results)
    /\ total_underrun results'
       = (if same_status (status_under budgets item) UNDERRUN
          then num_add (total_underrun results)
                       (num_abs (variance_of budgets item))
          else total_underrun results).
Proof.
  destruct item as [bu_name bu_costs].
  unfold reconcile_unit, status_under, variance_of, stored_record,
    computed_pct, computed_variance, py_div.
  cbn [fst snd].
  destruct (Qeq_bool (budget_target_of budgets bu_name) 0) eqn:E.
  - eexists. split; [reflexivity|].
    cbn [Reconciler.status same_status set_unit total_variances total_overrun
         total_underrun].
    repeat split; lia.
  - cbn [bind].
    destruct (Qltb (alert_threshold_of budgets bu_name) _) eqn:Hover;
      [|destruct (Qltb _ (num_neg (alert_threshold_of budgets bu_name)))
          eqn:Hunder];
      (eexists; split; [reflexivity|]);
      cbn [Reconciler.status same_status set_unit total_variances total_overrun
           total_underrun];
      repeat split; lia.
Qed.

Lemma reconcile_from_counters (l : list (string * bu_aggregate))
      (results : results_t) :
  exists results',
    for_each (reconcile_unit budgets) l results = Ok results'
    /\ total_variances results'
       = (total_variances results
          + Z.of_nat (List.length (units_with budgets OVERRUN l)))%Z
    /\ total_overrun results'
       = fold_left num_add
           (map (variance_of budgets) (units_with budgets OVERRUN l))
           (total_overrun results)
    /\ total_underrun results'
       = fold_left num_add
           (map (fun item => num_abs (variance_of budgets item))
                (units_with budgets UNDERRUN l))
           (total_underrun results).
Proof.
  revert results; induction l as [|item l IH]; cbn [for_each]; intros results.
  - exists results. unfold units_with.
    cbn [filter map fold_left List.length]. repeat split. lia.
  - destruct (reconcile_unit_counters results item) as (r1 & -> & Hv & Ho & Hu).
    cbn [bind]. destruct (IH r1) as (r2 & Hrun & Hv2 & Ho2 & Hu2).
    exists r2. split; [exact Hrun|].
    unfold units_with in *. cbn [filter].
    rewrite Hv2, Ho2, Hu2, Hv, Ho, Hu.
    destruct (same_status (status_under budgets item) OVERRUN);
      destruct (same_status (status_under budgets item) UNDERRUN);
      cbn [map fold_left List.length]; repeat split; lia.
Qed.

End ReconcileCounters.

(** [reconcile] keeps one record per business unit, in the order of the
    aggregation, and its counters are those of the statuses it gave:
    [total_variances] counts the OVERRUN records, [total_overrun] is the sum
    of actual minus budget over the OVERRUN units and [total_underrun] the
    sum of its absolute value over the UNDERRUN units, both added from left
    to right in the order of the units as [sum] would; [total_underrun] is
    never negative. *)
Theorem reconcile_counters
        (budgets : budgets_t) (aggregated : list (string * bu_aggregate))
        (mon : string) :
  NoDup (keys aggregated) ->
  exists results,
    reconcile budgets aggregated mon = Ok results
    /\ month results = mon
    /\ keys (units results) = keys aggregated
    /\ total_variances results
       = Z.of_nat (List.length (records_with OVERRUN (units results)))
    /\ total_overrun results
       = py_sum (map (variance_of budgets)
                     (units_with budgets OVERRUN aggregated))
    /\ total_underrun results
       = py_sum (map (fun item => num_abs (variance_of budgets item))
                     (units_with budgets UNDERRUN aggregated))
    /\ 0 <= total_underrun results.
Proof.
  intros Hnd. unfold reconcile.
  set (start := {| month := mon; units := []; total_variances := 0;
                   total_overrun := NInt 0; total_underrun := NInt 0 |}).
  destruct (reconcile_from_counters budgets aggregated start)
    as (results & Hrun & Hv & Ho & Hu).
  destruct (reconcile_from_Ok budgets aggregated start)
    as (results' & Hrun' & Hm & Hunits).
  rewrite Hrun in Hrun'. inversion Hrun'; subst results'. clear Hrun'.
  rewrite store_fresh in Hunits by exact Hnd.
  cbn [start units month total_variances total_overrun total_underrun app]
    in Hunits, Hm, Hv, Ho, Hu.
  exists results. split; [exact Hrun|]. split; [exact Hm|].
  assert (Hrec : forall s,
             List.length (records_with s (units results))
             = List.length (units_with budgets s aggregated)).
  { intros s. rewrite Hunits. unfold records_with, units_with, status_under.
    clear. induction aggregated as [|item l IH]; cbn [map filter fst snd]; auto.
    destruct (same_status _ s); cbn [List.length]; now rewrite IH. }
  split; [|split; [|split; [|split]]].
  - rewrite Hunits. unfold keys. rewrite map_map. cbn [fst]. reflexivity.
  - rewrite Hv, Hrec. lia.
  - exact Ho.
  - exact Hu.
  - rewrite Hu. apply fold_num_add_nonneg; [discriminate|].
    apply Forall_map, Forall_forall. intros item _.
    apply val_num_abs_nonneg.
Qed.

Lemma reconcile_counters_witness :
  NoDup (keys Examples.aggregated)
  /\ exists results,
      reconcile Examples.budgets Examples.aggregated "2025-01" = Ok results
      /\ keys (units results) = ["Engineering"; "Sandbox"]
      /\ total_variances results = 1%Z
      /\ val (total_overrun results) == 2000
      /\ val (total_underrun results) == 0.
Proof.
  assert (Hnd : NoDup (keys Examples.aggregated)).
  { repeat constructor; simpl; intuition discriminate. }
  split; [exact Hnd|].
  destruct (reconcile_counters Examples.budgets Examples.aggregated "2025-01" Hnd)
    as (results & Hrun & _ & Hk & _ & Ho & Hu & _).
  exists results. split; [exact Hrun|]. split; [exact Hk|].
  split; [|split].
  - vm_compute in Hrun. inversion Hrun; subst results. reflexivity.
  - rewrite Ho. vm_compute. reflexivity.
  - rewrite Hu. vm_compute. reflexivity.
Defined.

Lemma status_under_no_budget (budgets : budgets_t)
      (item : string * bu_aggregate) :
  budget_target_of budgets (fst item) == 0 ->
  stored_record budgets (fst item) (snd item)
  = {| actual := total (snd item);
       budget := None;
       variance := None;
       variance_pct := None;
       Reconciler.status := NO_BUDGET;
       alert_threshold_pct := None;
       top_cost_drivers := None;
       unit_accounts := None;
       message := Some "No budget configured for this business unit" |}.
Proof.
  intros H. apply Qeq_bool_iff in H. unfold stored_record. now rewrite H.
Qed.

(** Where no business unit of the aggregation has a budget target (none
    configured, or zero), as when the budgets file is missing, every unit is
    reported NO_BUDGET with its total as [actual], unrounded, and without
    variance or cost drivers, and all three counters stay at zero. *)
Theorem reconcile_without_budget
        (budgets : budgets_t) (aggregated : list (string * bu_aggregate))
        (mon : string) :
  NoDup (keys aggregated) ->
  (forall bu_name, In bu_name (keys aggregated) ->
                   budget_target_of budgets bu_name == 0) ->
  exists results,
    reconcile budgets aggregated mon = Ok results
    /\ total_variances results = 0%Z
    /\ total_overrun results == 0
    /\ total_underrun results == 0
    /\ forall bu_name bu_costs,
        In (bu_name, bu_costs) aggregated ->
        exists u,
          get String.eqb (units results) bu_name = Some u
          /\ Reconciler.status u = NO_BUDGET
          /\ actual u = total bu_costs
          /\ budget u = None
          /\ variance u = None
          /\ variance_pct u = None
          /\ top_cost_drivers u = None.
Proof.
  intros Hnd Hnone. unfold reconcile.
  set (start := {| month := mon; units := []; total_variances := 0;
                   total_overrun := NInt 0; total_underrun := NInt 0 |}).
  destruct (reconcile_from_counters budgets aggregated start)
    as (results & Hrun & Hv & Ho & Hu).
  destruct (reconcile_Ok budgets aggregated mon) as (results' & Hrun' & Hget).
  unfold reconcile in Hrun'. fold start in Hrun'.
  rewrite Hrun in Hrun'. inversion Hrun'; subst results'. clear Hrun'.
  assert (Hempty : forall s, s <> NO_BUDGET ->
                             units_with budgets s aggregated = []).
  { intros s Hs. unfold units_with, status_under.
    assert (Hall : forall item, In item aggregated ->
                                budget_target_of budgets (fst item) == 0).
    { intros item Hitem. apply Hnone. unfold keys. now apply in_map. }
    clear - Hall Hs. induction aggregated as [|item l IH]; cbn [filter]; auto.
    rewrite (status_under_no_budget budgets item) by (apply Hall; now left).
    cbn [Reconciler.status]. rewrite IH by (intros x Hx; apply Hall; now right).
    destruct s; cbn [same_status]; congruence. }
  rewrite (Hempty OVERRUN) in Hv, Ho by discriminate.
  rewrite (Hempty UNDERRUN) in Hu by discriminate.
  cbn [start total_variances total_overrun total_underrun List.length map] in Hv, Ho, Hu.
  exists results. split; [exact Hrun|].
  split; [rewrite Hv; reflexivity|].
  split; [rewrite Ho; reflexivity|]. split; [rewrite Hu; reflexivity|].
  intros bu_name bu_costs Hin.
  exists (stored_record budgets bu_name bu_costs).
  split; [now apply Hget|].
  pose proof (status_under_no_budget budgets (bu_name, bu_costs)) as Hrec.
  cbn [fst snd] in Hrec. rewrite Hrec.
  - repeat split; reflexivity.
  - apply Hnone. unfold keys. now apply (in_map fst) in Hin.
Qed.

Lemma reconcile_without_budget_witness :
  NoDup (keys Examples.aggregated)
  /\ (forall bu_name, In bu_name (keys Examples.aggregated) ->
                      budget_target_of [] bu_name == 0)
  /\ exists results u,
      reconcile [] Examples.aggregated "2025-01" = Ok results
      /\ total_variances results = 0%Z
      /\ get String.eqb (units results) "Sandbox" = Some u
      /\ Reconciler.status u = NO_BUDGET
      /\ actual u = total Examples.sandbox.
Proof.
  assert (Hnd : NoDup (keys Examples.aggregated)).
  { repeat constructor; simpl; intuition discriminate. }
  assert (Hnone : forall bu_name, In bu_name (keys Examples.aggregated) ->
                                  budget_target_of [] bu_name == 0)
    by (intros; reflexivity).
  split; [exact Hnd|]. split; [exact Hnone|].
  destruct (reconcile_without_budget [] Examples.aggregated "2025-01" Hnd Hnone)
    as (results & Hrun & Hv & _ & _ & Hunits).
  destruct (Hunits "Sandbox" Examples.sandbox) as (u & Hget & Hs & Ha & _).
  { right; left; reflexivity. }
  exists results, u. repeat (split; [assumption|]). exact Ha.
Defined.

(** ** Over and under budget *)

Lemma rnd_pos_inv (x : Q) : 0 < rnd x -> 0 < x.
Proof.
  intros H. apply Qnot_le_lt. intros Hx.
  pose proof (rnd_nonpos x Hx). lra.
Qed.

Lemma rnd_neg_inv (x : Q) : rnd x < 0 -> x < 0.
Proof.
  intros H. apply Qnot_le_lt. intros Hx.
  pose proof (rnd_nonneg x Hx). lra.
Qed.

Lemma rnd_lt_inv (x y : Q) : rnd x < rnd y -> x < y.
Proof.
  intros H. apply Qnot_le_lt. intros Hyx.
  pose proof (rnd_mono y x Hyx). lra.
Qed.

Lemma float_of_pos (x : num) : 0 < val x -> 0 < float_of x.
Proof.
  destruct x as [a|q]; cbn [val float_of]; [|tauto].
  intros Ha.
  assert (H1 : (1 <= a)%Z).
  { assert (0 < a)%Z by (rewrite Zlt_Qlt; exact Ha). lia. }
  assert (Hr : rnd (inject_Z 1) <= rnd (inject_Z a)).
  { apply rnd_mono. rewrite <- Zle_Qle. exact H1. }
  rewrite (rnd_Z 1) in Hr by (cbn; lia).
  change (inject_Z 1) with 1 in Hr. lra.
Qed.

(** The sign of a difference tells which number is larger. *)
Lemma num_sub_sign (x y : num) :
  (0 < val (num_sub x y) -> val y < val x)
  /\ (val (num_sub x y) < 0 -> val x < val y).
Proof.
  assert (Hfloat : forall d : Q,
             d == float_of x - float_of y ->
             (0 < rnd d -> val y < val x) /\ (rnd d < 0 -> val x < val y)).
  { intros d Hd. rewrite !float_of_val in Hd. split; intros H.
    - apply rnd_pos_inv in H. apply rnd_lt_inv. lra.
    - apply rnd_neg_inv in H. apply rnd_lt_inv. lra. }
  destruct x as [a|p], y as [b|q]; cbn [num_sub val];
    try (apply Hfloat; reflexivity).
  split; intros H.
  - change 0 with (inject_Z 0) in H. rewrite <- Zlt_Qlt in H |- *. lia.
  - change 0 with (inject_Z 0) in H. rewrite <- Zlt_Qlt in H |- *. lia.
Qed.

(** The sign of a quotient by a positive number is the sign of the
    dividend, and multiplying by 100 keeps it. *)
Lemma pct_sign (x y ratio : num) :
  0 < val y -> py_div x y = Ok ratio ->
  (0 < val (num_mul ratio (NInt 100)) -> 0 < val x)
  /\ (val (num_mul ratio (NInt 100)) < 0 -> val x < 0).
Proof.
  intros Hy. unfold py_div.
  destruct (Qeq_bool y 0) eqn:E; [discriminate|]. intros Hratio.
  assert (H100 : rnd (inject_Z 100) == 100).
  { rewrite (rnd_Z 100) by (cbn; lia). reflexivity. }
  assert (Hquot : forall n d r : Q,
             0 < d -> r == n / d -> (0 < r -> 0 < n) /\ (r < 0 -> n < 0)).
  { intros n d r Hd Hr.
    assert (Hn : n == r * d) by (rewrite Hr; field; lra).
    split; intros H; rewrite Hn.
    - now apply Qmult_lt_0_compat.
    - setoid_replace (r * d) with (- ((- r) * d)) by ring.
      assert (0 < (- r) * d) by (apply Qmult_lt_0_compat; lra). lra. }
  assert (Hpct : forall r : Q,
             (0 < rnd (rnd r * rnd (inject_Z 100)) -> 0 < r)
             /\ (rnd (rnd r * rnd (inject_Z 100)) < 0 -> r < 0)).
  { intros r. split; intros H.
    - apply rnd_pos_inv in H. rewrite H100 in H. apply rnd_pos_inv. lra.
    - apply rnd_neg_inv in H. rewrite H100 in H. apply rnd_neg_inv. lra. }
  assert (Hfloat : forall r : Q,
             r == float_of x / float_of y ->
             (0 < r -> 0 < val x) /\ (r < 0 -> val x < 0)).
  { intros r Hr.
    destruct (Hquot (float_of x) (float_of y) r (float_of_pos y Hy) Hr)
      as [Hpos Hneg].
    rewrite float_of_val in Hpos, Hneg. split; intros H.
    - now apply rnd_pos_inv, Hpos.
    - now apply rnd_neg_inv, Hneg. }
  destruct x as [a|p], y as [b|q]; injection Hratio as <-;
    cbn [num_mul float_of val]; split; intros H; apply Hpct in H;
    try (now apply (Hfloat _ (Qeq_refl _))).
  - now apply (Hquot (inject_Z a) (inject_Z b) _ Hy (Qeq_refl _)).
  - now apply (Hquot (inject_Z a) (inject_Z b) _ Hy (Qeq_refl _)).
Qed.

(** Under a positive budget target and a threshold that is not negative,
    an OVERRUN unit spent more than its budget and an UNDERRUN unit less;
    the unit is never reported NO_BUDGET. *)
Theorem reconcile_status_bands
        (budgets : budgets_t) (aggregated : list (string * bu_aggregate))
        (mon bu_name : string) (bu_costs : bu_aggregate) :
  let config := get_default String.eqb budgets bu_name [] in
  let target := get_default String.eqb config "monthly_target" (NInt 0) in
  let threshold :=
    get_default String.eqb config "alert_threshold_pct" (NInt 10) in
  NoDup (keys aggregated) ->
  In (bu_name, bu_costs) aggregated ->
  0 < target ->
  0 <= threshold ->
  exists results u,
    reconcile budgets aggregated mon = Ok results
    /\ get String.eqb (units results) bu_name = Some u
    /\ (Reconciler.status u = OVERRUN -> target < total bu_costs)
    /\ (Reconciler.status u = UNDERRUN -> total bu_costs < target)
    /\ Reconciler.status u <> NO_BUDGET.
Proof.
  intros config target threshold Hnd Hin Htarget Hthreshold.
  destruct (reconcile_Ok budgets aggregated mon) as (results & Hrun & Hget).
  exists results, (stored_record budgets bu_name bu_costs).
  split; [exact Hrun|]. split; [now apply Hget|].
  unfold stored_record, computed_pct, computed_variance,
    alert_threshold_of, budget_target_of.
  fold config. fold target. fold threshold.
  destruct (Qeq_bool target 0) eqn:E; [apply Qeq_bool_iff in E; lra|].
  cbn [Reconciler.status].
  destruct (py_div (num_sub (total bu_costs) target) target) as [ratio|e]
    eqn:Hratio; [|unfold py_div in Hratio; rewrite E in Hratio; discriminate].
  destruct (pct_sign _ _ _ Htarget Hratio) as [Hpos Hneg].
  destruct (num_sub_sign (total bu_costs) target) as [Hmore Hless].
  set (variance_pct := num_mul ratio (NInt 100)) in *.
  destruct (Qltb threshold variance_pct) eqn:Hover.
  - apply Qltb_lt in Hover. split; [|split]; try discriminate.
    intros _. apply Hmore, Hpos. lra.
  - destruct (Qltb variance_pct (num_neg threshold)) eqn:Hunder.
    + apply Qltb_lt in Hunder. rewrite val_num_neg in Hunder.
      split; [|split]; try discriminate.
      intros _. apply Hless, Hneg. lra.
    + split; [|split]; discriminate.
Qed.

Lemma reconcile_status_bands_witness :
  let aggregated := [("Seven", Examples.spent (NInt 107))] in
  let config := get_default String.eqb Examples.tight_budgets "Seven" [] in
  let target := get_default String.eqb config "monthly_target" (NInt 0) in
  let threshold :=
    get_default String.eqb config "alert_threshold_pct" (NInt 10) in
  NoDup (keys aggregated)
  /\ In ("Seven", Examples.spent (NInt 107)) aggregated
  /\ 0 < target
  /\ 0 <= threshold
  /\ exists results u,
      reconcile Examples.tight_budgets aggregated "2025-01" = Ok results
      /\ get String.eqb (units results) "Seven" = Some u
      /\ Reconciler.status u = OVERRUN
      /\ target < total (Examples.spent (NInt 107)).
Proof.
  intros aggregated config target threshold.
  assert (Hnd : NoDup (keys aggregated)).
  { repeat constructor; simpl; intuition discriminate. }
  assert (Hin : In ("Seven", Examples.spent (NInt 107)) aggregated)
    by (left; reflexivity).
  assert (Ht : 0 < target) by reflexivity.
  assert (Hth : 0 <= threshold) by discriminate.
  split; [exact Hnd|]. split; [exact Hin|]. split; [exact Ht|].
  split; [exact Hth|].
  destruct (reconcile_status_bands Examples.tight_budgets aggregated "2025-01"
              "Seven" (Examples.spent (NInt 107)) Hnd Hin Ht Hth)
    as (results & u & Hrun & Hget & Hover & _).
  exists results, u. split; [exact Hrun|]. split; [exact Hget|].
  assert (Hs : Reconciler.status u = OVERRUN).
  { vm_compute in Hrun. inversion Hrun; subst results.
    vm_compute in Hget. inversion Hget. reflexivity. }
  split; [exact Hs|exact (Hover Hs)].
Defined.

(** ** The top service of the HTML report *)

Lemma max_by_amount_cons {K} (x y : K * num) (l : list (K * num)) :
  ReportGenerator.max_by_amount x (y :: l)
  = if Qltb (snd x) (snd (ReportGenerator.max_by_amount y l))
    then ReportGenerator.max_by_amount y l else x.
Proof.
  revert x y; induction l as [|z l IH]; intros x y.
  - cbn [ReportGenerator.max_by_amount]. reflexivity.
  - change (ReportGenerator.max_by_amount x (y :: z :: l))
      with (ReportGenerator.max_by_amount
              (if Qltb (snd x) (snd y) then y else x) (z :: l)).
    rewrite (IH _ z), (IH y z).
    set (m := ReportGenerator.max_by_amount z l).
    destruct (Qltb (snd x) (snd y)) eqn:Exy;
      destruct (Qltb (snd y) (snd m)) eqn:Eym;
      destruct (Qltb (snd x) (snd m)) eqn:Exm;
      try reflexivity;
      rewrite ?Exy, ?Exm; try reflexivity;
      repeat match goal with
             | H : Qltb _ _ = true |- _ => apply Qltb_lt in H
             | H : Qltb _ _ = false |- _ => apply Qltb_ge in H
             end; exfalso; lra.
Qed.

Lemma insert_desc_head {K} (x : K * num) (l : list (K * num)) :
  hd_error (insert_desc x l)
  = match l with
    | [] => Some x
    | y :: _ => if Qltb (snd x) (snd y) then Some y else Some x
    end.
Proof.
  destruct l as [|y l]; cbn [insert_desc hd_error]; auto.
  now destruct (Qltb (snd x) (snd y)).
Qed.

Lemma sorted_desc_head {K} (l : list (K * num)) :
  hd_error (sorted_desc l)
  = match l with
    | [] => None
    | x :: l' => Some (ReportGenerator.max_by_amount x l')
    end.
Proof.
  induction l as [|x l IH]; [reflexivity|].
  change (sorted_desc (x :: l)) with (insert_desc x (sorted_desc l)).
  rewrite insert_desc_head.
  destruct (sorted_desc l) as [|h t] eqn:Es; destruct l as [|y l'];
    cbn [hd_error] in IH; try discriminate; [reflexivity|].
  inversion IH; subst h. rewrite max_by_amount_cons.
  now destruct (Qltb (snd x) (snd (ReportGenerator.max_by_amount y l'))).
Qed.

(** The top service the HTML report shows for a business unit is the first
    entry of the ranking behind [top_cost_drivers], and no service of the unit
    has a larger amount; on a unit without any service the report raises (the
    [max] of an empty sequence). *)
Theorem top_service_heads_ranking
        (budgets : budgets_t) (aggregated : list (string * bu_aggregate))
        (mon bu_name : string) (bu_costs : bu_aggregate) :
  NoDup (keys aggregated) ->
  In (bu_name, bu_costs) aggregated ->
  ~ budget_target_of budgets bu_name == 0 ->
  exists results u drivers,
    reconcile budgets aggregated mon = Ok results
    /\ get String.eqb (units results) bu_name = Some u
    /\ top_cost_drivers u = Some drivers
    /\ hd_error drivers
       = option_map to_driver (ReportGenerator.top_service bu_costs)
    /\ (ReportGenerator.top_service bu_costs = None <-> services bu_costs = [])
    /\ forall top sa,
        ReportGenerator.top_service bu_costs = Some top ->
        In sa (services bu_costs) -> snd sa <= snd top.
Proof.
  intros Hnd Hin Hn.
  destruct (reconcile_Ok budgets aggregated mon) as (results & Hrun & Hget).
  exists results, (stored_record budgets bu_name bu_costs),
    (map to_driver (firstn 5 (sorted_desc (services bu_costs)))).
  split; [exact Hrun|]. split; [now apply Hget|]. split.
  { unfold stored_record.
    destruct (Qeq_bool (budget_target_of budgets bu_name) 0) eqn:E;
      [apply Qeq_bool_iff in E; contradiction|reflexivity]. }
  assert (Htop : ReportGenerator.top_service bu_costs
                 = hd_error (sorted_desc (services bu_costs))).
  { unfold ReportGenerator.top_service. now rewrite sorted_desc_head. }
  split; [|split].
  - rewrite Htop. now destruct (sorted_desc (services bu_costs)).
  - unfold ReportGenerator.top_service.
    destruct (services bu_costs); split; intros; congruence.
  - intros top sa Hsome Hsa. rewrite Htop in Hsome.
    pose proof (sorted_desc_descending (services bu_costs)) as Hdesc.
    pose proof (sorted_desc_perm (services bu_costs)) as Hperm.
    apply (Permutation_in _ (Permutation_sym Hperm)) in Hsa.
    destruct (sorted_desc (services bu_costs)) as [|h t]; [discriminate|].
    cbn [hd_error] in Hsome. inversion Hsome; subst h.
    destruct Hsa as [->|Hsa]; [apply Qle_refl|].
    unfold descending in Hdesc. inversion Hdesc as [|? ? _ Hall]; subst.
    rewrite Forall_forall in Hall. now apply Hall.
Qed.

Lemma top_service_heads_ranking_witness :
  NoDup (keys [("Platform", Examples.six_services)])
  /\ In ("Platform", Examples.six_services) [("Platform", Examples.six_services)]
  /\ ~ budget_target_of [("Platform", [("monthly_target", NInt 25)])] "Platform" == 0
  /\ exists results u drivers,
      reconcile [("Platform", [("monthly_target", NInt 25)])]
                [("Platform", Examples.six_services)] "2025-01" = Ok results
      /\ get String.eqb (units results) "Platform" = Some u
      /\ top_cost_drivers u = Some drivers
      /\ ReportGenerator.top_service Examples.six_services
         = Some (VStr "EC2", NInt 7)
      /\ hd_error drivers = Some (to_driver (VStr "EC2", NInt 7)).
Proof.
  assert (Hnd : NoDup (keys [("Platform", Examples.six_services)])).
  { repeat constructor; simpl; intuition discriminate. }
  assert (Hin : In ("Platform", Examples.six_services)
                   [("Platform", Examples.six_services)])
    by (left; reflexivity).
  assert (Hn : ~ budget_target_of [("Platform", [("monthly_target", NInt 25)])]
                 "Platform" == 0) by discriminate.
  split; [exact Hnd|]. split; [exact Hin|]. split; [exact Hn|].
  destruct (top_service_heads_ranking
              [("Platform", [("monthly_target", NInt 25)])]
              [("Platform", Examples.six_services)] "2025-01"
              "Platform" Examples.six_services Hnd Hin Hn)
    as (results & u & drivers & Hrun & Hget & Htop & Hhd & _).
  exists results, u, drivers. repeat (split; [assumption|]).
  split; [reflexivity|exact Hhd].
Defined.

(** ** The aggregation validator on the aggregation's output *)

Lemma check_unit_on_consistent (format_2f : Q -> string) (found : list string)
      (bu_name : string) (unit : bu_aggregate) :
  consistent unit ->
  check_unit format_2f found (bu_name, unit)
  = found ++ unit_findings format_2f (bu_name, unit).
Proof.
  intros Ha. unfold consistent in Ha. unfold check_unit, unit_findings.
  rewrite <- Ha. rewrite account_check_silent.
  unfold service_mismatch. cbn [fst snd].
  destruct (Qle_bool (total unit) 0);
    destruct (Qltb (NFloat (1 # 100)) _); cbn [app];
    rewrite <- ?app_assoc, ?app_nil_r; reflexivity.
Qed.

Lemma check_units_on_consistent (format_2f : Q -> string)
      (aggregated : list (string * bu_aggregate)) (found : list string) :
  Forall (fun kv => consistent (snd kv)) aggregated ->
  fold_left (check_unit format_2f) aggregated found
  = found ++ flat_map (unit_findings format_2f) aggregated.
Proof.
  intros Hall; revert found.
  induction Hall as [|[bu unit] l Hu Hl IH]; intros found;
    cbn [fold_left flat_map].
  - now rewrite app_nil_r.
  - rewrite check_unit_on_consistent by exact Hu. rewrite IH.
    now rewrite <- app_assoc.
Qed.


Lemma flat_map_nil_iff {A B} (f : A -> list B) (l : list A) :
  flat_map f l = [] <-> forall a, In a l -> f a = [].
Proof.
  induction l as [|x l IH]; cbn [flat_map In]; [tauto|].
  split.
  - intros H a [<-|Ha]; apply app_eq_nil in H as [Hx Hl]; auto.
    now apply IH.
  - intros H. rewrite (H x) by auto. cbn [app]. apply IH. auto.
Qed.

Lemma unit_findings_nil (format_2f : Q -> string) (item : string * bu_aggregate) :
  unit_findings format_2f item = []
  <-> 0 < total (snd item) /\ service_mismatch (snd item) = false.
Proof.
  unfold unit_findings.
  destruct (Qle_bool (total (snd item)) 0) eqn:E.
  - apply Qle_bool_iff in E. cbn [app].
    split; [discriminate|]. intros [H _]. lra.
  - assert (Hpos : 0 < total (snd item)).
    { apply Qnot_le_lt. intros Hle. apply Qle_bool_iff in Hle. congruence. }
    cbn [app]. destruct (service_mismatch (snd item)).
    + split; [discriminate|]. intros [_ H]. discriminate.
    + tauto.
Qed.



(** On the float amounts 1e16, 1.0 and 1.0 the aggregation's own output
    fails its validation. *)
Example drifted_subtotals_are_reported :
  exists aggregated,
    _aggregate_by_business_unit
      (Examples.payer
         [Examples.ec2_large; Examples.s3_small; Examples.s3_small_too])
    = Ok aggregated
    /\ status (fst (validate_aggregation Examples.no_floats [] aggregated))
       = FAIL
    /\ List.length
         (issues (fst (validate_aggregation Examples.no_floats [] aggregated)))
       = 1%nat.
Proof.
  destruct (_aggregate_by_business_unit _) as [aggregated|e] eqn:Hrun;
    vm_compute in Hrun; [|discriminate].
  inversion Hrun; subst aggregated. eexists. split; [reflexivity|].
  split; vm_compute; reflexivity.
Qed.

(** ** A business unit without cost records *)

Lemma py_eqb_refl (v : value) : py_eqb v v = true.
Proof.
  destruct v as [|b|z|q|s]; cbn [py_eqb num_of]; try reflexivity;
    try (apply Qeq_bool_iff; reflexivity).
  apply String.eqb_refl.
Qed.

Lemma unit_amounts_no_records (bu : string)
      (all_costs : list (string * account_data)) :
  unit_records bu all_costs = [] -> unit_amounts bu all_costs = NInt 0.
Proof.
  unfold unit_amounts, unit_records, accounts_of, py_sum.
  induction (filter _ all_costs) as [|item l IH]; cbn [map flat_map fold_left].
  - reflexivity.
  - intros H. apply app_eq_nil in H as [Hitem Hl].
    replace (account_amounts item) with (NInt 0)
      by (unfold account_amounts; now rewrite Hitem).
    now apply IH.
Qed.

Lemma aggregate_services_nil (all_costs : list (string * account_data))
      (aggregated : list (string * bu_aggregate))
      (bu : string) (unit : bu_aggregate) :
  _aggregate_by_business_unit all_costs = Ok aggregated ->
  In (bu, unit) aggregated ->
  (services unit = [] <-> unit_records bu all_costs = []).
Proof.
  intros Hrun Hin.
  destruct (aggregate_units _ _ Hrun) as (Hnd & _).
  pose proof (In_get String.eqb string_eqb_spec _ _ _ Hnd Hin) as Hget.
  assert (Hu : get_default String.eqb aggregated bu empty_aggregate = unit)
    by (unfold get_default; now rewrite Hget).
  split; intros Hnil.
  - destruct (unit_records bu all_costs) as [|r rs] eqn:Hrec; [reflexivity|].
    destruct (aggregate_from_services all_costs [] aggregated bu
                (service_of r) Hrun) as [_ Hm].
    rewrite Hu, Hnil, Hrec in Hm. cbn [existsb] in Hm.
    rewrite py_eqb_refl in Hm. discriminate.
  - destruct (services unit) as [|[s a] svcs] eqn:Hs; [reflexivity|].
    destruct (aggregate_from_services all_costs [] aggregated bu s Hrun)
      as [_ Hm].
    rewrite Hu, Hs, Hnil in Hm. unfold mem in Hm. cbn [get] in Hm.
    rewrite py_eqb_refl in Hm. discriminate.
Qed.

(** A business unit none of whose accounts has a cost record (the
    extraction found nothing for it) is aggregated with total zero and an
    empty services dict, and only such a unit has an empty services dict.
    The aggregation validator then fails, and the HTML report's [max] over
    the unit's services raises. *)
Theorem unit_without_records
        (format_2f : Q -> string) (log : list log_entry)
        (all_costs : list (string * account_data))
        (aggregated : list (string * bu_aggregate))
        (bu : string) (unit : bu_aggregate) :
  _aggregate_by_business_unit all_costs = Ok aggregated ->
  In (bu, unit) aggregated ->
  (services unit = [] <-> unit_records bu all_costs = [])
  /\ (ReportGenerator.top_service unit = None
      <-> unit_records bu all_costs = [])
  /\ (unit_records bu all_costs = [] ->
      total unit == 0
      /\ status (fst (validate_aggregation format_2f log aggregated)) = FAIL).
Proof.
  intros Hrun Hin.
  destruct (aggregate_units _ _ Hrun) as (Hnd & Htot).
  pose proof (aggregate_services_nil all_costs aggregated bu unit Hrun Hin)
    as Hsvc.
  split; [exact Hsvc|]. split.
  - rewrite <- Hsvc. unfold ReportGenerator.top_service.
    destruct (services unit); split; congruence.
  - intros Hnil.
    assert (Hzero : total unit = NInt 0).
    { rewrite (Htot bu unit Hin). now apply unit_amounts_no_records. }
    split; [now rewrite Hzero|].
    unfold validate_aggregation. cbn [fst status].
    rewrite (check_units_on_consistent format_2f aggregated []
               (aggregate_consistent _ _ Hrun)).
    cbn [app].
    destruct (flat_map (unit_findings format_2f) aggregated) eqn:Hf;
      [|reflexivity].
    exfalso. rewrite flat_map_nil_iff in Hf.
    apply Hf, unit_findings_nil in Hin. cbn [snd] in Hin.
    rewrite Hzero in Hin. destruct Hin as [Hpos _]. discriminate.
Qed.

Lemma unit_without_records_witness :
  let all_costs :=
    [("999999999999",
      {| name := "Idle"; business_unit := "Research"; costs := [] |})] in
  let unit := {| total := NInt 0;
                 accounts := [{| id := "999999999999"; acc_name := "Idle";
                                 acc_total := NInt 0 |}];
                 services := [] |} in
  _aggregate_by_business_unit all_costs = Ok [("Research", unit)]
  /\ ReportGenerator.top_service unit = None
  /\ status (fst (validate_aggregation Examples.no_floats []
                                       [("Research", unit)])) = FAIL.
Proof.
  intros all_costs unit.
  assert (Hrun : _aggregate_by_business_unit all_costs = Ok [("Research", unit)])
    by reflexivity.
  assert (Hin : In ("Research", unit) [("Research", unit)])
    by (left; reflexivity).
  destruct (unit_without_records Examples.no_floats [] all_costs
              [("Research", unit)] "Research" unit Hrun Hin)
    as (_ & Htop & Hfail).
  split; [exact Hrun|]. split.
  - apply Htop. reflexivity.
  - apply Hfail. reflexivity.
Defined.

(** ** The reconciliation validator on any reconciliation *)

Lemma check_reconciled_Ok (found : list string)
      (item : string * unit_record) :
  exists added,
    check_reconciled found item = Ok (found ++ added)
    /\ (List.length added <= 2)%nat
    /\ (added <> [] ->
        exists b, budget (snd item) = Some b /\ ~ b == 0)
    /\ Forall (fun msg =>
                 msg = fstr [fst item; ": variance calculation mismatch"]
                 \/ msg = fstr [fst item; ": variance percentage mismatch"])
              added.
Proof.
  destruct item as [bu_name data]. unfold check_reconciled. cbn [fst snd].
  destruct (budget data) as [b|];
    [|exists []; rewrite app_nil_r; repeat split; auto; congruence].
  destruct (Qeq_bool b 0) eqn:Eb;
    [exists []; rewrite app_nil_r; repeat split; auto; congruence|].
  assert (Hb : exists b', Some b = Some b' /\ ~ b' == 0)
    by (exists b; split; [reflexivity|now apply Qeq_bool_neq]).
  unfold py_div. rewrite Eb. cbn [bind].
  destruct (Qltb (NFloat (1 # 100)) _); destruct (variance_pct data) as [p|];
    try destruct (Qltb (NFloat (1 # 10)) _).
  all: match goal with
       | |- exists added, Ok ((?f ++ ?a) ++ ?b) = _ /\ _ =>
           exists (a ++ b); rewrite <- app_assoc
       | |- exists added, Ok (?f ++ ?a) = _ /\ _ => exists a
       | |- exists added, Ok ?f = _ /\ _ => exists []; rewrite app_nil_r
       end.
  all: split; [reflexivity|]; split; [cbn; lia|]; split; [intros _; exact Hb|].
  all: repeat (apply Forall_cons || apply Forall_nil); auto.
Qed.

(** [validate_reconciliation] never raises, whatever the reconciliation it is
    given: the division by the budget is only reached under a budget that is
    not zero. It passes exactly when it has no issue, reports at most two
    issues per unit, and every issue names a unit whose record carries a
    non-zero budget; a unit without budget is never reported. *)
Theorem validate_reconciliation_returns (reconciliation : results_t) :
  exists verdict,
    validate_reconciliation reconciliation = Ok verdict
    /\ (status verdict = PASS <-> issues verdict = [])
    /\ (status verdict = PASS \/ status verdict = FAIL)
    /\ issue_count verdict = List.length (issues verdict)
    /\ (List.length (issues verdict)
        <= 2 * List.length (units reconciliation))%nat
    /\ forall msg,
        In msg (issues verdict) ->
        exists bu_name data b,
          In (bu_name, data) (units reconciliation)
          /\ budget data = Some b /\ ~ b == 0
          /\ (msg = fstr [bu_name; ": variance calculation mismatch"]
              \/ msg = fstr [bu_name; ": variance percentage mismatch"]).
Proof.
  assert (Hloop : forall us found,
             exists added,
               for_each check_reconciled us found = Ok (found ++ added)
               /\ (List.length added <= 2 * List.length us)%nat
               /\ forall msg,
                   In msg added ->
                   exists bu_name data b,
                     In (bu_name, data) us
                     /\ budget data = Some b /\ ~ b == 0
                     /\ (msg = fstr [bu_name; ": variance calculation mismatch"]
                         \/ msg = fstr [bu_name;
                                        ": variance percentage mismatch"])).
  { induction us as [|[bu_name data] us IH]; intros found; cbn [for_each].
    - exists []. rewrite app_nil_r. repeat split; auto. intros ? [].
    - destruct (check_reconciled_Ok found (bu_name, data))
        as (a1 & -> & Hlen1 & Hb1 & Hmsg1).
      cbn [bind]. destruct (IH (found ++ a1)) as (a2 & -> & Hlen2 & Hmsg2).
      exists (a1 ++ a2). rewrite app_assoc. split; [reflexivity|]. split.
      + rewrite length_app. cbn [List.length]. lia.
      + intros msg Hin. apply in_app_or in Hin. destruct Hin as [Hin|Hin].
        * destruct Hb1 as (b & Hb & Hnz);
            [intros ->; destruct Hin|].
          rewrite Forall_forall in Hmsg1.
          exists bu_name, data, b. cbn [fst snd] in *.
          repeat split; auto. now left.
        * destruct (Hmsg2 msg Hin) as (n & d & b & Hd & Hrest).
          exists n, d, b. split; [now right|exact Hrest]. }
  unfold validate_reconciliation.
  destruct (Hloop (units reconciliation) []) as (added & -> & Hlen & Hmsg).
  cbn [app bind]. eexists. split; [reflexivity|].
  unfold _result. cbn [status issues issue_count].
  repeat split; auto; try (destruct added; congruence || auto).
Qed.

(** ** Cost-data validation: when it returns, when it passes *)

Section CostDataOutcome.

Variable float_repr : Q -> string.

Lemma check_record_outcome (i : nat) (r : record) (found : list string) :
  match check_record float_repr i r found with
  | Ok found' =>
      match field r "date" with
      | Some (VStr _) | None => True
      | Some _ => False
      end
      /\ exists added,
          found' = found ++ added
          /\ (added = [] <-> clean_record r = true)
  | Raise e => e = TypeError
  end.
Proof.
  unfold check_record, clean_record, Qltb.
  destruct (field r "amount") as [v|]; [destruct (num_of v) as [q|]|];
    try destruct (Qle_bool 0 q);
    (destruct (field r "date") as [[| | | |s]|];
     [| | | |destruct (strptime_ymd s)|]);
    destruct (field r "service"); cbn [bind negb andb]; try reflexivity;
    (split; [exact I|]); rewrite <- ?app_assoc; cbn [app].
  all: match goal with
       | |- exists added, ?f ++ ?a = _ /\ _ =>
           exists a; split; [reflexivity|split; discriminate]
       | |- exists added, ?f = _ /\ _ =>
           exists []; split; [now rewrite app_nil_r|split; reflexivity]
       end.
Qed.

Lemma check_records_outcome (costs : list record) (i : nat)
      (found : list string) :
  match check_records float_repr i costs found with
  | Ok found' =>
      Forall (fun r => match field r "date" with
                       | Some (VStr _) | None => True
                       | Some _ => False
                       end) costs
      /\ exists added,
          found' = found ++ added
          /\ (added = [] <-> forallb clean_record costs = true)
  | Raise e => e = TypeError
  end.
Proof.
  revert i found; induction costs as [|r costs IH]; intros i found;
    cbn [check_records forallb].
  - split; [constructor|]. exists []. split; [now rewrite app_nil_r|].
    split; reflexivity.
  - pose proof (check_record_outcome i r found) as Hr.
    destruct (check_record float_repr i r found) as [f1|e]; cbn [bind];
      [|exact Hr].
    destruct Hr as (Hd & a1 & -> & Ha1).
    specialize (IH (S i) (found ++ a1)).
    destruct (check_records float_repr (S i) costs (found ++ a1)) as [f2|e];
      [|exact IH].
    destruct IH as (Hds & a2 & -> & Ha2).
    split; [now constructor|].
    exists (a1 ++ a2). split; [now rewrite app_assoc|].
    rewrite andb_true_iff, <- Ha1, <- Ha2. split.
    + intros H. now apply app_eq_nil in H.
    + intros [-> ->]. reflexivity.
Qed.

Lemma total_amount_outcome (costs : list record) (acc : num) :
  match for_each py_add
          (map (fun r => get_default String.eqb r "amount" (VInt 0)) costs) acc
  with
  | Ok total =>
      Forall (fun r => match field r "amount" with
                       | Some v => num_of v <> None
                       | None => True
                       end) costs
      /\ total = fold_left num_add (map Spec.amount costs) acc
  | Raise e => e = TypeError
  end.
Proof.
  revert acc; induction costs as [|r costs IH]; intros acc;
    cbn [map for_each fold_left].
  - split; [constructor|reflexivity].
  - unfold py_add at 1, get_default, Spec.amount at 2, amount_of, field.
    destruct (get String.eqb r "amount") as [v|] eqn:Ev.
    + destruct (num_of v) as [q|] eqn:Eq; cbn [bind]; [|reflexivity].
      specialize (IH (num_add acc q)).
      destruct (for_each py_add _ (num_add acc q)) as [total|e]; [|exact IH].
      destruct IH as [Hall Ht]. split.
      * constructor; [|exact Hall]. unfold field. rewrite Ev. congruence.
      * exact Ht.
    + cbn [num_of bind]. specialize (IH (num_add acc (NInt 0))).
      destruct (for_each py_add _ (num_add acc (NInt 0))) as [total|e];
        [|exact IH].
      destruct IH as [Hall Ht]. split.
      * constructor; [|exact Hall]. unfold field. now rewrite Ev.
      * exact Ht.
Qed.

Lemma repeats_nil (ks seen : list string) :
  repeats seen ks = [] <-> NoDup ks /\ forall x, In x ks -> ~ In x seen.
Proof.
  split.
  - revert seen; induction ks as [|k ks IH]; cbn [repeats]; intros seen H.
    + split; [constructor|intros ? []].
    + apply app_eq_nil in H as [Hk H]. apply IH in H as [Hnd Hfresh].
      assert (Hks : ~ In k seen).
      { intros Hin. apply existsb_eqb_In in Hin. rewrite Hin in Hk.
        discriminate. }
      split.
      * constructor; [|exact Hnd]. intros Hin. apply (Hfresh k Hin).
        apply set_add_In. now right.
      * intros x [<-|Hx]; [exact Hks|]. intros Hin. apply (Hfresh x Hx).
        apply set_add_In. now left.
  - intros [Hnd Hfresh]. now apply repeats_fresh.
Qed.

End CostDataOutcome.

(** [validate_cost_data] returns exactly when every amount present is a
    number and every date present is a string; otherwise it raises
    [TypeError], never anything else. An absent field never makes it
    raise. *)
Theorem validate_cost_data_returns_iff_typed
        (float_repr : Q -> string) (log : list log_entry)
        (costs : list record) (payer_id : string) :
  ((exists result log',
       validate_cost_data float_repr log costs payer_id = Ok (result, log'))
   <-> Forall typed_record costs)
  /\ (forall e,
         validate_cost_data float_repr log costs payer_id = Raise e ->
         e = TypeError).
Proof.
  split; [split|].
  - intros (result & log' & Hrun). unfold validate_cost_data in Hrun.
    destruct costs as [|c costs]; [constructor|].
    pose proof (check_records_outcome float_repr (c :: costs) 0 []) as Hc.
    destruct (check_records float_repr 0 (c :: costs) []) as [found|e];
      cbn [bind] in Hrun; [|discriminate].
    pose proof (total_amount_outcome (c :: costs) (NInt 0)) as Ht.
    destruct (for_each py_add _ (NInt 0)) as [total|e]; cbn [bind] in Hrun;
      [|discriminate].
    destruct Hc as [Hd _]. destruct Ht as [Ha _].
    rewrite Forall_forall in Hd, Ha. apply Forall_forall. intros r Hr.
    split; [apply (Ha r Hr)|apply (Hd r Hr)].
  - apply validate_cost_data_typed.
  - intros e. unfold validate_cost_data.
    destruct costs as [|c costs]; [discriminate|].
    pose proof (check_records_outcome float_repr (c :: costs) 0 []) as Hc.
    destruct (check_records float_repr 0 (c :: costs) []) as [found|e'];
      cbn [bind]; [|congruence].
    pose proof (total_amount_outcome (c :: costs) (NInt 0)) as Ht.
    destruct (for_each py_add _ (NInt 0)) as [total|e']; cbn [bind];
      [discriminate|congruence].
Qed.

(** A returning [validate_cost_data] has status PASS exactly when every
    record is clean (a non-negative numeric amount, a date that parses, a
    service) and no two records have the same composite key. *)
Theorem validate_cost_data_passes_iff
        (float_repr : Q -> string) (log log' : list log_entry)
        (costs : list record) (payer_id : string)
        (result : validation_result) :
  costs <> [] ->
  validate_cost_data float_repr log costs payer_id = Ok (result, log') ->
  (status result = PASS
   <-> forallb clean_record costs = true
       /\ NoDup (map (dup_key float_repr) costs)).
Proof.
  intros Hne Hrun.
  destruct (validate_cost_data_Ok float_repr log log' costs payer_id result
              Hne Hrun) as (found & total & Hf & Hi & Hs & _).
  pose proof (check_records_outcome float_repr costs 0 []) as Hc.
  rewrite Hf in Hc. destruct Hc as (_ & added & Hfound & Hclean).
  cbn [app] in Hfound. subst added.
  rewrite check_duplicates_repeats in Hi.
  assert (Hpass : status result = PASS <-> issues result = []).
  { rewrite Hs. destruct (issues result) as [|x l]; [tauto|].
    destruct (List.length (x :: l) <? 3)%nat; split; discriminate. }
  rewrite Hpass, Hi, <- Hclean. split.
  - intros H. apply app_eq_nil in H as [Hfound Hdup]. split; [exact Hfound|].
    apply map_eq_nil in Hdup. now apply repeats_nil in Hdup.
  - intros [-> Hnd]. cbn [app].
    assert (Hrep : repeats [] (map (dup_key float_repr) costs) = [])
      by (apply repeats_nil; split; [exact Hnd|intros ? ? []]).
    now rewrite Hrep.
Qed.

Lemma validate_cost_data_passes_iff_witness :
  exists result log',
    validate_cost_data Examples.no_floats []
                       [Examples.ec2_jan15; Examples.rds_jan16] "123456789012"
    = Ok (result, log')
    /\ status result = PASS.
Proof.
  destruct (validate_cost_data Examples.no_floats []
              [Examples.ec2_jan15; Examples.rds_jan16] "123456789012")
    as [[result log']|e] eqn:Hrun.
  - exists result, log'. split; [reflexivity|].
    apply (validate_cost_data_passes_iff Examples.no_floats [] log'
             [Examples.ec2_jan15; Examples.rds_jan16] "123456789012" result).
    + discriminate.
    + exact Hrun.
    + split; [reflexivity|].
      repeat constructor; cbn; intuition discriminate.
  - vm_compute in Hrun. discriminate.
Defined.

(** ** Cost-data validation: how often a duplicate is reported *)

Lemma repeats_count (ks seen : list string) (k : string) :
  count_occ string_dec (repeats seen ks) k
  = if existsb (String.eqb k) seen
    then count_occ string_dec ks k
    else Nat.pred (count_occ string_dec ks k).
Proof.
  revert seen; induction ks as [|k0 ks IH]; intros seen; cbn [repeats].
  - cbn [count_occ]. now destruct (existsb _ seen).
  - rewrite count_occ_app, IH.
    assert (Hadd : existsb (String.eqb k) (set_add seen k0)
                   = (existsb (String.eqb k) seen || String.eqb k k0)%bool).
    { apply eq_true_iff_eq. rewrite orb_true_iff, !existsb_eqb_In, set_add_In.
      now rewrite String.eqb_eq. }
    rewrite Hadd. cbn [count_occ].
    destruct (string_dec k0 k) as [->|Hne].
    + rewrite String.eqb_refl, orb_true_r.
      destruct (existsb (String.eqb k) seen); cbn [count_occ Nat.pred].
      * destruct (string_dec k k); [reflexivity|contradiction].
      * reflexivity.
    + assert (Hkk : String.eqb k k0 = false)
        by (apply String.eqb_neq; congruence).
      rewrite Hkk, orb_false_r.
      destruct (existsb (String.eqb k0) seen); cbn [count_occ].
      * destruct (string_dec k0 k); [contradiction|reflexivity].
      * reflexivity.
Qed.

Lemma set_add_NoDup (seen : list string) (k : string) :
  NoDup seen -> NoDup (set_add seen k).
Proof.
  intros Hnd. unfold set_add.
  destruct (existsb (String.eqb k) seen) eqn:E; [exact Hnd|].
  apply NoDup_app; auto.
  - constructor; [intros []|constructor].
  - intros x Hx [<-|[]]. apply existsb_eqb_In in Hx. congruence.
Qed.

Lemma seen_after_NoDup (ks seen : list string) :
  NoDup seen -> NoDup (fold_left set_add ks seen).
Proof.
  revert seen; induction ks as [|k ks IH]; cbn [fold_left]; intros seen Hnd;
    auto using set_add_NoDup.
Qed.

Lemma repeats_length (ks seen : list string) :
  (List.length (repeats seen ks) + List.length (fold_left set_add ks seen)
   = List.length ks + List.length seen)%nat.
Proof.
  revert seen; induction ks as [|k ks IH]; intros seen;
    cbn [repeats fold_left List.length]; [reflexivity|].
  rewrite length_app, <- Nat.add_assoc, IH. unfold set_add.
  destruct (existsb (String.eqb k) seen); cbn [List.length];
    rewrite ?length_app; cbn [List.length]; lia.
Qed.

Lemma distinct_keys_length (ks : list string) :
  List.length (fold_left set_add ks []) = List.length (nodup string_dec ks).
Proof.
  apply Nat.le_antisymm; apply NoDup_incl_length.
  - apply seen_after_NoDup. constructor.
  - intros x Hx. apply seen_after_In in Hx as [[]|Hx]. now apply nodup_In.
  - apply NoDup_nodup.
  - intros x Hx. apply nodup_In in Hx. apply seen_after_In. now right.
Qed.

(** On clean records the issues of [validate_cost_data] are the duplicate
    reports alone: a composite key shared by n records is reported n - 1
    times, so the number of issues is the number of records minus the number
    of distinct keys. Three records that repeat earlier ones are enough for
    FAIL. *)
Theorem validate_cost_data_counts_duplicates
        (float_repr : Q -> string) (log : list log_entry)
        (costs : list record) (payer_id : string) :
  costs <> [] ->
  forallb clean_record costs = true ->
  exists result log' reported,
    validate_cost_data float_repr log costs payer_id = Ok (result, log')
    /\ issues result
       = map (fun k => fstr ["Potential duplicate: "; k]) reported
    /\ (forall k,
           count_occ string_dec reported k
           = Nat.pred (count_occ string_dec (map (dup_key float_repr) costs) k))
    /\ issue_count result
       = (List.length costs
          - List.length (nodup string_dec (map (dup_key float_repr) costs)))%nat
    /\ (status result = FAIL <-> (3 <= issue_count result)%nat).
Proof.
  intros Hne Hclean.
  assert (Htyped : Forall typed_record costs).
  { apply Forall_forall. intros x Hx. apply clean_typed.
    rewrite forallb_forall in Hclean. auto. }
  destruct (validate_cost_data_typed float_repr log costs payer_id Htyped)
    as (result & log' & Hrun).
  destruct (validate_cost_data_Ok float_repr log log' costs payer_id result
              Hne Hrun) as (found & total & Hf & Hi & Hs & Hc & _).
  rewrite check_records_clean in Hf by exact Hclean. inversion Hf; subst found.
  rewrite check_duplicates_repeats in Hi. cbn [app] in Hi.
  exists result, log', (repeats [] (map (dup_key float_repr) costs)).
  split; [exact Hrun|]. split; [exact Hi|]. split; [|split].
  - intros k. now rewrite repeats_count.
  - rewrite Hc, Hi, length_map.
    pose proof (repeats_length (map (dup_key float_repr) costs) []) as Hlen.
    rewrite distinct_keys_length, length_map in Hlen. cbn [List.length] in Hlen.
    lia.
  - rewrite Hs, Hc.
    destruct (issues result) as [|i1 [|i2 [|i3 rest]]]; cbn;
      split; intros; try discriminate; try lia; reflexivity.
Qed.

Lemma validate_cost_data_counts_duplicates_witness :
  exists result log',
    validate_cost_data Examples.no_floats []
      [Examples.ec2_jan15; Examples.ec2_jan15_reversed; Examples.ec2_jan15;
       Examples.ec2_jan15]
      "123456789012"
    = Ok (result, log')
    /\ issue_count result = 3%nat
    /\ status result = FAIL.
Proof.
  assert (Hne : [Examples.ec2_jan15; Examples.ec2_jan15_reversed;
                 Examples.ec2_jan15; Examples.ec2_jan15] <> [])
    by discriminate.
  assert (Hclean : forallb clean_record
                     [Examples.ec2_jan15; Examples.ec2_jan15_reversed;
                      Examples.ec2_jan15; Examples.ec2_jan15] = true)
    by reflexivity.
  destruct (validate_cost_data_counts_duplicates Examples.no_floats []
              _ "123456789012" Hne Hclean)
    as (result & log' & reported & Hrun & _ & _ & Hcount & Hfail).
  exists result, log'. split; [exact Hrun|].
  assert (H3 : issue_count result = 3%nat) by (rewrite Hcount; reflexivity).
  split; [exact H3|]. apply Hfail. rewrite H3. lia.
Defined.

(** ** Cost-data validation: the total it reports *)



(** ** The validation log and its summary *)

Import ValidationSummary.

Lemma count_status_app (v : verdict) (l1 l2 : list log_entry) :
  count_status v (l1 ++ l2) = (count_status v l1 + count_status v l2)%nat.
Proof. unfold count_status. now rewrite filter_app, length_app. Qed.

Lemma count_status_total (validation_log : list log_entry) :
  (count_status PASS validation_log + count_status WARN validation_log
   + count_status FAIL validation_log = List.length validation_log)%nat.
Proof.
  unfold count_status.
  induction validation_log as [|[stage context [| |] n] l IH];
    cbn [filter has_status log_status List.length]; lia.
Qed.

(** The counts of [get_validation_summary] add up to the number of checks.
    A cost-data validation of a non-empty list adds one check, counted under
    its status; an empty extraction gets FAIL and is not logged, so the
    summary does not count it; an aggregation validation adds one check,
    counted as passed or failed. *)
Theorem validation_summary_counts
        (float_repr format_2f : Q -> string) (log : list log_entry) :
  (passed (get_validation_summary log) + warnings (get_validation_summary log)
   + failed (get_validation_summary log)
   = total_checks (get_validation_summary log))%nat
  /\ (forall payer_id,
         exists result,
           validate_cost_data float_repr log [] payer_id = Ok (result, log)
           /\ status result = FAIL)
  /\ (forall costs payer_id result log' v,
         costs <> [] ->
         validate_cost_data float_repr log costs payer_id = Ok (result, log') ->
         total_checks (get_validation_summary log')
         = S (total_checks (get_validation_summary log))
         /\ count_status v log'
            = (count_status v log
               + if has_status v {| stage := "cost_data"; context := payer_id;
                                    log_status := status result;
                                    log_issue_count := issue_count result |}
                 then 1 else 0)%nat)
  /\ (forall aggregated,
         let (result, log') := validate_aggregation format_2f log aggregated in
         total_checks (get_validation_summary log')
         = S (total_checks (get_validation_summary log))
         /\ warnings (get_validation_summary log')
            = warnings (get_validation_summary log)
         /\ (passed (get_validation_summary log')
             + failed (get_validation_summary log')
             = S (passed (get_validation_summary log)
                  + failed (get_validation_summary log)))%nat).
Proof.
  split; [apply count_status_total|]. split; [|split].
  - intros payer_id. eexists. split; reflexivity.
  - intros costs payer_id result log' v Hne Hrun.
    destruct (validate_cost_data_Ok float_repr log log' costs payer_id result
                Hne Hrun) as (_ & _ & _ & _ & _ & _ & _ & _ & _ & ->).
    unfold get_validation_summary, _log_validation. cbn [total_checks].
    rewrite length_app, count_status_app. cbn [List.length].
    split; [lia|]. unfold count_status. cbn [filter].
    now destruct (has_status v _).
  - intros aggregated. unfold validate_aggregation, _log_validation.
    unfold get_validation_summary.
    cbn [total_checks passed warnings failed status issue_count].
    rewrite length_app, !count_status_app. cbn [List.length].
    unfold count_status. cbn [filter has_status log_status].
    destruct (fold_left _ aggregated []); cbn [List.length]; lia.
Qed.

Lemma validation_summary_counts_witness :
  exists result log',
    validate_cost_data Examples.no_floats []
                       [Examples.bad_date; Examples.ec2_jan15] "123456789012"
    = Ok (result, log')
    /\ total_checks (get_validation_summary log') = 1%nat
    /\ count_status WARN log' = 1%nat.
Proof.
  destruct (validate_cost_data Examples.no_floats []
              [Examples.bad_date; Examples.ec2_jan15] "123456789012")
    as [[result log']|e] eqn:Hrun; [|vm_compute in Hrun; discriminate].
  assert (Hne : [Examples.bad_date; Examples.ec2_jan15] <> []) by discriminate.
  destruct (validation_summary_counts Examples.no_floats Examples.no_floats [])
    as (_ & _ & Hcost & _).
  destruct (Hcost _ "123456789012" result log' WARN Hne Hrun) as [Hn Hw].
  exists result, log'. split; [reflexivity|]. split; [exact Hn|].
  rewrite Hw. vm_compute in Hrun. inversion Hrun. reflexivity.
Defined.

(** ** What the extractor hands to the pipeline *)

Import CostExtractor.

Lemma for_all_invariant {A S} (P : S -> Prop) (body : S -> A -> outcome S)
      (l : list A) :
  (forall st x st', In x l -> P st -> body st x = Returned st' -> P st') ->
  forall st st', P st -> for_all body l st = Returned st' -> P st'.
Proof.
  induction l as [|x l IH]; cbn [for_all]; intros Hstep st st' Hst Hrun.
  - now inversion Hrun; subst.
  - destruct (body st x) as [st1|f] eqn:E; cbn [and_then] in Hrun;
      [|discriminate].
    apply (IH (fun st x st' Hx => Hstep st x st' (or_intror Hx)) st1 st');
      [|exact Hrun].
    apply (Hstep st x st1); auto. now left.
Qed.

(** An amount above the dust threshold is, rounded to four decimals, at
    least 0.001. *)
Lemma py_round_dust (u : Q) :
  dust < NFloat u ->
  1 # 1000 <= round_decimal (rnd u) 4
  /\ dust <= NFloat (round_decimal (rnd u) 4).
Proof.
  cbn [val dust]. intros Hu.
  assert (H0 : 1 # 1000 <= rnd (1 # 1000))
    by (apply Qle_bool_iff; vm_compute; reflexivity).
  assert (Hd : round_decimal (1 # 1000) 4 == 1 # 1000) by reflexivity.
  assert (Hr : 1 # 1000 <= round_decimal (rnd u) 4).
  { rewrite <- Hd. apply round_decimal_mono. lra. }
  split; [exact Hr|]. now apply rnd_mono.
Qed.

Section Normalised.

Variable float_of_string : string -> option Q.
Variable payer_id : string.

Lemma emitted_clean (r : record) (date service : string) (a : Q) :
  field r "date" = Some (VStr date) ->
  field r "service" = Some (VStr service) ->
  field r "amount" = Some (VFloat a) ->
  1 # 1000 <= a ->
  clean_record r = strptime_ymd date.
Proof.
  intros Hd Hs Ha Hdust. unfold clean_record. rewrite Hd, Hs, Ha.
  cbn [num_of].
  assert (H0 : Qle_bool 0 (NFloat a) = true)
    by (apply Qle_bool_iff; cbn [val]; apply rnd_nonneg; lra).
  rewrite H0. cbn [andb]. now rewrite andb_true_r.
Qed.

Lemma normalise_group_emitted (dates : list string) (date : string)
      (records records' : list record) (g : group) :
  In date dates ->
  Forall (fun r => emitted payer_id dates r) records ->
  normalise_group float_of_string date payer_id records g = Returned records' ->
  Forall (fun r => emitted payer_id dates r) records'.
Proof.
  intros Hdate Hall. unfold normalise_group, to_float.
  destruct (Keys g) as [|service ks]; cbn [and_then]; [discriminate|].
  destruct (float_of_string (Amount (UnblendedCost g))) as [u|];
    cbn [and_then]; [|discriminate].
  destruct (float_of_string (Amount (BlendedCost g))) as [b|];
    cbn [and_then]; [|discriminate].
  destruct (Qltb dust (NFloat u)) eqn:Eu; intros [= <-]; [|exact Hall].
  apply Qltb_lt, py_round_dust in Eu. destruct Eu as [Eu Ev].
  apply Forall_app. split; [exact Hall|]. constructor; [|constructor].
  exists date, service, (round_decimal (rnd u) 4).
  split; [exact Hdate|]. repeat (split; [reflexivity|]).
  split; [exact Eu|]. split; [exact Ev|].
  now apply (emitted_clean _ date service (round_decimal (rnd u) 4)).
Qed.

Lemma normalise_period_emitted (dates : list string)
      (records records' : list record) (p : period) :
  In (Start p) dates ->
  Forall (fun r => emitted payer_id dates r) records ->
  normalise_period float_of_string payer_id records p = Returned records' ->
  Forall (fun r => emitted payer_id dates r) records'.
Proof.
  intros Hdate Hall. unfold normalise_period.
  destruct (for_all _ _ records) as [records1|f] eqn:Hgroups;
    cbn [and_then]; [|discriminate].
  assert (H1 : Forall (fun r => emitted payer_id dates r) records1).
  { revert Hgroups. apply for_all_invariant; [|exact Hall].
    intros st g st' _ Hst Hg.
    exact (normalise_group_emitted dates (Start p) st st' g Hdate Hst Hg). }
  destruct (Total p) as [total_metric|]; [|now intros [= <-]].
  destruct (match Groups p with Some gs => gs | None => [] end);
    [|now intros [= <-]].
  unfold to_float.
  destruct (float_of_string (Amount total_metric)) as [t|]; cbn [and_then];
    [|discriminate].
  destruct (Qltb dust (NFloat t)) eqn:Et; intros [= <-]; [|exact H1].
  apply Qltb_lt, py_round_dust in Et. destruct Et as [Et Ev].
  apply Forall_app. split; [exact H1|]. constructor; [|constructor].
  exists (Start p), "Total", (round_decimal (rnd t) 4).
  split; [exact Hdate|]. repeat (split; [reflexivity|]).
  split; [exact Et|]. split; [exact Ev|].
  now apply (emitted_clean _ (Start p) "Total" (round_decimal (rnd t) 4)).
Qed.

Lemma normalise_results_emitted (raw_results : list period)
      (records : list record) :
  _normalise_results float_of_string raw_results payer_id = Returned records ->
  Forall (fun r => emitted payer_id (map Start raw_results) r) records.
Proof.
  unfold _normalise_results. apply for_all_invariant; [|constructor].
  intros st p st' Hp Hst Hrun.
  apply (normalise_period_emitted _ st st' p); auto. now apply in_map.
Qed.

End Normalised.

(** Every record [_normalise_results] returns carries the start date of one
    of the periods, the payer id, a service name and a float amount: the
    float nearest to a decimal number of at least 0.001, so not below the
    float [0.001] of the dust threshold. So the aggregation of a payer with these records returns
    (it cannot raise on extractor output), [validate_cost_data] returns on
    them, and its per-record checks find nothing when the period dates
    parse. *)
Theorem normalised_records_feed_the_pipeline
        (float_of_string : string -> option Q) (float_repr : Q -> string)
        (raw_results : list period) (payer_id : string)
        (records : list record) :
  _normalise_results float_of_string raw_results payer_id = Returned records ->
  Forall (fun r =>
            exists date service a,
              In date (map Start raw_results)
              /\ field r "date" = Some (VStr date)
              /\ field r "payer_account" = Some (VStr payer_id)
              /\ field r "service" = Some (VStr service)
              /\ field r "amount" = Some (VFloat a)
              /\ 1 # 1000 <= a
              /\ dust <= NFloat a) records
  /\ (forall payer_name bu,
         exists aggregated,
           _aggregate_by_business_unit
             [(payer_id, {| InvoiceProcessor.name := payer_name;
                            InvoiceProcessor.business_unit := bu;
                            costs := records |})]
           = Ok aggregated)
  /\ (forall log,
         exists result log',
           validate_cost_data float_repr log records payer_id
           = Ok (result, log'))
  /\ (forallb strptime_ymd (map Start raw_results) = true ->
      forallb clean_record records = true
      /\ check_records float_repr 0 records [] = Ok []).
Proof.
  intros Hrun. apply normalise_results_emitted in Hrun.
  rewrite Forall_forall in Hrun.
  split; [|split; [|split]].
  - apply Forall_forall. intros r Hr.
    destruct (Hrun r Hr)
      as (date & service & a & H1 & H2 & H3 & H4 & H5 & H6 & H7 & _).
    exists date, service, a. auto 10.
  - intros payer_name bu. apply aggregate_from_total.
    intros item r [<-|[]] Hr. cbn [snd costs] in Hr.
    destruct (Hrun r Hr) as (_ & _ & a & _ & _ & _ & _ & Ha & _).
    unfold amount_of. rewrite Ha. discriminate.
  - intros log. apply validate_cost_data_typed.
    apply Forall_forall. intros r Hr.
    destruct (Hrun r Hr) as (date & _ & a & _ & Hd & _ & _ & Ha & _).
    unfold typed_record. rewrite Hd, Ha. split; [discriminate|exact I].
  - intros Hdates.
    assert (Hclean : forallb clean_record records = true).
    { apply forallb_forall. intros r Hr.
      destruct (Hrun r Hr)
        as (date & _ & _ & Hin & _ & _ & _ & _ & _ & _ & ->).
      rewrite forallb_forall in Hdates. now apply Hdates. }
    split; [exact Hclean|]. now apply check_records_clean.
Qed.

Lemma normalised_records_feed_the_pipeline_witness :
  let float_of_string :=
    fun s => if String.eqb s "12.5" then Some 12.5
             else if String.eqb s "0.0004" then Some 0.0004 else None in
  let ec2 := {| Keys := ["EC2"];
                UnblendedCost := {| Amount := "12.5"; Unit := Some "USD" |};
                BlendedCost := {| Amount := "12.5"; Unit := Some "USD" |} |} in
  let sns := {| Keys := ["SNS"];
                UnblendedCost := {| Amount := "0.0004"; Unit := None |};
                BlendedCost := {| Amount := "0.0004"; Unit := None |} |} in
  let raw_results :=
    [{| Start := "2025-01-15"; Groups := Some [ec2; sns]; Total := None |}] in
  exists r,
    _normalise_results float_of_string raw_results "123456789012"
    = Returned [r]
    /\ field r "service" = Some (VStr "EC2")
    /\ clean_record r = true
    /\ exists aggregated,
        _aggregate_by_business_unit
          [("123456789012",
            {| InvoiceProcessor.name := "payer";
               InvoiceProcessor.business_unit := "Engineering";
               costs := [r] |})]
        = Ok aggregated.
Proof.
  intros float_of_string ec2 sns raw_results.
  destruct (_normalise_results float_of_string raw_results "123456789012")
    as [records|f] eqn:Hrun; [|vm_compute in Hrun; discriminate].
  destruct (normalised_records_feed_the_pipeline float_of_string
              Examples.no_floats raw_results "123456789012" records Hrun)
    as (_ & Hagg & _ & Hclean).
  destruct Hclean as [Hclean _]; [reflexivity|].
  vm_compute in Hrun. inversion Hrun; subst records. eexists.
  split; [reflexivity|]. split; [reflexivity|].
  split; [exact (proj1 (andb_prop _ _ Hclean))|].
  exact (Hagg "payer" "Engineering").
Defined.

(** ** Pagination and throttling *)

Lemma throttle_step (st : limiter) :
  request_count (_throttle st) = S (request_count st)
  /\ (sleeps (_throttle st) + request_count st / 5
      = sleeps st + S (request_count st) / 5)%nat.
Proof.
  unfold _throttle. cbn [request_count sleeps]. split; [reflexivity|].
  set (c := request_count st).
  pose proof (Nat.div_mod_eq (S c) 5) as H1.
  pose proof (Nat.div_mod_eq c 5) as H0.
  pose proof (Nat.mod_upper_bound (S c) 5) as B1.
  pose proof (Nat.mod_upper_bound c 5) as B0.
  destruct (Nat.eqb_spec (S c mod 5) 0); lia.
Qed.

Lemma throttle_iter (n : nat) (st : limiter) :
  request_count (Nat.iter n _throttle st) = (request_count st + n)%nat
  /\ (sleeps (Nat.iter n _throttle st) + request_count st / 5
      = sleeps st + (request_count st + n) / 5)%nat.
Proof.
  induction n as [|n [IHc IHs]].
  - cbn. rewrite !Nat.add_0_r. split; reflexivity.
  - change (Nat.iter (S n) _throttle st)
      with (_throttle (Nat.iter n _throttle st)).
    destruct (throttle_step (Nat.iter n _throttle st)) as [Hc Hs].
    rewrite IHc in Hc, Hs. rewrite Hc.
    replace (request_count st + S n)%nat with (S (request_count st + n))
      by lia.
    split; [reflexivity|lia].
Qed.

Lemma throttle_iter_shift (n : nat) (st : limiter) :
  Nat.iter n _throttle (_throttle st) = Nat.iter (S n) _throttle st.
Proof. symmetry. apply Nat.iter_succ_r. Qed.

Section Pagination.

Variable get_cost_and_usage : option string -> response.

Lemma query_pages_returns (rs : list response) (token : option string) :
  pages_from get_cost_and_usage token rs ->
  forall fuel st results,
    (List.length rs <= fuel)%nat ->
    query_pages get_cost_and_usage fuel st token results
    = Some (results ++ flat_map ResultsByTime rs,
            Nat.iter (List.length rs) _throttle st).
Proof.
  induction 1 as [token Hlast|token next rs Hnext Hrest IH];
    intros fuel st results Hfuel; cbn [List.length] in Hfuel;
    (destruct fuel as [|fuel]; [lia|]); cbn [query_pages flat_map List.length].
  - rewrite Hlast. now rewrite app_nil_r.
  - rewrite Hnext, IH by lia. now rewrite <- app_assoc, throttle_iter_shift.
Qed.

Lemma query_pages_inv (fuel : nat) :
  forall st token results out st',
    query_pages get_cost_and_usage fuel st token results = Some (out, st') ->
    exists rs,
      pages_from get_cost_and_usage token rs
      /\ (List.length rs <= fuel)%nat.
Proof.
  induction fuel as [|fuel IH]; intros st token results out st';
    cbn [query_pages]; [discriminate|].
  destruct (NextPageToken (get_cost_and_usage token)) as [next|] eqn:E.
  - intros Hrun. destruct (IH _ _ _ _ _ Hrun) as (rs & Hrs & Hlen).
    exists (get_cost_and_usage token :: rs). split.
    + now apply next_page with next.
    + cbn [List.length]. lia.
  - intros _. exists [get_cost_and_usage token]. split.
    + now apply last_page.
    + cbn [List.length]. lia.
Qed.

Lemma query_pages_endless (fuel : nat) :
  (forall token, NextPageToken (get_cost_and_usage token) <> None) ->
  forall st token results,
    query_pages get_cost_and_usage fuel st token results = None.
Proof.
  intros Hmore. induction fuel as [|fuel IH]; intros st token results;
    cbn [query_pages]; [reflexivity|].
  destruct (NextPageToken (get_cost_and_usage token)) as [next|] eqn:E.
  - apply IH.
  - now apply Hmore in E.
Qed.

End Pagination.

(** When the API's responses, each asked with the token of the one before,
    end after n pages, [_query_cost_explorer] makes exactly n requests and
    returns the pages' results concatenated in page order, given at least n
    iterations; the request counter grows by n and the loop sleeps once each
    time the counter, which is never reset, reaches a multiple of five.
    A query that returns has met such a last page; against an API that
    sends a token with every response the loop never ends. *)
Theorem query_returns_all_pages
        (get_cost_and_usage : option string -> response) (st : limiter) :
  (forall rs fuel,
      pages_from get_cost_and_usage None rs ->
      (List.length rs <= fuel)%nat ->
      exists st',
        _query_cost_explorer get_cost_and_usage fuel st
        = Some (flat_map ResultsByTime rs, st')
        /\ request_count st' = (request_count st + List.length rs)%nat
        /\ (sleeps st' + request_count st / 5
            = sleeps st + (request_count st + List.length rs) / 5)%nat)
  /\ (forall fuel out st',
         _query_cost_explorer get_cost_and_usage fuel st = Some (out, st') ->
         exists rs,
           pages_from get_cost_and_usage None rs
           /\ (List.length rs <= fuel)%nat)
  /\ ((forall token, NextPageToken (get_cost_and_usage token) <> None) ->
      forall fuel, _query_cost_explorer get_cost_and_usage fuel st = None).
Proof.
  split; [|split].
  - intros rs fuel Hrs Hfuel. unfold _query_cost_explorer.
    rewrite (query_pages_returns get_cost_and_usage rs None Hrs fuel st []
               Hfuel).
    cbn [app]. eexists. split; [reflexivity|]. apply throttle_iter.
  - intros fuel out st'. apply query_pages_inv.
  - intros Hmore fuel. now apply query_pages_endless.
Qed.

Lemma query_returns_all_pages_witness :
  let page day :=
    {| Start := day; Groups := None; Total := None |} in
  let get_cost_and_usage token :=
    match token with
    | None => {| ResultsByTime := [page "2025-01-01"; page "2025-01-02"];
                 NextPageToken := Some "p2" |}
    | Some _ => {| ResultsByTime := [page "2025-01-03"];
                   NextPageToken := None |}
    end in
  exists st',
    _query_cost_explorer get_cost_and_usage 7
                         {| request_count := 4; sleeps := 0 |}
    = Some ([page "2025-01-01"; page "2025-01-02"; page "2025-01-03"], st')
    /\ request_count st' = 6%nat
    /\ sleeps st' = 1%nat.
Proof.
  intros page get_cost_and_usage.
  assert (Hrs : pages_from get_cost_and_usage None
                  [get_cost_and_usage None; get_cost_and_usage (Some "p2")]).
  { apply next_page with "p2"; [reflexivity|]. apply last_page. reflexivity. }
  assert (Hfuel : (List.length [get_cost_and_usage None;
                                get_cost_and_usage (Some "p2")] <= 7)%nat)
    by (cbn; lia).
  destruct (query_returns_all_pages get_cost_and_usage
              {| request_count := 4; sleeps := 0 |}) as (Hall & _).
  destruct (Hall _ 7%nat Hrs Hfuel) as (st' & Hrun & Hc & Hs).
  exists st'. split; [exact Hrun|]. split; [exact Hc|].
  cbn in Hs. lia.
Defined.

(** ** The account index *)

Lemma build_index_from (accounts : list AccountMapper.account) :
  forall index,
    match for_each AccountMapper.index_account accounts index with
    | Ok index' =>
        Forall (fun a => AccountMapper.id a <> None) accounts
        /\ keys index' = keys index ++ unseen (keys index) (ids_of accounts)
        /\ forall i,
            get String.eqb index' i
            = match last_with_id i accounts with
              | Some a => Some (AccountMapper.metadata_of a)
              | None => get String.eqb index i
              end
    | Raise e =>
        e = KeyError /\ Exists (fun a => AccountMapper.id a = None) accounts
    end.
Proof.
  induction accounts as [|a accounts IH]; intros index;
    cbn [for_each ids_of flat_map unseen last_with_id].
  - split; [constructor|]. split; [now rewrite app_nil_r|reflexivity].
  - unfold AccountMapper.index_account at 1, has_id.
    destruct (AccountMapper.id a) as [account_id|] eqn:Eid; cbn [bind];
      [|split; [reflexivity|now left]].
    specialize (IH (setitem String.eqb index account_id
                            (AccountMapper.metadata_of a))).
    destruct (for_each AccountMapper.index_account accounts _) as [index'|e].
    + destruct IH as (Hall & Hkeys & Hget). split; [|split].
      * constructor; [congruence|exact Hall].
      * rewrite Hkeys, keys_setitem, mem_existsb. cbn [app unseen].
        fold (ids_of accounts).
        destruct (existsb (String.eqb account_id) (keys index));
          [reflexivity|now rewrite <- app_assoc].
      * intros i. rewrite Hget.
        destruct (last_with_id i accounts); [reflexivity|].
        destruct (String.eqb_spec account_id i) as [->|Hne].
        -- apply get_setitem_same, string_eqb_spec.
        -- apply get_setitem_other; [apply string_eqb_spec|exact Hne].
    + destruct IH as [-> Hex]. split; [reflexivity|now right].
Qed.

Lemma build_index_NoDup (accounts : list AccountMapper.account) :
  forall index index',
    for_each AccountMapper.index_account accounts index = Ok index' ->
    NoDup (keys index) -> NoDup (keys index').
Proof.
  induction accounts as [|a accounts IH]; cbn [for_each];
    intros index index' Hrun Hnd.
  - now inversion Hrun; subst.
  - unfold AccountMapper.index_account at 1 in Hrun.
    destruct (AccountMapper.id a); cbn [bind] in Hrun; [|discriminate].
    apply (IH _ _ Hrun).
    now apply (setitem_NoDup String.eqb string_eqb_spec).
Qed.

(** [_build_index] returns exactly when every account has an id, and raises
    [KeyError] otherwise. The index has one key per distinct id, in the
    order of first occurrence, and under an id it holds the metadata of the
    last account configured with it, absent fields replaced by their
    defaults. *)
Theorem build_index_last_wins (accounts : list AccountMapper.account) :
  ((exists index, AccountMapper._build_index accounts = Ok index)
   <-> Forall (fun a => AccountMapper.id a <> None) accounts)
  /\ (forall e, AccountMapper._build_index accounts = Raise e -> e = KeyError)
  /\ (forall index,
         AccountMapper._build_index accounts = Ok index ->
         keys index = first_occurrences (ids_of accounts)
         /\ NoDup (keys index)
         /\ forall i,
             get String.eqb index i
             = option_map AccountMapper.metadata_of (last_with_id i accounts)).
Proof.
  unfold AccountMapper._build_index.
  pose proof (build_index_from accounts []) as H.
  destruct (for_each AccountMapper.index_account accounts []) as [index|e]
    eqn:E.
  - destruct H as (Hall & Hkeys & Hget). split; [|split].
    + split; [intros _; exact Hall|intros _; now exists index].
    + discriminate.
    + intros index' [= <-]. split; [exact Hkeys|]. split.
      * apply (build_index_NoDup accounts [] index E). constructor.
      * intros i. rewrite Hget. now destruct (last_with_id i accounts).
  - destruct H as [-> Hex]. split; [|split].
    + split; [intros [index Hrun]; discriminate|].
      intros Hall. exfalso. apply Exists_exists in Hex as (a & Ha & Hid).
      rewrite Forall_forall in Hall. now apply (Hall a Ha).
    + now intros e' [= <-].
    + discriminate.
Qed.

Lemma build_index_last_wins_witness :
  let prod := {| AccountMapper.id := Some "111111111111";
                 AccountMapper.name := Some "eng-prod";
                 AccountMapper.business_unit := Some "Engineering";
                 AccountMapper.cost_centre := Some "CC-100";
                 AccountMapper.owner := None;
                 AccountMapper.environment := None |} in
  let moved := {| AccountMapper.id := Some "111111111111";
                  AccountMapper.name := Some "eng-prod";
                  AccountMapper.business_unit := Some "Platform";
                  AccountMapper.cost_centre := None;
                  AccountMapper.owner := None;
                  AccountMapper.environment := None |} in
  exists index,
    AccountMapper._build_index [prod; moved] = Ok index
    /\ keys index = ["111111111111"]
    /\ AccountMapper.get_business_unit index "111111111111" = "Platform".
Proof.
  intros prod moved.
  destruct (build_index_last_wins [prod; moved]) as (Hret & _ & Hidx).
  destruct (proj2 Hret) as [index Hrun].
  { repeat constructor; discriminate. }
  destruct (Hidx index Hrun) as (Hkeys & _ & Hget).
  exists index. split; [exact Hrun|]. split; [exact Hkeys|].
  unfold AccountMapper.get_business_unit. rewrite Hget. reflexivity.
Defined.

Lemma last_with_id_None (i : string) (accounts : list AccountMapper.account) :
  last_with_id i accounts = None <-> existsb (has_id i) accounts = false.
Proof.
  induction accounts as [|a accounts IH]; cbn [last_with_id existsb].
  - tauto.
  - rewrite orb_false_iff, <- IH.
    destruct (last_with_id i accounts); destruct (has_id i a);
      intuition discriminate.
Qed.

Lemma last_with_id_In (i : string) (accounts : list AccountMapper.account)
      (a : AccountMapper.account) :
  last_with_id i accounts = Some a ->
  In a accounts /\ AccountMapper.id a = Some i.
Proof.
  induction accounts as [|b accounts IH]; cbn [last_with_id]; [discriminate|].
  destruct (last_with_id i accounts) as [c|].
  - intros [= <-]. destruct (IH eq_refl). split; [now right|assumption].
  - unfold has_id. destruct (AccountMapper.id b) as [j|] eqn:E;
      [|discriminate].
    destruct (String.eqb_spec j i) as [->|]; [|discriminate].
    intros [= <-]. split; [now left|exact E].
Qed.

(** With the index built, [get_unmapped_accounts] returns, in order,
    exactly the ids under which no account is configured; each of them
    resolves to the business unit "Unassigned" and to the default metadata.
    For every id [get_business_unit] and [get_metadata] agree, and a
    configured id resolves to the business unit of the last account
    configured with it. *)
Theorem unmapped_accounts_resolve_to_default
        (accounts : list AccountMapper.account)
        (index : list (string * AccountMapper.metadata))
        (account_ids : list string) :
  AccountMapper._build_index accounts = Ok index ->
  AccountMapper.get_unmapped_accounts index account_ids
  = filter (fun i => negb (existsb (has_id i) accounts)) account_ids
  /\ (forall i,
         In i (AccountMapper.get_unmapped_accounts index account_ids) ->
         AccountMapper.get_business_unit index i = "Unassigned"
         /\ AccountMapper.get_metadata index i = AccountMapper.default_metadata)
  /\ (forall i,
         AccountMapper.get_business_unit index i
         = AccountMapper.meta_business_unit (AccountMapper.get_metadata index i))
  /\ (forall i,
         AccountMapper.get_business_unit index i
         = match last_with_id i accounts with
           | Some a =>
               AccountMapper.or_default (AccountMapper.business_unit a)
                                        "Unassigned"
           | None => "Unassigned"
           end).
Proof.
  intros Hrun.
  assert (Hget : forall i,
             get String.eqb index i
             = option_map AccountMapper.metadata_of (last_with_id i accounts)).
  { pose proof (build_index_from accounts []) as H.
    unfold AccountMapper._build_index in Hrun. rewrite Hrun in H.
    destruct H as (_ & _ & H). intros i. rewrite H.
    now destruct (last_with_id i accounts). }
  assert (Hmem : forall i,
             mem String.eqb index i = existsb (has_id i) accounts).
  { intros i. unfold mem. rewrite Hget.
    destruct (last_with_id i accounts) as [a|] eqn:E; cbn [option_map].
    - destruct (existsb (has_id i) accounts) eqn:Ex; [reflexivity|].
      apply last_with_id_None in Ex. congruence.
    - symmetry. now apply last_with_id_None. }
  split; [|split; [|split]].
  - unfold AccountMapper.get_unmapped_accounts. apply filter_ext.
    intros i. now rewrite Hmem.
  - intros i Hin. unfold AccountMapper.get_unmapped_accounts in Hin.
    apply filter_In in Hin as [_ Hin]. apply negb_true_iff in Hin.
    unfold mem in Hin.
    unfold AccountMapper.get_business_unit, AccountMapper.get_metadata,
      get_default.
    destruct (get String.eqb index i); [discriminate|]. split; reflexivity.
  - intros i.
    unfold AccountMapper.get_business_unit, AccountMapper.get_metadata,
      get_default.
    now destruct (get String.eqb index i).
  - intros i. unfold AccountMapper.get_business_unit. rewrite Hget.
    now destruct (last_with_id i accounts).
Qed.

Lemma unmapped_accounts_resolve_to_default_witness :
  let prod := {| AccountMapper.id := Some "111111111111";
                 AccountMapper.name := Some "eng-prod";
                 AccountMapper.business_unit := Some "Engineering";
                 AccountMapper.cost_centre := Some "CC-100";
                 AccountMapper.owner := None;
                 AccountMapper.environment := None |} in
  exists index,
    AccountMapper._build_index [prod] = Ok index
    /\ AccountMapper.get_unmapped_accounts
         index ["999999999999"; "111111111111"; "999999999999"]
       = ["999999999999"; "999999999999"]
    /\ AccountMapper.get_business_unit index "999999999999" = "Unassigned".
Proof.
  intros prod.
  destruct (AccountMapper._build_index [prod]) as [index|e] eqn:Hrun;
    [|vm_compute in Hrun; discriminate].
  destruct (unmapped_accounts_resolve_to_default
              [prod] index ["999999999999"; "111111111111"; "999999999999"]
              Hrun) as (Hlist & Hdflt & _).
  exists index. split; [reflexivity|]. split; [exact Hlist|].
  apply Hdflt. rewrite Hlist. now left.
Defined.

(** ** The mapping check *)

Lemma check_account_Ok (found : list string) (a : AccountMapper.account)
      (i : string) :
  AccountMapper.id a = Some i ->
  exists added,
    AccountMapper.check_account found a = Ok (found ++ added)
    /\ List.length added
       = ((if AccountMapper.missing (AccountMapper.business_unit a)
           then 1 else 0)
          + (if AccountMapper.missing (AccountMapper.cost_centre a)
             then 1 else 0))%nat.
Proof.
  intros Hid. unfold AccountMapper.check_account. rewrite Hid.
  destruct (AccountMapper.missing (AccountMapper.business_unit a));
    destruct (AccountMapper.missing (AccountMapper.cost_centre a));
    cbn [bind]; rewrite <- ?app_assoc; cbn [app].
  all: match goal with
       | |- exists added, Ok (?f ++ ?a) = _ /\ _ =>
           exists a; split; reflexivity
       | |- exists added, Ok ?f = _ /\ _ =>
           exists []; split; [now rewrite app_nil_r|reflexivity]
       end.
Qed.

Lemma check_accounts_Ok (accounts : list AccountMapper.account) :
  Forall (fun a => AccountMapper.id a <> None) accounts ->
  forall found,
    exists added,
      for_each AccountMapper.check_account accounts found = Ok (found ++ added)
      /\ (added = []
          <-> forallb (fun a =>
                         negb (AccountMapper.missing
                                 (AccountMapper.business_unit a))
                         && negb (AccountMapper.missing
                                    (AccountMapper.cost_centre a)))
                      accounts = true)
      /\ (List.length added <= 2 * List.length accounts)%nat.
Proof.
  induction 1 as [|a accounts Ha Hall IH]; intros found;
    cbn [for_each forallb List.length].
  - exists []. rewrite app_nil_r. repeat split; auto.
  - destruct (AccountMapper.id a) as [i|] eqn:Hid; [|contradiction].
    destruct (check_account_Ok found a i Hid) as (a1 & -> & Hlen1).
    cbn [bind]. destruct (IH (found ++ a1)) as (a2 & -> & Hnil2 & Hlen2).
    exists (a1 ++ a2). rewrite app_assoc. split; [reflexivity|]. split.
    + rewrite andb_true_iff, <- Hnil2. split.
      * intros H. apply app_eq_nil in H as [-> ->]. split; [|reflexivity].
        cbn [List.length] in Hlen1.
        destruct (AccountMapper.missing (AccountMapper.business_unit a));
          destruct (AccountMapper.missing (AccountMapper.cost_centre a));
          cbn in Hlen1 |- *; congruence.
      * intros [Hok ->]. rewrite app_nil_r.
        destruct (AccountMapper.missing (AccountMapper.business_unit a));
          destruct (AccountMapper.missing (AccountMapper.cost_centre a));
          try discriminate.
        now destruct a1.
    + rewrite length_app, Hlen1.
      destruct (AccountMapper.missing (AccountMapper.business_unit a));
        destruct (AccountMapper.missing (AccountMapper.cost_centre a)); lia.
Qed.

(** Once the constructor has built the index, [validate_mappings] returns:
    it cannot raise. The configuration is valid exactly when every account
    has a non-empty business unit and a non-empty cost centre; there are at
    most two issues per account. Under a valid configuration every
    configured id resolves to a non-empty business unit that an account
    with that id states, never to a default. *)
Theorem validate_mappings_after_build
        (accounts : list AccountMapper.account)
        (index : list (string * AccountMapper.metadata)) :
  AccountMapper._build_index accounts = Ok index ->
  exists report,
    AccountMapper.validate_mappings accounts = Ok report
    /\ AccountMapper.total_accounts report = List.length accounts
    /\ (List.length (AccountMapper.mapping_issues report)
        <= 2 * List.length accounts)%nat
    /\ (AccountMapper.valid report = true
        <-> AccountMapper.mapping_issues report = [])
    /\ (AccountMapper.valid report = true
        <-> forall a,
            In a accounts ->
            AccountMapper.missing (AccountMapper.business_unit a) = false
            /\ AccountMapper.missing (AccountMapper.cost_centre a) = false)
    /\ (AccountMapper.valid report = true ->
        forall i,
          mem String.eqb index i = true ->
          exists a bu,
            In a accounts
            /\ AccountMapper.id a = Some i
            /\ AccountMapper.business_unit a = Some bu
            /\ bu <> EmptyString
            /\ AccountMapper.get_business_unit index i = bu).
Proof.
  intros Hrun.
  pose proof (build_index_from accounts []) as Hidx.
  unfold AccountMapper._build_index in Hrun. rewrite Hrun in Hidx.
  destruct Hidx as (Hids & _ & Hget).
  destruct (check_accounts_Ok accounts Hids []) as (added & Hcheck & Hnil & Hlen).
  cbn [app] in Hcheck. unfold AccountMapper.validate_mappings.
  rewrite Hcheck. cbn [bind]. eexists. split; [reflexivity|].
  cbn [AccountMapper.total_accounts AccountMapper.mapping_issues
       AccountMapper.valid].
  assert (Hvalid : (List.length added =? 0)%nat = true <-> added = []).
  { rewrite Nat.eqb_eq. destruct added; cbn; split; congruence. }
  assert (Hfields : added = []
                    <-> forall a,
                        In a accounts ->
                        AccountMapper.missing (AccountMapper.business_unit a)
                        = false
                        /\ AccountMapper.missing (AccountMapper.cost_centre a)
                           = false).
  { rewrite Hnil, forallb_forall. split; intros H a Ha;
      specialize (H a Ha).
    - apply andb_true_iff in H as [H1 H2].
      now rewrite negb_true_iff in H1, H2.
    - destruct H as [-> ->]. reflexivity. }
  split; [reflexivity|]. split; [exact Hlen|]. split; [exact Hvalid|].
  split; [now rewrite Hvalid|].
  intros Hv0 i Hmem. pose proof (proj1 Hfields (proj1 Hvalid Hv0)) as Hv.
  unfold mem in Hmem. rewrite Hget in Hmem.
  destruct (last_with_id i accounts) as [a|] eqn:Elast.
  - destruct (last_with_id_In i accounts a Elast) as [Ha Hid].
    destruct (Hv a Ha) as [Hbu _].
    unfold AccountMapper.missing in Hbu.
    destruct (AccountMapper.business_unit a) as [bu|] eqn:Ebu;
      [|discriminate].
    exists a, bu. split; [exact Ha|]. split; [exact Hid|].
    split; [exact Ebu|]. split.
    + now apply String.eqb_neq.
    + unfold AccountMapper.get_business_unit. rewrite Hget, Elast.
      unfold AccountMapper.metadata_of. cbn [AccountMapper.meta_business_unit].
      now rewrite Ebu.
  - cbn [get] in Hmem. discriminate.
Qed.

Lemma validate_mappings_after_build_witness :
  let prod := {| AccountMapper.id := Some "111111111111";
                 AccountMapper.name := Some "eng-prod";
                 AccountMapper.business_unit := Some "Engineering";
                 AccountMapper.cost_centre := Some "CC-100";
                 AccountMapper.owner := None;
                 AccountMapper.environment := None |} in
  let loose := {| AccountMapper.id := Some "222222222222";
                  AccountMapper.name := None;
                  AccountMapper.business_unit := Some EmptyString;
                  AccountMapper.cost_centre := None;
                  AccountMapper.owner := None;
                  AccountMapper.environment := None |} in
  exists index report,
    AccountMapper._build_index [prod; loose] = Ok index
    /\ AccountMapper.validate_mappings [prod; loose] = Ok report
    /\ AccountMapper.valid report = false
    /\ AccountMapper.total_accounts report = 2%nat.
Proof.
  intros prod loose.
  destruct (AccountMapper._build_index [prod; loose]) as [index|e] eqn:Hrun;
    [|vm_compute in Hrun; discriminate].
  destruct (validate_mappings_after_build [prod; loose] index Hrun)
    as (report & Hcheck & Htotal & _ & _ & Hvalid & _).
  exists index, report. split; [reflexivity|]. split; [exact Hcheck|].
  split; [|exact Htotal].
  destruct (AccountMapper.valid report); [|reflexivity].
  destruct (proj1 Hvalid eq_refl loose) as [Hbu _]; [right; now left|].
  discriminate.
Defined.

(** ** The extraction loop and the account mapper *)

Section ExtractionLoop.

Variable extract_monthly_costs : string -> result (list record).

Lemma setitem_same_account (all_costs : list (string * account_data))
      (index : list (string * AccountMapper.metadata)) (k : string)
      (data : account_data) (meta : AccountMapper.metadata) :
  Forall2 (same_account extract_monthly_costs) all_costs index ->
  (forall k', k' = k ->
              same_account extract_monthly_costs (k', data) (k', meta)) ->
  Forall2 (same_account extract_monthly_costs)
          (setitem String.eqb all_costs k data)
          (setitem String.eqb index k meta).
Proof.
  intros Hall Hnew.
  induction Hall as [|[k1 d1] [k2 m2] l1 l2 Hhead Hall IH]; cbn [setitem].
  - constructor; [now apply Hnew|constructor].
  - assert (Hk : k1 = k2) by apply Hhead. subst k2.
    destruct (String.eqb_spec k1 k) as [Heq|Hne].
    + constructor; [now apply Hnew|exact Hall].
    + constructor; [exact Hhead|exact IH].
Qed.

Lemma extract_from (payers : list AccountMapper.account) :
  forall all_costs all_costs' index,
    for_each (Process.extract_payer extract_monthly_costs) payers all_costs
    = Ok all_costs' ->
    Forall2 (same_account extract_monthly_costs) all_costs index ->
    exists index',
      for_each AccountMapper.index_account payers index = Ok index'
      /\ Forall2 (same_account extract_monthly_costs) all_costs' index'.
Proof.
  induction payers as [|payer payers IH]; cbn [for_each];
    intros all_costs all_costs' index Hrun Hall.
  - inversion Hrun; subst. eauto.
  - unfold Process.extract_payer at 1 in Hrun.
    unfold AccountMapper.index_account at 1.
    destruct (AccountMapper.id payer) as [account_id|]; cbn [bind] in Hrun;
      [|discriminate].
    destruct (AccountMapper.name payer) as [payer_name|] eqn:Ename;
      cbn [bind] in Hrun; [|discriminate].
    destruct (extract_monthly_costs account_id) as [costs|e] eqn:Ecosts;
      cbn [bind] in Hrun |- *; [|discriminate].
    apply (IH _ _ _ Hrun). apply setitem_same_account; [exact Hall|].
    intros k' ->. unfold same_account, AccountMapper.metadata_of.
    cbn [fst snd business_unit name InvoiceProcessor.costs
         AccountMapper.meta_business_unit AccountMapper.meta_name].
    rewrite Ename. cbn [AccountMapper.or_default]. auto.
Qed.

Lemma extract_from_raises (payers : list AccountMapper.account) :
  forall all_costs e,
    for_each (Process.extract_payer extract_monthly_costs) payers all_costs
    = Raise e ->
    (e = KeyError
     /\ exists payer,
         In payer payers
         /\ (AccountMapper.id payer = None \/ AccountMapper.name payer = None))
    \/ exists i, In i (ids_of payers) /\ extract_monthly_costs i = Raise e.
Proof.
  induction payers as [|payer payers IH]; cbn [for_each]; intros all_costs e;
    [discriminate|].
  unfold Process.extract_payer at 1. unfold ids_of. cbn [flat_map].
  fold (ids_of payers).
  destruct (AccountMapper.id payer) as [account_id|] eqn:Eid; cbn [bind].
  - destruct (AccountMapper.name payer) as [payer_name|] eqn:Ename;
      cbn [bind].
    + destruct (extract_monthly_costs account_id) as [costs|e'] eqn:Ecosts;
        cbn [bind].
      * intros Hrun. destruct (IH _ _ Hrun) as [(He & p & Hp & Hmiss)|(i & Hi & He)].
        -- left. split; [exact He|]. exists p. split; [now right|exact Hmiss].
        -- right. exists i. split; [now right|exact He].
      * intros [= <-]. right. exists account_id. split; [now left|exact Ecosts].
    + intros [= <-]. left. split; [reflexivity|]. exists payer.
      split; [now left|now right].
  - intros [= <-]. left. split; [reflexivity|]. exists payer.
    split; [now left|now left].
Qed.

Lemma same_account_keys (all_costs : list (string * account_data))
      (index : list (string * AccountMapper.metadata)) :
  Forall2 (same_account extract_monthly_costs) all_costs index ->
  keys all_costs = keys index.
Proof.
  unfold keys. induction 1 as [|c m l1 l2 Hhead Hall IH]; cbn [map];
    [reflexivity|].
  destruct Hhead as [-> _]. now rewrite IH.
Qed.

Lemma same_account_In (all_costs : list (string * account_data))
      (index : list (string * AccountMapper.metadata))
      (c : string * account_data) :
  Forall2 (same_account extract_monthly_costs) all_costs index ->
  In c all_costs ->
  exists m, In m index /\ same_account extract_monthly_costs c m.
Proof.
  induction 1 as [|c1 m1 l1 l2 Hhead Hall IH]; [intros []|].
  intros [<-|Hin].
  - exists m1. split; [now left|exact Hhead].
  - destruct (IH Hin) as (m & Hm & Hrel). exists m. split; [now right|exact Hrel].
Qed.

End ExtractionLoop.

(** When the extraction loop of [process] returns, the account mapper's
    constructor succeeds on the same payer list, and the two agree: they
    have the same account ids in the same order, and each account's
    business unit in [all_costs] is what [get_business_unit] answers
    ("Unassigned" when the payer states none), its name what [get_metadata]
    holds, its costs what the extractor returned for the id. The loop raises
    [KeyError] for a payer without id or name, or whatever the extractor
    raises. *)
Theorem extraction_agrees_with_mapper
        (extract_monthly_costs : string -> result (list record))
        (payer_accounts : list AccountMapper.account) :
  (forall all_costs,
      Process.extract_all extract_monthly_costs payer_accounts = Ok all_costs ->
      exists index,
        AccountMapper._build_index payer_accounts = Ok index
        /\ keys all_costs = keys index
        /\ keys all_costs = first_occurrences (ids_of payer_accounts)
        /\ forall i data,
            In (i, data) all_costs ->
            business_unit data = AccountMapper.get_business_unit index i
            /\ name data
               = AccountMapper.meta_name (AccountMapper.get_metadata index i)
            /\ extract_monthly_costs i = Ok (costs data))
  /\ (forall e,
         Process.extract_all extract_monthly_costs payer_accounts = Raise e ->
         (e = KeyError
          /\ exists payer,
              In payer payer_accounts
              /\ (AccountMapper.id payer = None
                  \/ AccountMapper.name payer = None))
         \/ exists i,
             In i (ids_of payer_accounts)
             /\ extract_monthly_costs i = Raise e).
Proof.
  split; [|intros e; apply extract_from_raises].
  intros all_costs Hrun. unfold Process.extract_all in Hrun.
  destruct (extract_from extract_monthly_costs payer_accounts [] all_costs []
              Hrun (Forall2_nil _)) as (index & Hidx & Hall).
  exists index. split; [exact Hidx|].
  pose proof (same_account_keys _ _ _ Hall) as Hkeys.
  pose proof (build_index_from payer_accounts []) as Hfrom.
  rewrite Hidx in Hfrom. destruct Hfrom as (_ & Hfirst & _).
  cbn [keys map app] in Hfirst.
  split; [exact Hkeys|]. split; [now rewrite Hkeys|].
  intros i data Hin.
  destruct (same_account_In _ _ _ _ Hall Hin) as ([i' meta] & Hm & Hrel).
  destruct Hrel as (Hi & Hbu & Hname & Hcosts). cbn [fst snd] in *. subst i'.
  assert (Hget : get String.eqb index i = Some meta).
  { apply (In_get String.eqb string_eqb_spec); [|exact Hm].
    apply (build_index_NoDup payer_accounts [] index Hidx). constructor. }
  unfold AccountMapper.get_business_unit, AccountMapper.get_metadata,
    get_default.
  rewrite Hget. auto.
Qed.

Lemma extraction_agrees_with_mapper_witness :
  let payer := {| AccountMapper.id := Some "123456789012";
                  AccountMapper.name := Some "payer";
                  AccountMapper.business_unit := None;
                  AccountMapper.cost_centre := None;
                  AccountMapper.owner := None;
                  AccountMapper.environment := None |} in
  let extract_monthly_costs := fun _ : string => Ok [Examples.ec2_jan15] in
  exists all_costs data,
    Process.extract_all extract_monthly_costs [payer] = Ok all_costs
    /\ In ("123456789012", data) all_costs
    /\ business_unit data = "Unassigned".
Proof.
  intros payer extract_monthly_costs.
  destruct (Process.extract_all extract_monthly_costs [payer])
    as [all_costs|e] eqn:Hrun; [|vm_compute in Hrun; discriminate].
  destruct (extraction_agrees_with_mapper extract_monthly_costs [payer])
    as [Hok _].
  destruct (Hok all_costs Hrun) as (index & Hidx & _ & _ & Hagree).
  vm_compute in Hrun. inversion Hrun; subst all_costs.
  vm_compute in Hidx. inversion Hidx; subst index.
  eexists _, _. split; [reflexivity|]. split; [left; reflexivity|].
  match goal with
  | |- business_unit ?d = _ =>
      destruct (Hagree "123456789012" d (or_introl eq_refl)) as [-> _]
  end.
  reflexivity.
Defined.

(** ** The reports *)

Lemma unseen_In (l seen : list string) (x : string) :
  In x (seen ++ unseen seen l) <-> In x seen \/ In x l.
Proof.
  revert seen; induction l as [|y l IH]; intros seen; cbn [unseen].
  - rewrite app_nil_r. cbn [In]. tauto.
  - destruct (existsb (String.eqb y) seen) eqn:E.
    + rewrite IH. apply existsb_eqb_In in E. cbn [In].
      split; [tauto|]. intros [H|[<-|H]]; auto.
    + replace (seen ++ y :: unseen (seen ++ [y]) l)
        with ((seen ++ [y]) ++ unseen (seen ++ [y]) l)
        by (now rewrite <- app_assoc).
      rewrite IH, in_app_iff. cbn [In]. tauto.
Qed.

Lemma list_sum_cons (x : nat) (l : list nat) :
  list_sum (x :: l) = (x + list_sum l)%nat.
Proof. reflexivity. Qed.

Lemma count_in_none (ks : list string) (b : string) :
  ~ In b ks ->
  list_sum (map (fun k => if String.eqb b k then 1 else 0)%nat ks) = 0%nat.
Proof.
  induction ks as [|k ks IH]; intros Hb; [reflexivity|].
  cbn [map]. rewrite list_sum_cons, IH by (intros H; apply Hb; now right).
  destruct (String.eqb_spec b k) as [->|_]; [|reflexivity].
  exfalso. apply Hb. now left.
Qed.

Lemma count_in_one (ks : list string) (b : string) :
  NoDup ks -> In b ks ->
  list_sum (map (fun k => if String.eqb b k then 1 else 0)%nat ks) = 1%nat.
Proof.
  induction 1 as [|k ks Hk Hnd IH]; [intros []|].
  cbn [map]. rewrite list_sum_cons. intros [->|Hin].
  - now rewrite String.eqb_refl, count_in_none.
  - destruct (String.eqb_spec b k) as [->|_]; [contradiction|]. now apply IH.
Qed.

Lemma accounts_partition (all_costs : list (string * account_data))
      (ks : list string) :
  NoDup ks ->
  (forall item, In item all_costs -> In (business_unit (snd item)) ks) ->
  list_sum (map (fun k => List.length (accounts_of k all_costs)) ks)
  = List.length all_costs.
Proof.
  intros Hnd. induction all_costs as [|item l IH]; intros Hall.
  - unfold accounts_of. cbn [filter List.length]. clear Hnd Hall.
    induction ks as [|k ks IHk]; [reflexivity|].
    cbn [map]. now rewrite list_sum_cons, IHk.
  - assert (Hsplit :
              list_sum (map (fun k => List.length (accounts_of k (item :: l))) ks)
              = (list_sum (map (fun k => if String.eqb (business_unit (snd item)) k
                                         then 1 else 0)%nat ks)
                 + list_sum (map (fun k => List.length (accounts_of k l)) ks))%nat).
    { clear IH Hall Hnd. induction ks as [|k ks IHk]; [reflexivity|].
      cbn [map]. rewrite !list_sum_cons, IHk. unfold accounts_of at 1.
      cbn [filter]. fold (accounts_of k l).
      destruct (String.eqb (business_unit (snd item)) k); cbn [List.length];
        lia. }
    rewrite Hsplit, IH by (intros i Hi; apply Hall; now right).
    rewrite (count_in_one ks (business_unit (snd item)) Hnd)
      by (apply Hall; now left).
    reflexivity.
Qed.

Lemma csv_amounts (month : string) (all_costs : list (string * account_data)) :
  well_formed all_costs ->
  map (fun row => num_of (nth 6 row VNone))
      (ReportGenerator.csv_rows month all_costs)
  = map Some (map Spec.amount (all_records all_costs)).
Proof.
  unfold ReportGenerator.csv_rows, all_records.
  induction all_costs as [|item l IH]; intros Hwf; cbn [flat_map map].
  - reflexivity.
  - rewrite !map_app, IH
      by (intros it r Hit Hr; apply (Hwf it r); [now right|exact Hr]).
    f_equal. rewrite !map_map. apply map_ext_in. intros r Hr.
    cbn [ReportGenerator.csv_row nth].
    pose proof (Hwf item r (or_introl eq_refl) Hr) as Hnum.
    unfold Spec.amount, amount_of, field, get_default in *.
    destruct (get String.eqb r "amount") as [v|]; [|contradiction].
    destruct (num_of v); [reflexivity|contradiction].
Qed.

Lemma csv_rows_length (month : string)
      (all_costs : list (string * account_data)) :
  List.length (ReportGenerator.csv_rows month all_costs)
  = List.length (flat_map (fun item => costs (snd item)) all_costs).
Proof.
  unfold ReportGenerator.csv_rows.
  induction all_costs as [|item l IH]; cbn [flat_map]; [reflexivity|].
  now rewrite !length_app, length_map, IH.
Qed.

(** When the aggregation returns, the CSV report is consistent with it:
    the detail file has one row per cost record, with the record's amount in
    its seventh column, and when the amounts are ints they add up to the
    run's total spend; the summary file has one row per business unit, in
    order, whose account count is the number of accounts mapped to the
    unit, and the counts add up to the number of accounts. *)
Theorem csv_report_matches_aggregation
        (format_2f : Q -> string) (month : string)
        (all_costs : list (string * account_data))
        (aggregated : list (string * bu_aggregate)) :
  _aggregate_by_business_unit all_costs = Ok aggregated ->
  List.length (ReportGenerator.csv_rows month all_costs)
  = List.length (flat_map (fun item => costs (snd item)) all_costs)
  /\ map (fun row => num_of (nth 6 row VNone))
         (ReportGenerator.csv_rows month all_costs)
     = map Some (map Spec.amount (all_records all_costs))
  /\ (int_amounts all_costs ->
      Qsum (map (fun r => val (Spec.amount r)) (all_records all_costs))
      == total_spend aggregated)
  /\ ReportGenerator.csv_summary_rows format_2f aggregated
     = map (fun item =>
              (fst item, format_2f (total (snd item)),
               List.length (accounts_of (fst item) all_costs)))
           aggregated
  /\ list_sum (map snd (ReportGenerator.csv_summary_rows format_2f aggregated))
     = List.length all_costs.
Proof.
  intros Hrun.
  assert (Hwf : well_formed all_costs).
  { intros item r Hitem Hr Hnone.
    destruct (aggregate_raises all_costs item r Hitem Hr Hnone) as [e He].
    congruence. }
  destruct (aggregate_units _ _ Hrun) as (Hnd & _).
  assert (Hcount : forall item,
             In item aggregated ->
             List.length (accounts (snd item))
             = List.length (accounts_of (fst item) all_costs)).
  { intros [bu unit] Hin. cbn [fst snd].
    pose proof (In_get String.eqb string_eqb_spec _ _ _ Hnd Hin) as Hget.
    pose proof (aggregate_from_accounts all_costs [] aggregated bu [] Hrun)
      as H.
    unfold get_default in H. rewrite Hget in H.
    cbn [get accounts empty_aggregate app] in H.
    exact (Forall2_length (H (Forall2_nil _))). }
  assert (Hrows : ReportGenerator.csv_summary_rows format_2f aggregated
                  = map (fun item =>
                           (fst item, format_2f (total (snd item)),
                            List.length (accounts_of (fst item) all_costs)))
                        aggregated).
  { unfold ReportGenerator.csv_summary_rows. apply map_ext_in.
    intros item Hin. now rewrite Hcount. }
  split; [|split; [|split; [|split; [exact Hrows|]]]].
  - apply csv_rows_length.
  - now apply csv_amounts.
  - intros Hint. symmetry. now apply total_spend_int.
  - rewrite Hrows, map_map. cbn [snd].
    rewrite <- (accounts_partition all_costs (keys aggregated) Hnd).
    + unfold keys. now rewrite map_map.
    + intros item Hitem.
      pose proof (aggregate_from_keys all_costs [] aggregated Hrun) as Hk.
      rewrite Hk. apply unseen_In. right.
      apply (in_map (fun item => business_unit (snd item))). exact Hitem.
Qed.

Lemma csv_report_matches_aggregation_witness :
  _aggregate_by_business_unit Examples.all_costs = Ok Examples.aggregated
  /\ List.length (ReportGenerator.csv_rows "2025-01" Examples.all_costs) = 4%nat
  /\ map snd (ReportGenerator.csv_summary_rows Examples.no_floats
                                               Examples.aggregated)
     = [2; 1]%nat.
Proof.
  assert (Hrun : _aggregate_by_business_unit Examples.all_costs
                 = Ok Examples.aggregated) by reflexivity.
  destruct (csv_report_matches_aggregation Examples.no_floats "2025-01"
              Examples.all_costs Examples.aggregated Hrun)
    as (Hlen & _ & _ & Hrows & _).
  split; [exact Hrun|]. split; [rewrite Hlen; reflexivity|].
  rewrite Hrows. reflexivity.
Defined.

Lemma html_rows_of_Some (units : list (string * bu_aggregate)) :
  forall rows,
    ReportGenerator.html_rows_of units = Some rows ->
    Forall2 (fun row item =>
               ReportGenerator.row_unit row = fst item
               /\ ReportGenerator.row_total row = total (snd item)
               /\ ReportGenerator.row_accounts row
                  = List.length (accounts (snd item))
               /\ ReportGenerator.top_service (snd item)
                  = Some (ReportGenerator.row_top_service row))
            rows units.
Proof.
  induction units as [|[bu_name bu_data] units IH]; intros rows;
    cbn [ReportGenerator.html_rows_of].
  - intros [= <-]. constructor.
  - destruct (ReportGenerator.top_service bu_data) as [top|] eqn:Etop;
      [|discriminate].
    destruct (ReportGenerator.html_rows_of units) as [rest|];
      cbn [option_map]; [|discriminate].
    intros [= <-]. constructor; [|now apply IH].
    cbn [fst snd ReportGenerator.row_unit ReportGenerator.row_total
         ReportGenerator.row_accounts ReportGenerator.row_top_service].
    auto.
Qed.

Lemma html_rows_of_None (units : list (string * bu_aggregate)) :
  ReportGenerator.html_rows_of units = None
  <-> Exists (fun item => services (snd item) = []) units.
Proof.
  induction units as [|[bu_name bu_data] units IH];
    cbn [ReportGenerator.html_rows_of].
  - split; [discriminate|intros H; inversion H].
  - unfold ReportGenerator.top_service.
    destruct (services bu_data) as [|x items] eqn:Es.
    + split; [intros _; left; exact Es|reflexivity].
    + destruct (ReportGenerator.html_rows_of units) as [rest|];
        cbn [option_map].
      * split; [discriminate|]. intros H. inversion H as [? ? Hh|? ? Ht]; subst.
        -- cbn [snd] in Hh. congruence.
        -- apply IH in Ht. discriminate.
      * split; [intros _; right; now apply IH|reflexivity].
Qed.

Lemma by_total_desc_sorted (aggregated : list (string * bu_aggregate)) :
  Permutation (ReportGenerator.by_total_desc aggregated) aggregated
  /\ StronglySorted (fun a b : num => b <= a)
                    (map (fun item => total (snd item))
                         (ReportGenerator.by_total_desc aggregated)).
Proof.
  unfold ReportGenerator.by_total_desc.
  set (paired := map (fun item => (item, total (snd item))) aggregated).
  pose proof (sorted_desc_perm paired) as Hperm.
  pose proof (sorted_desc_descending paired) as Hdesc.
  assert (Hsnd : Forall (fun p => snd p = total (snd (fst p)))
                        (sorted_desc paired)).
  { apply Forall_forall. intros p Hp.
    apply (Permutation_in _ Hperm) in Hp. subst paired.
    apply in_map_iff in Hp as (item & <- & _). reflexivity. }
  split.
  - apply (Permutation_map fst) in Hperm. subst paired.
    rewrite map_map in Hperm. cbn [fst] in Hperm. now rewrite map_id in Hperm.
  - rewrite map_map. unfold descending in Hdesc. clear Hperm. revert Hsnd.
    induction Hdesc as [|p l Hl IH Hp]; intros Hsnd; cbn [map]; constructor.
    + apply IH. now inversion Hsnd.
    + inversion Hsnd as [|? ? Hp0 Hl0]; subst.
      rewrite Forall_forall in Hp, Hl0. apply Forall_forall.
      intros q Hq. apply in_map_iff in Hq as (y & <- & Hy).
      rewrite <- Hp0, <- (Hl0 y Hy). now apply Hp.
Qed.

(** The table "Spend by Business Unit" of the HTML report, on what the
    aggregation returns: the loop that builds it raises exactly when some
    business unit has no cost record at all; otherwise it has one row per
    business unit, in descending order of total, each with the unit's total,
    the number of accounts mapped to it and a service of maximal subtotal. *)
Theorem html_rows_by_descending_total
        (all_costs : list (string * account_data))
        (aggregated : list (string * bu_aggregate)) :
  _aggregate_by_business_unit all_costs = Ok aggregated ->
  (ReportGenerator.html_rows aggregated = None
   <-> exists bu, In bu (keys aggregated) /\ unit_records bu all_costs = [])
  /\ forall rows,
      ReportGenerator.html_rows aggregated = Some rows ->
      Permutation (map ReportGenerator.row_unit rows) (keys aggregated)
      /\ StronglySorted (fun a b : num => b <= a)
                        (map ReportGenerator.row_total rows)
      /\ forall row,
          In row rows ->
          exists unit,
            In (ReportGenerator.row_unit row, unit) aggregated
            /\ ReportGenerator.row_total row = total unit
            /\ ReportGenerator.row_accounts row
               = List.length (accounts_of (ReportGenerator.row_unit row)
                                          all_costs)
            /\ In (ReportGenerator.row_top_service row) (services unit)
            /\ forall sa, In sa (services unit) ->
                          snd sa <= snd (ReportGenerator.row_top_service row).
Proof.
  intros Hrun. unfold ReportGenerator.html_rows.
  destruct (by_total_desc_sorted aggregated) as [Hperm Hsorted].
  set (units := ReportGenerator.by_total_desc aggregated) in *.
  destruct (aggregate_units _ _ Hrun) as (Hnd & _).
  split.
  - rewrite html_rows_of_None, Exists_exists. split.
    + intros ([bu unit] & Hin & Hnil). cbn [snd] in Hnil.
      apply (Permutation_in _ Hperm) in Hin. exists bu. split.
      * unfold keys. now apply (in_map fst) in Hin.
      * now apply (aggregate_services_nil all_costs aggregated bu unit Hrun Hin).
    + intros (bu & Hbu & Hnil). unfold keys in Hbu.
      apply in_map_iff in Hbu as ([bu' unit] & Hfst & Hin).
      cbn [fst] in Hfst. subst bu'. exists (bu, unit). split.
      * now apply (Permutation_in _ (Permutation_sym Hperm)).
      * cbn [snd].
        now apply (aggregate_services_nil all_costs aggregated bu unit Hrun Hin).
  - intros rows Hrows. apply html_rows_of_Some in Hrows.
    assert (Hunits : map ReportGenerator.row_unit rows = keys units
                     /\ map ReportGenerator.row_total rows
                        = map (fun item => total (snd item)) units).
    { clear Hperm Hsorted. unfold keys.
      induction Hrows as [|row item rows' units' (H1 & H2 & _) _ [IH1 IH2]];
        cbn [map]; [split; reflexivity|].
      split; congruence. }
    destruct Hunits as [Hnames Htotals]. split; [|split].
    + rewrite Hnames. unfold keys. now apply Permutation_map.
    + now rewrite Htotals.
    + intros row Hrow.
      assert (Hitem : exists item,
                 In item units
                 /\ ReportGenerator.row_unit row = fst item
                 /\ ReportGenerator.row_total row = total (snd item)
                 /\ ReportGenerator.row_accounts row
                    = List.length (accounts (snd item))
                 /\ ReportGenerator.top_service (snd item)
                    = Some (ReportGenerator.row_top_service row)).
      { clear Hperm Hsorted Hnames Htotals.
        induction Hrows as [|r item rows' units' Hhead _ IH]; [destruct Hrow|].
        destruct Hrow as [->|Hrow].
        - exists item. split; [now left|exact Hhead].
        - destruct (IH Hrow) as (it & Hit & Hrest).
          exists it. split; [now right|exact Hrest]. }
      destruct Hitem as ([bu unit] & Hin & Hname & Htotal & Hcount & Htop).
      cbn [fst snd] in *. apply (Permutation_in _ Hperm) in Hin.
      rewrite Hname. exists unit. split; [exact Hin|]. split; [exact Htotal|].
      split.
      * rewrite Hcount.
        pose proof (In_get String.eqb string_eqb_spec _ _ _ Hnd Hin) as Hget.
        pose proof (aggregate_from_accounts all_costs [] aggregated bu [] Hrun)
          as H.
        unfold get_default in H. rewrite Hget in H.
        cbn [get accounts empty_aggregate app] in H.
        exact (Forall2_length (H (Forall2_nil _))).
      * unfold ReportGenerator.top_service in Htop.
        rewrite <- sorted_desc_head in Htop.
        pose proof (sorted_desc_descending (services unit)) as Hdesc.
        pose proof (sorted_desc_perm (services unit)) as Hp.
        destruct (sorted_desc (services unit)) as [|h t] eqn:Es;
          [discriminate|].
        cbn [hd_error] in Htop. inversion Htop; subst h. split.
        -- apply (Permutation_in _ Hp). now left.
        -- intros sa Hsa.
           apply (Permutation_in _ (Permutation_sym Hp)) in Hsa.
           destruct Hsa as [->|Hsa]; [apply Qle_refl|].
           unfold descending in Hdesc.
           inversion Hdesc as [|? ? _ Hall]; subst.
           rewrite Forall_forall in Hall. now apply Hall.
Qed.

Lemma html_rows_by_descending_total_witness :
  exists rows,
    _aggregate_by_business_unit Examples.all_costs = Ok Examples.aggregated
    /\ ReportGenerator.html_rows Examples.aggregated = Some rows
    /\ map ReportGenerator.row_unit rows = ["Engineering"; "Sandbox"]
    /\ StronglySorted (fun a b : num => b <= a)
                      (map ReportGenerator.row_total rows).
Proof.
  assert (Hrun : _aggregate_by_business_unit Examples.all_costs
                 = Ok Examples.aggregated) by reflexivity.
  destruct (ReportGenerator.html_rows Examples.aggregated) as [rows|] eqn:Hrows;
    [|vm_compute in Hrows; discriminate].
  destruct (html_rows_by_descending_total Examples.all_costs
              Examples.aggregated Hrun) as [_ Hsome].
  destruct (Hsome rows Hrows) as (_ & Hsorted & _).
  exists rows. split; [exact Hrun|]. split; [reflexivity|].
  split; [|exact Hsorted].
  vm_compute in Hrows. inversion Hrows. reflexivity.
Defined.

(** ** Instances of the statements without a precondition *)

Lemma aggregate_returns_iff_well_formed_witness :
  well_formed Examples.all_costs
  /\ (exists aggregated,
         _aggregate_by_business_unit Examples.all_costs = Ok aggregated)
  /\ ~ well_formed (Examples.payer [Examples.missing_amount])
  /\ _aggregate_by_business_unit (Examples.payer [Examples.missing_amount])
     = Raise KeyError.
Proof.
  assert (Hwf : well_formed Examples.all_costs).
  { intros item r Hitem Hr.
    repeat (destruct Hitem as [<-|Hitem];
            [repeat (destruct Hr as [<-|Hr]; [discriminate|]); destruct Hr|]).
    destruct Hitem. }
  destruct (aggregate_returns_iff_well_formed Examples.all_costs)
    as [Hiff _].
  destruct (aggregate_returns_iff_well_formed
              (Examples.payer [Examples.missing_amount])) as [Hiff' _].
  split; [exact Hwf|]. split; [exact (proj2 Hiff Hwf)|]. split.
  - intros Hbad. destruct (proj2 Hiff' Hbad) as [aggregated Hrun].
    discriminate.
  - reflexivity.
Defined.

Lemma validate_cost_data_returns_iff_typed_witness :
  Forall typed_record [Examples.bad_date; Examples.missing_amount]
  /\ (exists result log',
         validate_cost_data Examples.no_floats []
                            [Examples.bad_date; Examples.missing_amount]
                            "123456789012"
         = Ok (result, log'))
  /\ validate_cost_data Examples.no_floats [] [Examples.non_numeric_amount]
                        "123456789012"
     = Raise TypeError.
Proof.
  assert (Htyped : Forall typed_record
                     [Examples.bad_date; Examples.missing_amount])
    by (repeat constructor; discriminate).
  destruct (validate_cost_data_returns_iff_typed Examples.no_floats []
              [Examples.bad_date; Examples.missing_amount] "123456789012")
    as [Hiff _].
  destruct (validate_cost_data_returns_iff_typed Examples.no_floats []
              [Examples.non_numeric_amount] "123456789012") as [_ Hexn].
  split; [exact Htyped|]. split; [exact (proj2 Hiff Htyped)|].
  destruct (validate_cost_data Examples.no_floats []
              [Examples.non_numeric_amount] "123456789012")
    as [[result log']|e] eqn:Hrun.
  - vm_compute in Hrun. discriminate.
  - now rewrite (Hexn e eq_refl).
Defined.

Lemma validate_reconciliation_returns_witness :
  let zero_budget :=
    {| actual := NInt 5; budget := Some (NInt 0); variance := Some (NInt 5);
       variance_pct := Some (NInt 1); Reconciler.status := ON_TRACK;
       alert_threshold_pct := Some (NInt 10); top_cost_drivers := Some [];
       unit_accounts := Some []; message := None |} in
  exists verdict,
    validate_reconciliation
      {| month := "2025-01"; units := [("Tiny", zero_budget)];
         total_variances := 0; total_overrun := NInt 0;
         total_underrun := NInt 0 |}
    = Ok verdict
    /\ status verdict = PASS.
Proof.
  intros zero_budget.
  destruct (validate_reconciliation_returns
              {| month := "2025-01"; units := [("Tiny", zero_budget)];
                 total_variances := 0; total_overrun := NInt 0;
                 total_underrun := NInt 0 |})
    as (verdict & Hrun & Hpass & _).
  exists verdict. split; [exact Hrun|]. apply Hpass.
  vm_compute in Hrun. inversion Hrun. reflexivity.
Defined.
